(** * Context Continuity Engine: temporal graph and prediction fusion

    A shallow embedding of [context_engine/graph/temporal_graph.py] and
    [context_engine/prediction/context_predictor.py], with the search of
    [context_engine/vector_db/embeddings.py] that the predictor calls.

    Modelling conventions.
    - Python [float]s are exact rationals ([Q]); rounding is not modelled.
      Numeric statements use [==], [<=] and [<] of [Q].  The one place
      where rounding is looked at is the average of the fusion, which
      [Binary64] evaluates on IEEE 754 doubles.
    - A Python [dict] with string keys is an insertion-ordered association
      list ([dict]).  Order matters: networkx iterates neighbours in
      insertion order and Python's sort is stable.
    - [datetime] values are integers on a time axis; [datetime.now()] is an
      explicit clock reading passed to the operation.
    - The networkx [DiGraph] is modelled by its two dictionaries [_node] and
      [_adj]; the predecessor table mirrors [_adj] and is left out.
    - Exceptions raised by the external collaborators are values of an
      error monad ([result]).  A method of the graph that changes the
      object ends in an [outcome]: the object as the call leaves it, and
      the exception when the call raised one.
    - The characters of a string are code points below 256. *)

From Stdlib Require Import List String Ascii Bool ZArith QArith Qminmax Qround.
From Stdlib Require Import Lia Lqa Permutation Sorted OrdersEx DecimalString.
From Stdlib Require SpecFloat.
Import ListNotations.

Local Open Scope string_scope.
Local Open Scope Z_scope.

(* ================================================================== *)
(** * Python data *)
(* ================================================================== *)

Module Py.

(** The scalar values that end up in attribute dictionaries. *)
Inductive pyval : Type :=
| PNone
| PBool (b : bool)
| PInt (z : Z)
| PFloat (q : Q)
| PStr (s : string)
| PTime (t : Z).

(** Python truthiness.  A [datetime] is always true. *)
Definition truthy (v : pyval) : bool :=
  match v with
  | PNone => false
  | PBool b => b
  | PInt z => negb (z =? 0)
  | PFloat q => negb (Qnum q =? 0)
  | PStr s => negb (s =? "")%string
  | PTime _ => true
  end.

(** [d.get(k)] seen through truthiness: a missing key reads as [None]. *)
Definition truthy_opt (o : option pyval) : bool :=
  match o with Some v => truthy v | None => false end.

(** The number a value is in a comparison: [True] is 1 and [False] is 0, an
    [int] and a [float] are compared by value. *)
Definition as_number (v : pyval) : option Q :=
  match v with
  | PBool b => Some (if b then 1 else 0)%Q
  | PInt z => Some (inject_Z z)
  | PFloat q => Some q
  | _ => None
  end.

(** [d.get(k) == s] for a string [s]. *)
Definition eq_str (o : option pyval) (s : string) : bool :=
  match o with
  | Some (PStr s') => (s' =? s)%string
  | _ => false
  end.

Section Dict.
Context {V : Type}.

Definition dict : Type := list (string * V).

  (** [d.get(k)] *)
Fixpoint dict_get (d : dict) (k : string) : option V :=
    match d with
    | [] => None
    | (k', v) :: d' => if (k' =? k)%string then Some v else dict_get d' k
    end.

  (** [k in d] *)
Definition dict_has (d : dict) (k : string) : bool :=
    match dict_get d k with Some _ => true | None => false end.

  (** [d[k] = v]: an existing key keeps its position, a new key goes last. *)
Fixpoint dict_set (d : dict) (k : string) (v : V) : dict :=
    match d with
    | [] => [(k, v)]
    | (k', v') :: d' =>
        if (k' =? k)%string then (k', v) :: d' else (k', v') :: dict_set d' k v
    end.

  (** [d.update(kvs)] *)
Definition dict_update (d : dict) (kvs : dict) : dict :=
    fold_left (fun acc kv => dict_set acc (fst kv) (snd kv)) kvs d.

  (** [del d[k]] (for a key that may be absent: [d.pop(k, None)]) *)
Fixpoint dict_del (d : dict) (k : string) : dict :=
    match d with
    | [] => []
    | (k', v) :: d' =>
        if (k' =? k)%string then dict_del d' k else (k', v) :: dict_del d' k
    end.

Definition dict_keys (d : dict) : list string := map fst d.

  (** [d[k]] read and rewritten in place, for a key that is present. *)
Definition dict_modify (d : dict) (k : string) (f : V -> V) : dict :=
    match dict_get d k with
    | Some v => dict_set d k (f v)
    | None => d
    end.
End Dict.

Arguments dict V : clear implicits.

(** Stable insertion sort: [sorted(l, key=...)] with [le x y] the test
    "x may stay in front of y".  Equal elements keep their input order. *)
Section Sort.
Context {A : Type} (le : A -> A -> bool).

Fixpoint insert_sorted (x : A) (l : list A) : list A :=
    match l with
    | [] => [x]
    | y :: l' => if le x y then x :: y :: l' else y :: insert_sorted x l'
    end.

Fixpoint stable_sort (l : list A) : list A :=
    match l with
    | [] => []
    | x :: l' => insert_sorted x (stable_sort l')
    end.
End Sort.

(** [a < b] and [a <= b] on floats, as booleans. *)
Definition Qleb (a b : Q) : bool := Qle_bool a b.
Definition Qltb (a b : Q) : bool := negb (Qle_bool b a).

(** The slice [l[:n]]; a negative [n] counts from the end. *)
Definition slice_to {A : Type} (l : list A) (n : Z) : list A :=
  if 0 <=? n then firstn (Z.to_nat n) l
  else firstn (Z.to_nat (Z.of_nat (List.length l) + n)) l.

(** [t in s] on strings. *)
Fixpoint contains (s t : string) : bool :=
  if String.prefix t s then true
  else match s with
       | EmptyString => false
       | String _ s' => contains s' t
       end.

(** [sep.join(parts)] *)
Fixpoint join (sep : string) (parts : list string) : string :=
  match parts with
  | [] => ""
  | [p] => p
  | p :: ps => p ++ sep ++ join sep ps
  end.

End Py.

Import Py.

(* ================================================================== *)
(** * networkx.DiGraph *)
(* ================================================================== *)

Module Nx.

Definition attrs : Type := dict pyval.

(** [_node] maps a node to its attribute dictionary, [_adj] maps a node to
    the dictionary of its successors, each with the edge's attributes. *)
Record DiGraph : Type := mkDiGraph {
  node : dict attrs;
  adj : dict (dict attrs)
}.

Definition empty : DiGraph := mkDiGraph [] [].

(** [n in G] *)
Definition has_node (G : DiGraph) (n : string) : bool := dict_has (node G) n.

Definition number_of_nodes (G : DiGraph) : Z := Z.of_nat (List.length (node G)).

(** [G[u]], empty for a node that is not in the graph. *)
Definition succ (G : DiGraph) (u : string) : dict attrs :=
  match dict_get (adj G) u with Some nb => nb | None => [] end.

(** [G.has_edge(u, v)] *)
Definition has_edge (G : DiGraph) (u v : string) : bool := dict_has (succ G u) v.

(** [G[u][v]] *)
Definition edge_data (G : DiGraph) (u v : string) : option attrs :=
  dict_get (succ G u) v.

(** [G.neighbors(u)]: the successors of [u], in insertion order. *)
Definition neighbors (G : DiGraph) (u : string) : list string :=
  dict_keys (succ G u).

(** [G.edges(data=True)] *)
Definition edges (G : DiGraph) : list (string * string * attrs) :=
  flat_map (fun '(u, nb) => map (fun '(v, d) => (u, v, d)) nb) (adj G).

Definition number_of_edges (G : DiGraph) : Z := Z.of_nat (List.length (edges G)).

(** [G.add_node(n, **attr)]: a new node gets [attr]; an existing node has
    its dictionary updated with [attr]. *)
Definition add_node (G : DiGraph) (n : string) (attr : attrs) : DiGraph :=
  if has_node G n
  then mkDiGraph (dict_modify (node G) n (fun d => dict_update d attr)) (adj G)
  else mkDiGraph (dict_set (node G) n (dict_update [] attr))
                 (dict_set (adj G) n []).

(** [G.add_edge(u, v, **attr)]: both endpoints are added, without
    attributes, when they are not in the graph; the edge dictionary is the
    existing one, or a new one, updated with [attr]. *)
Definition add_edge (G : DiGraph) (u v : string) (attr : attrs) : DiGraph :=
  let G1 := if has_node G u then G else add_node G u [] in
  let G2 := if has_node G1 v then G1 else add_node G1 v [] in
  let datadict := match edge_data G2 u v with Some d => d | None => [] end in
  mkDiGraph (node G2)
            (dict_set (adj G2) u (dict_set (succ G2 u) v (dict_update datadict attr))).

(** [G.remove_edge] for each listed pair that is an edge. *)
Definition remove_edges_from (G : DiGraph) (es : list (string * string)) : DiGraph :=
  fold_left
    (fun G '(u, v) =>
       if has_edge G u v
       then mkDiGraph (node G) (dict_set (adj G) u (dict_del (succ G u) v))
       else G)
    es G.

(** [G.remove_node(n)]: the node goes, with every edge from it and to it. *)
Definition remove_node (G : DiGraph) (n : string) : DiGraph :=
  if has_node G n
  then mkDiGraph (dict_del (node G) n)
                 (map (fun '(u, nb) => (u, dict_del nb n)) (dict_del (adj G) n))
  else G.

Definition remove_nodes_from (G : DiGraph) (ns : list string) : DiGraph :=
  fold_left remove_node ns G.

End Nx.

(* ================================================================== *)
(** * graph/temporal_graph.py *)
(* ================================================================== *)

Module TemporalGraph.

(** The object's state.  [persist_path] only matters to [save] and [load],
    which are not modelled. *)
Record t : Type := mk {
  graph : Nx.DiGraph;
  max_nodes : Z;
  decay_factor : Q
}.

Definition with_graph (self : t) (G : Nx.DiGraph) : t :=
  mk G (max_nodes self) (decay_factor self).

(** [TemporalGraph(max_nodes=..., decay_factor=...)] without a file to load. *)
Definition init (max_nodes : Z) (decay_factor : Q) : t :=
  mk Nx.empty max_nodes decay_factor.

(** How a call of a method ends: the object as the call leaves it, and the
    exception when the call raised one. *)
Record outcome : Type := mkOutcome {
  after : t;
  raised : option string
}.

Definition returns (self : t) : outcome := mkOutcome self None.
Definition raises (self : t) (exn : string) : outcome := mkOutcome self (Some exn).

(** [**attributes] cannot hold a name that the call binds in another way: a
    parameter of the method called, or a keyword that is passed beside
    [**attributes].  Python raises [TypeError] for such a call, before the
    body of the method called runs. *)
Definition clashes (attributes : Nx.attrs) (names : list string) : bool :=
  existsb (dict_has attributes) names.

(** [edge_data.get('strength', default)].  [add_temporal_edge] is the only
    writer of the key and stores a float; for a value that is not a number
    Python's arithmetic would raise, and the model reads the default. *)
Definition get_strength (d : Nx.attrs) (default : Q) : Q :=
  match dict_get d "strength" with
  | Some (PFloat q) => q
  | Some (PInt z) => inject_Z z
  | _ => default
  end.

(** [datetime.min], the sort key of a node whose timestamp is not true. *)
Definition datetime_min : Z := -62135596800.

(** The sort key [x[1] if x[1] else datetime.min] of [_prune_old_nodes]. *)
Definition prune_key (x : string * option pyval) : pyval :=
  match snd x with
  | Some v => if truthy v then v else PTime datetime_min
  | None => PTime datetime_min
  end.

(** The kinds of keys: [<] compares numbers with numbers, strings with
    strings and [datetime]s with [datetime]s, and raises [TypeError] for
    two keys of different kinds. *)
Inductive kind : Type := Number | Text | Moment | Nothing.

Definition kind_of (v : pyval) : kind :=
  match v with
  | PNone => Nothing
  | PBool _ | PInt _ | PFloat _ => Number
  | PStr _ => Text
  | PTime _ => Moment
  end.

Definition kind_rank (k : kind) : Z :=
  match k with Number => 0 | Text => 1 | Moment => 2 | Nothing => 3 end.

Definition same_kind (a b : pyval) : bool :=
  kind_rank (kind_of a) =? kind_rank (kind_of b).

(** [not (b < a)] for two keys of one kind: numbers by value, strings by
    their characters, [datetime]s by time.  Keys of different kinds are
    never compared by a sort that returns; they are ranked by kind here,
    which makes [key_leb] a total order. *)
Definition key_leb (a b : pyval) : bool :=
  match a, b with
  | PTime x, PTime y => x <=? y
  | PStr x, PStr y =>
      match OrdersEx.String_as_OT.compare x y with Gt => false | _ => true end
  | _, _ =>
      match as_number a, as_number b with
      | Some x, Some y => Qleb x y
      | _, _ => kind_rank (kind_of a) <=? kind_rank (kind_of b)
      end
  end.

(** Whether [sort] can compare the keys of the list: they are all of one
    kind.  A list of one entry is sorted without a comparison. *)
Definition comparable (timestamped : list (string * option pyval)) : bool :=
  match timestamped with
  | [] => true
  | x :: rest => forallb (fun y => same_kind (prune_key x) (prune_key y)) rest
  end.

(** [data.get('timestamp', data.get('created_at'))] *)
Definition node_time (data : Nx.attrs) : option pyval :=
  match dict_get data "timestamp" with
  | Some v => Some v
  | None => dict_get data "created_at"
  end.

Definition timestamped_nodes (G : Nx.DiGraph) : list (string * option pyval) :=
  flat_map
    (fun '(node_id, data) =>
       if truthy_opt (dict_get data "timestamp")
          || truthy_opt (dict_get data "created_at")
       then [(node_id, node_time data)] else [])
    (Nx.node G).

(** [max(1, int(self.max_nodes * 0.1))]; [int] truncates toward zero. *)
Definition num_to_remove (self : t) : Z := Z.max 1 (Z.quot (max_nodes self) 10).

(** [_prune_old_nodes].  The sort compares the keys with [<]: when they are
    not all of one kind it raises [TypeError], and no node has been removed
    by then. *)
Definition _prune_old_nodes (self : t) : outcome :=
  let timestamped := timestamped_nodes (graph self) in
  match timestamped with
  | [] => returns self
  | _ =>
      if comparable timestamped
      then
        let sorted :=
          stable_sort (fun x y => key_leb (prune_key x) (prune_key y)) timestamped in
        let to_remove := map fst (slice_to sorted (num_to_remove self)) in
        returns (with_graph self (Nx.remove_nodes_from (graph self) to_remove))
      else raises self "TypeError"
  end.

(** [add_activity_node(activity_id, activity_type, timestamp, **attributes)].
    The names that [**attributes] cannot hold are the method's parameters,
    the keyword [node_type] and the parameter [node_for_adding] of
    [add_node].  When the sort of [_prune_old_nodes] raises, the node has
    been added and stays. *)
Definition add_activity_node (self : t) (activity_id activity_type : string)
    (timestamp : Z) (attributes : Nx.attrs) : outcome :=
  if clashes attributes
       ["self"; "activity_id"; "activity_type"; "timestamp";
        "node_for_adding"; "node_type"]
  then raises self "TypeError"
  else
    let self1 :=
      with_graph self
        (Nx.add_node (graph self) activity_id
           ([("node_type", PStr "activity");
             ("activity_type", PStr activity_type);
             ("timestamp", PTime timestamp)] ++ attributes)%list) in
    if Nx.number_of_nodes (graph self1) >? max_nodes self1
    then _prune_old_nodes self1
    else returns self1.

(** [add_context_node(context_id, context_name, **attributes)]; [now] is the
    reading of [datetime.now()]. *)
Definition add_context_node (self : t) (now : Z) (context_id context_name : string)
    (attributes : Nx.attrs) : outcome :=
  if clashes attributes
       ["self"; "context_id"; "context_name";
        "node_for_adding"; "node_type"; "created_at"]
  then raises self "TypeError"
  else
    returns
      (with_graph self
         (Nx.add_node (graph self) context_id
            ([("node_type", PStr "context");
              ("context_name", PStr context_name);
              ("created_at", PTime now)] ++ attributes)%list)).

(** [min(1.0, a)] *)
Definition cap1 (a : Q) : Q := Qmin 1%Q a.

(** [add_temporal_edge(from_node, to_node, relationship, strength, **attributes)].
    An existing edge is updated with any attributes.  For a new edge the
    attributes go to [add_edge] beside the keywords [created_at] and
    [last_updated], which they cannot repeat, as they cannot name the
    parameters [u_of_edge] and [v_of_edge] of [add_edge]. *)
Definition add_temporal_edge (self : t) (now : Z) (from_node to_node relationship : string)
    (strength : Q) (attributes : Nx.attrs) : outcome :=
  if clashes attributes ["self"; "from_node"; "to_node"; "relationship"; "strength"]
  then raises self "TypeError"
  else if Nx.has_edge (graph self) from_node to_node
  then
    let G := graph self in
    let update (edge_data : Nx.attrs) : Nx.attrs :=
      let e1 := dict_set edge_data "strength"
                  (PFloat (cap1 (get_strength edge_data 0 + strength)%Q)) in
      let e2 := dict_set e1 "last_updated" (PTime now) in
      dict_update e2 attributes in
    returns
      (with_graph self
         (Nx.mkDiGraph (Nx.node G)
            (dict_modify (Nx.adj G) from_node
               (fun nb => dict_modify nb to_node update))))
  else if clashes attributes ["u_of_edge"; "v_of_edge"; "created_at"; "last_updated"]
  then raises self "TypeError"
  else
    returns
      (with_graph self
         (Nx.add_edge (graph self) from_node to_node
            ([("relationship", PStr relationship);
              ("strength", PFloat strength);
              ("created_at", PTime now);
              ("last_updated", PTime now)] ++ attributes)%list)).

(** [connect_sequential_activities]; [time_delta] is [total_seconds()].  The
    quotient raises [ZeroDivisionError] for a delta of minus one hour. *)
Definition connect_sequential_activities (self : t) (now : Z)
    (activity_id1 activity_id2 : string) (time_delta : Q) : outcome :=
  if Qeq_bool (1 + time_delta / 3600) 0
  then raises self "ZeroDivisionError"
  else
    let strength := (1 / (1 + time_delta / 3600))%Q in
    add_temporal_edge self now activity_id1 activity_id2 "followed_by" strength
      [("time_delta", PFloat time_delta)].

(** [link_activity_to_context] *)
Definition link_activity_to_context (self : t) (now : Z)
    (activity_id context_id : string) (confidence : Q) : outcome :=
  add_temporal_edge self now activity_id context_id "belongs_to" confidence [].

(** One entry of the list [get_related_activities] returns. *)
Record related : Type := mkRelated {
  rel_activity_id : string;
  rel_relationship : option pyval;
  rel_strength : Q;
  rel_depth : Z;
  rel_activity_type : option pyval;
  rel_timestamp : option pyval
}.

(** The state of the traversal: the [visited] set, the [queue] of
    (node, depth, cumulative strength) and the results found so far. *)
Record bfs_state : Type := mkBfs {
  visited : list string;
  queue : list (string * Z * Q);
  found : list related
}.

Definition in_visited (n : string) (visited : list string) : bool :=
  existsb (String.eqb n) visited.

(** The body of [for neighbor in self.graph.neighbors(current_node)]. *)
Definition visit_neighbor (G : Nx.DiGraph) (min_strength : Q)
    (current_node : string) (depth : Z) (cumulative_strength : Q)
    (st : bfs_state) (neighbor : string) : bfs_state :=
  if in_visited neighbor (visited st) then st
  else
    let edge_data := match Nx.edge_data G current_node neighbor with
                     | Some d => d | None => [] end in
    let edge_strength := get_strength edge_data 0%Q in
    if Qltb edge_strength min_strength then st
    else
      let new_strength := (cumulative_strength * edge_strength)%Q in
      let node_data := match dict_get (Nx.node G) neighbor with
                       | Some d => d | None => [] end in
      let found' :=
        if eq_str (dict_get node_data "node_type") "activity"
        then (found st ++ [mkRelated neighbor
                             (dict_get edge_data "relationship")
                             new_strength
                             (depth + 1)
                             (dict_get node_data "activity_type")
                             (dict_get node_data "timestamp")])%list
        else found st in
      mkBfs (neighbor :: visited st)
            (queue st ++ [(neighbor, depth + 1, new_strength)])%list
            found'.

(** The [while queue:] loop.  [fuel] bounds the number of iterations; the
    loop returns [None] only when the bound is hit with work left. *)
Fixpoint bfs_loop (fuel : nat) (G : Nx.DiGraph) (max_depth : Z) (min_strength : Q)
    (st : bfs_state) : option (list related) :=
  match queue st with
  | [] => Some (found st)
  | (current_node, depth, cumulative_strength) :: rest =>
      match fuel with
      | O => None
      | S fuel' =>
          let st1 := mkBfs (visited st) rest (found st) in
          if depth >=? max_depth
          then bfs_loop fuel' G max_depth min_strength st1
          else
            bfs_loop fuel' G max_depth min_strength
              (fold_left
                 (visit_neighbor G min_strength current_node depth cumulative_strength)
                 (Nx.neighbors G current_node) st1)
      end
  end.

(** Every node enters the queue at most once, so the loop runs at most once
    for the start node and once for each node that is the target of an edge. *)
Definition bfs_fuel (G : Nx.DiGraph) : nat := S (List.length (Nx.edges G)).

(** [get_related_activities(activity_id, max_depth, min_strength)] *)
Definition get_related_activities (self : t) (activity_id : string)
    (max_depth : Z) (min_strength : Q) : option (list related) :=
  if negb (Nx.has_node (graph self) activity_id) then Some []
  else
    match bfs_loop (bfs_fuel (graph self)) (graph self) max_depth min_strength
            (mkBfs [activity_id] [(activity_id, 0, 1%Q)] [])
    with
    | Some found =>
        Some (stable_sort (fun x y => Qleb (rel_strength y) (rel_strength x)) found)
    | None => None
    end.

(** One entry of the list [predict_next_activities] returns. *)
Record next_activity : Type := mkNext {
  next_activity_id : string;
  next_probability : Q;
  next_activity_type : option pyval;
  next_attributes : Nx.attrs
}.

(** [predict_next_activities(current_activity_id, top_k)] *)
Definition predict_next_activities (self : t) (current_activity_id : string)
    (top_k : Z) : list next_activity :=
  let G := graph self in
  if negb (Nx.has_node G current_activity_id) then []
  else
    let predictions :=
      flat_map
        (fun '(neighbor, edge_data) =>
           if eq_str (dict_get edge_data "relationship") "followed_by"
           then
             let node_data := match dict_get (Nx.node G) neighbor with
                              | Some d => d | None => [] end in
             [mkNext neighbor
                (get_strength edge_data 0%Q)
                (dict_get node_data "activity_type")
                (filter
                   (fun kv => negb (existsb (String.eqb (fst kv))
                                      ["node_type"; "activity_type"; "timestamp"]))
                   node_data)]
           else [])
        (Nx.succ G current_activity_id) in
    slice_to
      (stable_sort (fun x y => Qleb (next_probability y) (next_probability x)) predictions)
      top_k.

(** [decay_rate or self.decay_factor] *)
Definition effective_rate (self : t) (decay_rate : option Q) : Q :=
  match decay_rate with
  | Some r => if truthy (PFloat r) then r else decay_factor self
  | None => decay_factor self
  end.

(** [decay_edges(decay_rate=None)] *)
Definition decay_edges (self : t) (decay_rate : option Q) : t :=
  let decay_rate := effective_rate self decay_rate in
  let G := graph self in
  let G1 :=
    Nx.mkDiGraph (Nx.node G)
      (map (fun '(u, nb) =>
              (u, map (fun '(v, data) =>
                         let current_strength := get_strength data 1%Q in
                         (v, dict_set data "strength"
                               (PFloat (current_strength * decay_rate)%Q))) nb))
           (Nx.adj G)) in
  let to_remove :=
    flat_map (fun '(u, v, data) =>
                if Qltb (get_strength data 0%Q) (1 # 10)%Q then [(u, v)] else [])
             (Nx.edges G1) in
  with_graph self (Nx.remove_edges_from G1 to_remove).

(** [get_stats] *)
Record stats : Type := mkStats {
  total_nodes : Z;
  total_edges : Z;
  activity_nodes : Z;
  context_nodes : Z;
  stats_max_nodes : Z;
  stats_decay_factor : Q
}.

Definition count_type (G : Nx.DiGraph) (ty : string) : Z :=
  Z.of_nat (List.length
    (filter (fun '(_, data) => eq_str (dict_get data "node_type") ty) (Nx.node G))).

Definition get_stats (self : t) : stats :=
  mkStats (Nx.number_of_nodes (graph self)) (Nx.number_of_edges (graph self))
          (count_type (graph self) "activity") (count_type (graph self) "context")
          (max_nodes self) (decay_factor self).

End TemporalGraph.

(* ================================================================== *)
(** * IEEE 754 doubles *)
(* ================================================================== *)

(** Python's [float] as it is: binary64, every operation rounded to the
    nearest double, ties to even. *)
Module Binary64.

Definition prec : Z := 53.
Definition emax : Z := 1024.

Definition float : Type := SpecFloat.spec_float.

(** [float(z)] for an [int] *)
Definition of_int (z : Z) : float := SpecFloat.binary_normalize prec emax z 0 false.

Definition mul : float -> float -> float := SpecFloat.SFmul prec emax.
Definition add : float -> float -> float := SpecFloat.SFadd prec emax.
Definition div : float -> float -> float := SpecFloat.SFdiv prec emax.


End Binary64.

(* ================================================================== *)
(** * prediction/context_predictor.py *)
(* ================================================================== *)

Module ContextPredictor.

(** ** Exceptions *)

(** The outcome of a call that may raise. *)
Inductive result (A : Type) : Type :=
| Ok (a : A)
| Raise (exn : string).

Arguments Ok {A} a.
Arguments Raise {A} exn.

Definition bind {A B : Type} (c : result A) (k : A -> result B) : result B :=
  match c with
  | Ok a => k a
  | Raise e => Raise e
  end.

Notation "x <- c ;; k" := (bind c (fun x => k))
  (at level 61, c at next level, right associativity).

(** A loop whose body may raise: the first exception ends it. *)
Fixpoint mapM {A B : Type} (f : A -> result B) (l : list A) : result (list B) :=
  match l with
  | [] => Ok []
  | x :: l' => y <- f x ;; ys <- mapM f l' ;; Ok (y :: ys)
  end.

(** ** Data *)

(** [a == b], the equality of dictionary keys and set members.  Numbers are
    equal when their values are, whatever their types: [1], [1.0] and [True]
    are one key.  Values of different kinds are not equal. *)
Definition pyval_eqb (a b : pyval) : bool :=
  match a, b with
  | PNone, PNone => true
  | PStr x, PStr y => (x =? y)%string
  | PTime x, PTime y => (x =? y)%Z
  | _, _ =>
      match as_number a, as_number b with
      | Some x, Some y => Qeq_bool x y
      | _, _ => false
      end
  end.

Definition item_eqb (x y : string * pyval) : bool :=
  (fst x =? fst y)%string && pyval_eqb (snd x) (snd y).

Fixpoint key_eqb (k1 k2 : list (string * pyval)) : bool :=
  match k1, k2 with
  | [], [] => true
  | x :: k1', y :: k2' => item_eqb x y && key_eqb k1' k2'
  | _, _ => false
  end.

(** The order of [sorted(data.items())]: by field name, which is unique in
    a dictionary. *)
Definition item_leb (x y : string * pyval) : bool :=
  match OrdersEx.String_as_OT.compare (fst x) (fst y) with
  | Gt => false
  | _ => true
  end.

(** A prediction: the dictionary with the keys ['type'], ['confidence'],
    ['data'], ['reason'], the internal ['_count'] while merging, and the
    source's other keys (['text'], ['activity_type']) in [extra]. *)
Record prediction : Type := mkPred {
  type : string;
  confidence : Q;
  data : dict pyval;
  reason : string;
  _count : option Z;
  extra : dict pyval
}.

Definition set_confidence (p : prediction) (c : Q) : prediction :=
  mkPred (type p) c (data p) (reason p) (_count p) (extra p).
Definition set_reason (p : prediction) (r : string) : prediction :=
  mkPred (type p) (confidence p) (data p) r (_count p) (extra p).
Definition set_count (p : prediction) (n : option Z) : prediction :=
  mkPred (type p) (confidence p) (data p) (reason p) n (extra p).

(** ** Fusion *)

(** [tuple(sorted(data.items()))] *)
Definition dedup_key (pred : prediction) : list (string * pyval) :=
  stable_sort item_leb (data pred).

Definition merged_t : Type := list (list (string * pyval) * prediction).

Fixpoint merged_get (merged : merged_t) (key : list (string * pyval)) : option prediction :=
  match merged with
  | [] => None
  | (k, p) :: m' => if key_eqb k key then Some p else merged_get m' key
  end.

Fixpoint merged_set (merged : merged_t) (key : list (string * pyval)) (p : prediction)
  : merged_t :=
  match merged with
  | [] => [(key, p)]
  | (k, p') :: m' =>
      if key_eqb k key then (k, p) :: m' else (k, p') :: merged_set m' key p
  end.

(** The arithmetic on confidences: the product, the sum, the quotient and
    the conversion of an [int]. *)
Record arith (F : Type) : Type := mkArith {
  mul : F -> F -> F;
  add : F -> F -> F;
  div : F -> F -> F;
  of_int : Z -> F
}.

Arguments mul {F} _ _ _.
Arguments add {F} _ _ _.
Arguments div {F} _ _ _.
Arguments of_int {F} _ _.

(** Without rounding, as the rest of the model has it ... *)
Definition exact : arith Q := mkArith Q Qmult Qplus Qdiv inject_Z.


(** [(existing['confidence'] * count + pred['confidence']) / (count + 1)] *)
Definition running_average {F : Type} (A : arith F) (old : F) (count : Z) (incoming : F)
  : F :=
  div A (add A (mul A old (of_int A count)) incoming) (of_int A (count + 1)).

(** The update of [existing] by a later prediction with the same key. *)
Definition merge_into (existing pred : prediction) : prediction :=
  let count := match _count existing with Some c => c | None => 1 end in
  let e1 := set_confidence existing
              (running_average exact (confidence existing) count (confidence pred)) in
  let e2 := set_count e1 (Some (count + 1)) in
  if negb (contains (reason e2) (reason pred))
  then set_reason e2 (reason e2 ++ "; " ++ reason pred)
  else e2.

(** The body of [for pred in predictions]. *)
Definition merge_step (merged : merged_t) (pred : prediction) : merged_t :=
  let key := dedup_key pred in
  match merged_get merged key with
  | Some existing => merged_set merged key (merge_into existing pred)
  | None => merged_set merged key (set_count pred (Some 1))
  end.

Definition merge_all (predictions : list prediction) : merged_t :=
  fold_left merge_step predictions [].

Definition by_confidence_desc (x y : prediction) : bool :=
  Qleb (confidence y) (confidence x).

(** [_rank_and_deduplicate(predictions, max_results)] *)
Definition _rank_and_deduplicate (predictions : list prediction) (max_results : Z)
  : list prediction :=
  let merged := merge_all predictions in
  let ranked := stable_sort by_confidence_desc (map snd merged) in
  let ranked := map (fun pred => set_count pred None) ranked in
  slice_to ranked max_results.

(** ** Counters *)

Section Counter.
Context {K : Type} (eqb : K -> K -> bool).

  (** [counter[k] += 1] *)
Fixpoint counter_incr (c : list (K * Z)) (k : K) : list (K * Z) :=
    match c with
    | [] => [(k, 1)]
    | (k', n) :: c' =>
        if eqb k' k then (k', n + 1) :: c' else (k', n) :: counter_incr c' k
    end.

  (** [counter.most_common(n)]: largest counts first, ties in insertion
      order, nothing for [n <= 0]. *)
Definition most_common (c : list (K * Z)) (n : Z) : list (K * Z) :=
    firstn (Z.to_nat n) (stable_sort (fun x y => snd y <=? snd x) c).

Definition counter_total (c : list (K * Z)) : Z :=
    fold_left (fun acc kn => acc + snd kn) c 0.
End Counter.

(** ** Signal sources *)

(** One hit of the semantic search. *)
Record search_hit : Type := mkHit {
  hit_text : pyval;
  hit_metadata : dict pyval;
  hit_similarity : Q
}.

(** What the predictor is constructed with and what it reads from the
    outside: the two collaborators, whose calls may raise, the clock, and
    Python's formatting of numbers and values. *)
Record env : Type := mkEnv {
  (** [embeddings.search_similar(query_text, n_results, threshold)] *)
  search_similar : string -> Z -> Q -> result (list search_hit);
  (** [db.get_recent_activities(limit, hours)], newest first *)
  get_recent_activities : Z -> Z -> result (list (dict pyval));
  (** [datetime.fromisoformat(activity['timestamp'])] as (hour, weekday) *)
  fromisoformat : option pyval -> result (Z * Z);
  (** [datetime.now()] as (hour, weekday) *)
  now_hour : Z;
  now_weekday : Z;
  (** [f"{x:.2f}"] *)
  format_2f : Q -> string;
  (** [f"{v}"] for a value of an activity record *)
  format_value : pyval -> string;
  (** [self.graph] and [self.min_confidence] *)
  graph : TemporalGraph.t;
  min_confidence : Q
}.

Definition format_int (z : Z) : string := NilZero.string_of_int (Z.to_int z).

(** [activity.get(k)]: a missing key reads as [None]. *)
Definition get_or_none (d : dict pyval) (k : string) : pyval :=
  match dict_get d k with Some v => v | None => PNone end.

(** [_build_context_description(activity)] *)
Definition _build_context_description (E : env) (activity : dict pyval) : string :=
  let part (k label : string) : list string :=
    if truthy (get_or_none activity k)
    then [label ++ format_value E (get_or_none activity k)] else [] in
  let parts := (part "app_name" "Application: " ++ part "window_title" "Window: "
                ++ part "file_path" "File: " ++ part "url" "URL: ")%list in
  match parts with
  | [] => "Current activity"
  | _ => join " | " parts
  end.

(** [_predict_from_semantics(context_description, n_results)] *)
Definition _predict_from_semantics (E : env) (context_description : string)
    (n_results : Z) : result (list prediction) :=
  similar_contexts <- search_similar E context_description n_results (1 # 2) ;;
  Ok (map (fun r =>
             mkPred "semantic" (hit_similarity r) (hit_metadata r)
               ("Semantically similar (score: " ++ format_2f E (hit_similarity r) ++ ")")
               None [("text", hit_text r)])
          similar_contexts).

(** [_predict_from_graph(activity_id, top_k)].  Graph nodes are strings, so
    an id of another type is not in the graph. *)
Definition _predict_from_graph (E : env) (activity_id : pyval) (top_k : Z)
  : list prediction :=
  let next_activities :=
    match activity_id with
    | PStr id => TemporalGraph.predict_next_activities (graph E) id top_k
    | _ => []
    end in
  map (fun p =>
         mkPred "graph" (TemporalGraph.next_probability p)
           (TemporalGraph.next_attributes p)
           ("Historically follows current activity ("
              ++ format_2f E (TemporalGraph.next_probability p) ++ ")")
           None
           [("activity_type",
             match TemporalGraph.next_activity_type p with
             | Some v => v | None => PNone end)])
      next_activities.

Definition pair_eqb (x y : pyval * pyval) : bool :=
  pyval_eqb (fst x) (fst y) && pyval_eqb (snd x) (snd y).

(** [_predict_from_time_patterns(current_activity, n_results)] *)
Definition _predict_from_time_patterns (E : env) (current_activity : dict pyval)
    (n_results : Z) : result (list prediction) :=
  recent_activities <- get_recent_activities E 1000 (24 * 7) ;;
  flags <- mapM (fun activity =>
                   hw <- fromisoformat E (dict_get activity "timestamp") ;;
                   Ok ((Z.abs (fst hw - now_hour E) <=? 1)
                       && (snd hw =? now_weekday E)))
                recent_activities ;;
  let time_window_activities :=
    map fst (filter snd (combine recent_activities flags)) in
  let activity_counter :=
    fold_left
      (fun c activity =>
         counter_incr pair_eqb c
           (get_or_none activity "app_name", get_or_none activity "window_title"))
      (slice_to time_window_activities (n_results * 3)) [] in
  let total_count := counter_total activity_counter in
  Ok (map (fun '((app_name, window_title), count) =>
             mkPred "temporal_pattern"
               (if total_count >? 0 then inject_Z count / inject_Z total_count else 0)%Q
               [("app_name", app_name); ("window_title", window_title)]
               ("Common activity at this time (" ++ format_int count ++ " occurrences)")
               None [])
          (most_common activity_counter n_results)).

(** [min(0.9, a)] *)
Definition cap09 (a : Q) : Q := Qmin (9 # 10) a.

(** [_predict_from_recent_context(n_results)] *)
Definition _predict_from_recent_context (E : env) (n_results : Z)
  : result (list prediction) :=
  recent <- get_recent_activities E 20 1 ;;
  match recent with
  | [] => Ok []
  | _ =>
      let count_by (k : string) :=
        fold_left
          (fun c activity =>
             if truthy (get_or_none activity k)
             then counter_incr pyval_eqb c (get_or_none activity k) else c)
          recent [] in
      let app_counter := count_by "app_name" in
      let file_counter := count_by "file_path" in
      let len := inject_Z (Z.of_nat (List.length recent)) in
      let apps :=
        map (fun '(app_name, count) =>
               mkPred "context_continuation" (cap09 (inject_Z count / len))
                 [("app_name", app_name)]
                 ("Recent focus (" ++ format_int count ++ " recent activities)")
                 None [])
            (most_common app_counter n_results) in
      let files :=
        map (fun '(file_path, count) =>
               mkPred "context_continuation" (cap09 (inject_Z count / len))
                 [("file_path", file_path)]
                 ("Recently accessed (" ++ format_int count ++ " times)")
                 None [])
            (most_common file_counter n_results) in
      Ok (apps ++ files)%list
  end.

(** The last step of [predict_context]: the confidence filter. *)
Definition filter_by_confidence (E : env) (ranked : list prediction) : list prediction :=
  filter (fun p => Qleb (min_confidence E) (confidence p)) ranked.

(** [predict_context(current_activity, max_results)] *)
Definition predict_context (E : env) (current_activity : dict pyval) (max_results : Z)
  : result (list prediction) :=
  let context_description := _build_context_description E current_activity in
  semantic_predictions <- _predict_from_semantics E context_description max_results ;;
  let graph_predictions :=
    match dict_get current_activity "activity_id" with
    | Some activity_id => _predict_from_graph E activity_id max_results
    | None => []
    end in
  temporal_predictions <- _predict_from_time_patterns E current_activity max_results ;;
  continuation_predictions <- _predict_from_recent_context E max_results ;;
  let predictions := (semantic_predictions ++ graph_predictions
                      ++ temporal_predictions ++ continuation_predictions)%list in
  let ranked_predictions := _rank_and_deduplicate predictions max_results in
  Ok (filter_by_confidence E ranked_predictions).

(** ** Suggestions *)

(** One entry of [related_files] or [related_apps]: the value of the field
    ([file_path] or [app_name]), the confidence and the reason. *)
Record suggestion : Type := mkSuggestion {
  sug_value : pyval;
  sug_confidence : Q;
  sug_reason : string
}.

(** One entry of [next_actions].  Its [data] is a dictionary. *)
Record action : Type := mkAction {
  act_activity_type : pyval;
  act_data : dict pyval;
  act_confidence : Q;
  act_reason : string
}.

Record suggestions : Type := mkSuggestions {
  related_files : list suggestion;
  related_apps : list suggestion;
  related_contexts : list suggestion;
  next_actions : list action
}.

(** Equality of the keys [tuple(sorted(item.items()))] of two entries: the
    same fields with equal values. *)
Definition suggestion_eqb (x y : suggestion) : bool :=
  pyval_eqb (sug_value x) (sug_value y)
  && Qeq_bool (sug_confidence x) (sug_confidence y)
  && (sug_reason x =? sug_reason y)%string.

(** The loop [for item in suggestions[key]] with its set [seen]: the first
    of equal items is kept. *)
Fixpoint unique_items (seen items : list suggestion) : list suggestion :=
  match items with
  | [] => []
  | item :: rest =>
      if existsb (suggestion_eqb item) seen then unique_items seen rest
      else item :: unique_items (item :: seen) rest
  end.

(** [get_context_suggestions(current_activity)].  The keys of the four lists
    are put into a set, so they are hashed.  The entries of [related_files]
    and [related_apps] hold scalars; an entry of [next_actions] holds the
    dictionary [data], and hashing its key raises [TypeError].
    [next_actions] is the last list the loop comes to. *)
Definition get_context_suggestions (E : env) (current_activity : dict pyval)
  : result suggestions :=
  predictions <- predict_context E current_activity 20 ;;
  let files :=
    flat_map (fun pred =>
                if truthy (get_or_none (data pred) "file_path")
                then [mkSuggestion (get_or_none (data pred) "file_path")
                        (confidence pred) (reason pred)]
                else [])
             predictions in
  let apps :=
    flat_map (fun pred =>
                if truthy (get_or_none (data pred) "app_name")
                then [mkSuggestion (get_or_none (data pred) "app_name")
                        (confidence pred) (reason pred)]
                else [])
             predictions in
  let actions :=
    flat_map (fun pred =>
                if (type pred =? "graph")%string
                then [mkAction (get_or_none (extra pred) "activity_type") (data pred)
                        (confidence pred) (reason pred)]
                else [])
             predictions in
  match actions with
  | [] =>
      Ok (mkSuggestions (slice_to (unique_items [] files) 5)
            (slice_to (unique_items [] apps) 5) [] [])
  | _ :: _ => Raise "TypeError"
  end.

End ContextPredictor.

(* ================================================================== *)
(** * vector_db/embeddings.py *)
(* ================================================================== *)

Module EmbeddingStore.
Import ContextPredictor.

(** What [collection.query] answers: in each field one list for each query,
    or [None] for a field that is left out. *)
Record query_result : Type := mkQuery {
  ids : option (list (list string));
  distances : option (list (list Q));
  documents : option (list (list pyval));
  metadatas : option (list (list (dict pyval)))
}.

(** The store, as far as a search goes: the embedding of the query text
    followed by the query of the collection, with [n_results] and [where].
    Either may raise. *)
Record t : Type := mk {
  query : string -> Z -> option (dict pyval) -> result query_result
}.

(** One entry of the list [search_similar] returns. *)
Record document : Type := mkDocument {
  doc_id : string;
  doc_text : pyval;
  doc_metadata : dict pyval;
  doc_similarity : Q
}.

(** [c.isspace()].  Characters are code points below 256. *)
Definition is_space (c : ascii) : bool :=
  let n := nat_of_ascii c in
  ((9 <=? n)%nat && (n <=? 13)%nat) || ((28 <=? n)%nat && (n <=? 32)%nat)
  || (n =? 133)%nat || (n =? 160)%nat.

(** [not s.strip()]: every character of [s] is white space. *)
Fixpoint all_space (s : string) : bool :=
  match s with
  | EmptyString => true
  | String c s' => is_space c && all_space s'
  end.

(** [not query_text or not query_text.strip()] *)
Definition blank (query_text : string) : bool :=
  (query_text =? "")%string || all_space query_text.

(** [l[i]] *)
Definition item {A : Type} (l : list A) (i : nat) : result A :=
  match nth_error l i with
  | Some x => Ok x
  | None => Raise "IndexError"
  end.

(** [results[field][0][i] if results[field] else default] *)
Definition field_at {A : Type} (field : option (list (list A))) (i : nat) (default : A)
  : result A :=
  match field with
  | Some (first :: _) => item first i
  | _ => Ok default
  end.

(** The body of [for i, doc_id in enumerate(results['ids'][0])]: nothing for
    a document below the threshold, one entry otherwise. *)
Definition format_result (results : query_result) (threshold : Q)
    (entry : nat * string) : result (list document) :=
  let '(i, doc_id) := entry in
  distance <- field_at (distances results) i 0%Q ;;
  let similarity := (1 - distance)%Q in
  if Qltb similarity threshold then Ok []
  else
    text <- field_at (documents results) i PNone ;;
    metadata <- field_at (metadatas results) i [] ;;
    Ok [mkDocument doc_id text metadata similarity].

(** [search_similar(query_text, n_results, where, threshold)] *)
Definition search_similar (self : t) (query_text : string) (n_results : Z)
    (where_ : option (dict pyval)) (threshold : Q) : result (list document) :=
  if blank query_text then Ok []
  else
    results <- query self query_text n_results where_ ;;
    match ids results with
    | Some (first :: _) =>
        formatted <- mapM (format_result results threshold)
                       (combine (seq 0 (List.length first)) first) ;;
        Ok (List.concat formatted)
    | _ => Ok []
    end.

(** [find_related_contexts(current_context, n_results)] *)
Definition find_related_contexts (self : t) (current_context : string) (n_results : Z)
  : result (list document) :=
  search_similar self current_context n_results None (1 # 2).

(** What the predictor reads of an entry. *)
Definition as_hit (d : document) : search_hit :=
  mkHit (doc_text d) (doc_metadata d) (doc_similarity d).

(** A predictor whose [embeddings] is the store [self]: its searches are the
    calls [self.search_similar(query_text, n_results, threshold=threshold)]. *)
Definition with_store (self : t) (E : env) : env :=
  mkEnv (fun query_text n_results threshold =>
           docs <- search_similar self query_text n_results None threshold ;;
           Ok (map as_hit docs))
        (get_recent_activities E) (fromisoformat E) (now_hour E) (now_weekday E)
        (format_2f E) (format_value E) (graph E) (min_confidence E).

End EmbeddingStore.

(* ================================================================== *)
(** * Specifications *)
(* ================================================================== *)

Module Spec.

Fixpoint nodupb (l : list string) : bool :=
  match l with
  | [] => true
  | x :: l' => negb (existsb (String.eqb x) l') && nodupb l'
  end.

(** A graph is well formed when its tables are dictionaries (no key twice),
    [_node] and [_adj] have the same keys, and every edge ends in a node. *)
Definition wf (G : Nx.DiGraph) : bool :=
  nodupb (dict_keys (Nx.node G))
  && nodupb (dict_keys (Nx.adj G))
  && forallb (fun n => dict_has (Nx.adj G) n) (dict_keys (Nx.node G))
  && forallb (fun '(u, nb) =>
                dict_has (Nx.node G) u
                && nodupb (dict_keys nb)
                && forallb (fun v => dict_has (Nx.node G) v) (dict_keys nb))
             (Nx.adj G).

(** The same, as the properties the proofs use. *)
Record wfP (G : Nx.DiGraph) : Prop := mkWfP {
  wf_nodup_node : NoDup (dict_keys (Nx.node G));
  wf_nodup_adj : NoDup (dict_keys (Nx.adj G));
  wf_same_keys : forall n, dict_has (Nx.adj G) n = dict_has (Nx.node G) n;
  wf_nodup_succ : forall u nb, dict_get (Nx.adj G) u = Some nb -> NoDup (dict_keys nb);
  wf_targets : forall u nb v,
      dict_get (Nx.adj G) u = Some nb -> dict_has nb v = true ->
      dict_has (Nx.node G) v = true
}.

(** The number of edges from [u] to [v]. *)
Definition edge_count (G : Nx.DiGraph) (u v : string) : nat :=
  List.length
    (filter (fun '(x, y, _) => (x =? u)%string && (y =? v)%string) (Nx.edges G)).

(** The states a [TemporalGraph] object goes through: created empty, then
    changed by its public operations, whether a call returns or raises. *)
Inductive reachable : TemporalGraph.t -> Prop :=
| reach_init max_nodes decay_factor :
    reachable (TemporalGraph.init max_nodes decay_factor)
| reach_activity self activity_id activity_type timestamp attributes :
    reachable self ->
    reachable (TemporalGraph.after
                 (TemporalGraph.add_activity_node self activity_id activity_type
                    timestamp attributes))
| reach_context self now context_id context_name attributes :
    reachable self ->
    reachable (TemporalGraph.after
                 (TemporalGraph.add_context_node self now context_id context_name
                    attributes))
| reach_edge self now from_node to_node relationship strength attributes :
    reachable self ->
    reachable (TemporalGraph.after
                 (TemporalGraph.add_temporal_edge self now from_node to_node
                    relationship strength attributes))
| reach_decay self decay_rate :
    reachable self ->
    reachable (TemporalGraph.decay_edges self decay_rate).

(** The names [**attributes] cannot hold in a call of [add_temporal_edge]:
    the parameters of the method, and for a new edge the keywords passed to
    [add_edge] beside the attributes and the parameters of [add_edge]. *)
Definition edge_parameters : list string :=
  ["self"; "from_node"; "to_node"; "relationship"; "strength"].
Definition new_edge_keywords : list string :=
  ["u_of_edge"; "v_of_edge"; "created_at"; "last_updated"].

(** The same for [add_activity_node] and for [add_context_node]. *)
Definition activity_keywords : list string :=
  ["self"; "activity_id"; "activity_type"; "timestamp"; "node_for_adding"; "node_type"].
Definition context_keywords : list string :=
  ["self"; "context_id"; "context_name"; "node_for_adding"; "node_type"; "created_at"].

(** Whether a call of [add_temporal_edge] for the pair passes its
    attributes without a clash. *)
Definition edge_accepted (G : Nx.DiGraph) (u v : string) (attributes : Nx.attrs) : bool :=
  negb (TemporalGraph.clashes attributes edge_parameters)
  && (Nx.has_edge G u v || negb (TemporalGraph.clashes attributes new_edge_keywords)).

(** One call of [add_temporal_edge] for a fixed pair of nodes: the clock
    reading and the arguments [relationship], [strength], [**attributes]. *)
Record upsert : Type := mkUpsert {
  up_now : Z;
  up_relationship : string;
  up_strength : Q;
  up_attributes : Nx.attrs
}.

Definition apply_upsert (u v : string) (self : TemporalGraph.t) (up : upsert)
  : TemporalGraph.outcome :=
  TemporalGraph.add_temporal_edge self (up_now up) u v (up_relationship up)
    (up_strength up) (up_attributes up).

(** The calls of a list, one after the other, each on the object as the
    call before it left it. *)
Definition upsert_all (self : TemporalGraph.t) (u v : string) (ups : list upsert)
  : TemporalGraph.t :=
  fold_left (fun s up => TemporalGraph.after (apply_upsert u v s up)) ups self.

(** The attributes of the call can be passed for a new edge. *)
Definition plain_attributes (up : upsert) : Prop :=
  TemporalGraph.clashes (up_attributes up) edge_parameters = false
  /\ TemporalGraph.clashes (up_attributes up) new_edge_keywords = false.

(** [discovered G min_strength start v depth s]: some walk of [depth]
    outgoing edges leads from [start] to [v], none of its edges is weaker
    than [min_strength], and [s] is the product of their strengths, taken
    in the order of the walk. *)
Inductive discovered (G : Nx.DiGraph) (min_strength : Q) (start : string)
  : string -> Z -> Q -> Prop :=
| disc_start : discovered G min_strength start start 0 1%Q
| disc_step u v d depth s :
    discovered G min_strength start u depth s ->
    Nx.edge_data G u v = Some d ->
    ~ (TemporalGraph.get_strength d 0 < min_strength)%Q ->
    discovered G min_strength start v (depth + 1)
      (s * TemporalGraph.get_strength d 0)%Q.

(** The targets of the edges, one entry for each edge. *)
Definition targets (G : Nx.DiGraph) : list string :=
  map (fun '(_, v, _) => v) (Nx.edges G).

(** The edge targets the traversal has not reached yet. *)
Definition unvisited (G : Nx.DiGraph) (visited : list string) : nat :=
  List.length
    (filter (fun v => negb (TemporalGraph.in_visited v visited)) (targets G)).

(** An edge the traversal follows: present and not weaker than
    [min_strength]. *)
Definition strong (G : Nx.DiGraph) (min_strength : Q) (u v : string) : Prop :=
  exists d, Nx.edge_data G u v = Some d
            /\ ~ (TemporalGraph.get_strength d 0 < min_strength)%Q.

(** [node_data.get('node_type') == 'activity'] for the node [n]. *)
Definition is_activity (G : Nx.DiGraph) (n : string) : bool :=
  eq_str
    (dict_get (match dict_get (Nx.node G) n with Some d => d | None => [] end)
       "node_type")
    "activity".

(** The invariant of the traversal loop.  [P] lists the entries taken from
    the queue so far, [k] is the depth the loop works at, and [exempt] holds
    of the edges of the node in work that the inner loop has not come to. *)
Record bfs_inv (G : Nx.DiGraph) (max_depth : Z) (min_strength : Q) (start : string)
    (exempt : string -> string -> Prop) (P : list (string * Z)) (k : Z)
    (st : TemporalGraph.bfs_state) : Prop := mkBfsInv {
  inv_start : In start (TemporalGraph.visited st);
  inv_visited : forall x,
      In x (TemporalGraph.visited st) <->
      In x (map fst P) \/ In x (map (fun i => fst (fst i)) (TemporalGraph.queue st));
  inv_min_P : forall x kx, In (x, kx) P ->
      forall j s, discovered G min_strength start x j s -> kx <= j;
  inv_min_Q : forall x kx sx, In (x, kx, sx) (TemporalGraph.queue st) ->
      forall j s, discovered G min_strength start x j s -> kx <= j;
  inv_levels : exists Qa Qb,
      TemporalGraph.queue st = (Qa ++ Qb)%list
      /\ (forall i, In i Qa -> snd (fst i) = k)
      /\ (forall i, In i Qb -> snd (fst i) = k + 1);
  inv_P_le : forall x kx, In (x, kx) P -> kx <= k;
  inv_near : forall x j s, discovered G min_strength start x j s ->
      j <= k -> j <= max_depth -> In x (TemporalGraph.visited st);
  inv_closed : forall u ku, In (u, ku) P -> ku < max_depth ->
      forall v, strong G min_strength u v ->
      exempt u v \/ In v (TemporalGraph.visited st);
  inv_found_P : forall x kx, In (x, kx) P -> x <> start -> is_activity G x = true ->
      exists r, In r (TemporalGraph.found st)
                /\ TemporalGraph.rel_activity_id r = x
                /\ TemporalGraph.rel_depth r = kx;
  inv_found_Q : forall x kx sx, In (x, kx, sx) (TemporalGraph.queue st) ->
      x <> start -> is_activity G x = true ->
      exists r, In r (TemporalGraph.found st)
                /\ TemporalGraph.rel_activity_id r = x
                /\ TemporalGraph.rel_depth r = kx;
  inv_found_entry : forall r, In r (TemporalGraph.found st) ->
      In (TemporalGraph.rel_activity_id r, TemporalGraph.rel_depth r) P
      \/ exists sx, In (TemporalGraph.rel_activity_id r, TemporalGraph.rel_depth r, sx)
                      (TemporalGraph.queue st)
}.

(** No edge is exempt: the invariant at the head of the loop. *)
Definition no_exempt (u v : string) : Prop := False.

(** The edges of [u] to nodes outside [done] are exempt: the invariant
    inside the loop over the neighbours of [u]. *)
Definition exempt_after (u : string) (done : list string) (a v : string) : Prop :=
  a = u /\ ~ In v done.

(** ** Auxiliary definitions of the proofs *)

(** A dictionary with each value rewritten in place. *)
Definition map_values {V W : Type} (f : string -> V -> W) (d : dict V) : dict W :=
  map (fun '(k, v) => (k, f k v)) d.

(** The graph after the endpoints of a new edge have been added. *)
Definition with_endpoints (G : Nx.DiGraph) (u v : string) : Nx.DiGraph :=
  let G1 := if Nx.has_node G u then G else Nx.add_node G u [] in
  if Nx.has_node G1 v then G1 else Nx.add_node G1 v [].

Definition remove_edge_step (G : Nx.DiGraph) (e : string * string) : Nx.DiGraph :=
  let '(u, v) := e in
  if Nx.has_edge G u v
  then Nx.mkDiGraph (Nx.node G) (dict_set (Nx.adj G) u (dict_del (Nx.succ G u) v))
  else G.

Definition edge_eqb (e1 e2 : string * string) : bool :=
  (fst e1 =? fst e2)%string && (snd e1 =? snd e2)%string.

Definition decayed (decay_rate : Q) (data : Nx.attrs) : Nx.attrs :=
  dict_set data "strength" (PFloat (TemporalGraph.get_strength data 1 * decay_rate)%Q).

(** The graph of [decay_edges] before the weak edges are removed. *)
Definition decay_map (G : Nx.DiGraph) (decay_rate : Q) : Nx.DiGraph :=
  Nx.mkDiGraph (Nx.node G)
    (map_values (fun _ nb => map_values (fun _ => decayed decay_rate) nb) (Nx.adj G)).

Definition weak_edges (G : Nx.DiGraph) : list (string * string) :=
  flat_map (fun '(u, v, data) =>
              if Qltb (TemporalGraph.get_strength data 0%Q) (1 # 10)%Q then [(u, v)] else [])
           (Nx.edges G).

(** The edge dictionary after an upsert of an existing edge. *)
Definition upserted (now : Z) (strength : Q) (attributes d : Nx.attrs) : Nx.attrs :=
  dict_update
    (dict_set
       (dict_set d "strength" (PFloat (TemporalGraph.cap1 (TemporalGraph.get_strength d 0 + strength)%Q)))
       "last_updated" (PTime now))
    attributes.

(** The dictionary of an edge that [add_temporal_edge] creates. *)
Definition created (now : Z) (relationship : string) (strength : Q)
    (attributes : Nx.attrs) : Nx.attrs :=
  dict_update []
    ([("relationship", PStr relationship); ("strength", PFloat strength);
      ("created_at", PTime now); ("last_updated", PTime now)] ++ attributes)%list.

Definition mem (n : string) (ns : list string) : bool := existsb (String.eqb n) ns.

Definition by_time (x y : string * option pyval) : bool :=
  TemporalGraph.key_leb (TemporalGraph.prune_key x) (TemporalGraph.prune_key y).

(** The object after a call of [add_temporal_edge] that returns. *)
Definition edge_put (self : TemporalGraph.t) (now : Z) (u v relationship : string)
    (strength : Q) (attributes : Nx.attrs) : TemporalGraph.t :=
  if Nx.has_edge (TemporalGraph.graph self) u v
  then
    TemporalGraph.with_graph self
      (Nx.mkDiGraph (Nx.node (TemporalGraph.graph self))
         (dict_modify (Nx.adj (TemporalGraph.graph self)) u
            (fun nb => dict_modify nb v (upserted now strength attributes))))
  else
    TemporalGraph.with_graph self
      (Nx.add_edge (TemporalGraph.graph self) u v
         ([("relationship", PStr relationship); ("strength", PFloat strength);
           ("created_at", PTime now); ("last_updated", PTime now)] ++ attributes)%list).

(** The object after the first step of [add_activity_node], before the
    size is looked at. *)
Definition activity_put (self : TemporalGraph.t) (activity_id activity_type : string)
    (timestamp : Z) (attributes : Nx.attrs) : TemporalGraph.t :=
  TemporalGraph.with_graph self
    (Nx.add_node (TemporalGraph.graph self) activity_id
       ([("node_type", PStr "activity"); ("activity_type", PStr activity_type);
         ("timestamp", PTime timestamp)] ++ attributes)%list).

(** The object after a call of [add_context_node] that returns. *)
Definition context_put (self : TemporalGraph.t) (now : Z) (context_id context_name : string)
    (attributes : Nx.attrs) : TemporalGraph.t :=
  TemporalGraph.with_graph self
    (Nx.add_node (TemporalGraph.graph self) context_id
       ([("node_type", PStr "context"); ("context_name", PStr context_name);
         ("created_at", PTime now)] ++ attributes)%list).

(** Every node with a time has a [datetime] as its sort key: its
    [timestamp], or without that key its [created_at], is a [datetime] or
    is not true. *)
Definition datetime_keys (G : Nx.DiGraph) : Prop :=
  forall x, In x (TemporalGraph.timestamped_nodes G) ->
  TemporalGraph.kind_of (TemporalGraph.prune_key x) = TemporalGraph.Moment.

(** What holds of every entry of the queue ... *)
Definition good_item (G : Nx.DiGraph) (max_depth : Z) (min_strength : Q) (start : string)
    (item : string * Z * Q) : Prop :=
  discovered G min_strength start (fst (fst item)) (snd (fst item)) (snd item)
  /\ 0 <= snd (fst item)
  /\ (snd (fst item) = 0 \/ snd (fst item) <= max_depth).

(** ... and of every result. *)
Definition good_found (G : Nx.DiGraph) (max_depth : Z) (min_strength : Q) (start : string)
    (r : TemporalGraph.related) : Prop :=
  discovered G min_strength start (TemporalGraph.rel_activity_id r) (TemporalGraph.rel_depth r) (TemporalGraph.rel_strength r)
  /\ 1 <= TemporalGraph.rel_depth r <= max_depth
  /\ exists node_data,
       dict_get (Nx.node G) (TemporalGraph.rel_activity_id r) = Some node_data
       /\ dict_get node_data "node_type" = Some (PStr "activity")
       /\ TemporalGraph.rel_activity_type r = dict_get node_data "activity_type"
       /\ TemporalGraph.rel_timestamp r = dict_get node_data "timestamp".

(** ** Fusion, as the specification words it *)


(** No two keys of a list are equal. *)
Definition distinct_keys (keys : list (list (string * pyval))) : Prop :=
  ForallOrdPairs (fun k k' => ContextPredictor.key_eqb k k' = false) keys.

(** The candidates of a list whose payload has the key [k], in order. *)
Definition group (k : list (string * pyval)) (predictions : list ContextPredictor.prediction)
  : list ContextPredictor.prediction :=
  filter (fun p => ContextPredictor.key_eqb (ContextPredictor.dedup_key p) k) predictions.


(** ** Sequences of insertions *)

(** One call of [add_activity_node]. *)
Record activity_insert : Type := mkInsert {
  ins_id : string;
  ins_type : string;
  ins_timestamp : Z;
  ins_attributes : Nx.attrs
}.

Definition apply_insert (self : TemporalGraph.t) (i : activity_insert)
  : TemporalGraph.outcome :=
  TemporalGraph.add_activity_node self (ins_id i) (ins_type i) (ins_timestamp i)
    (ins_attributes i).

(** The calls of a list, one after the other; the first exception ends the
    run. *)
Fixpoint insert_all (self : TemporalGraph.t) (l : list activity_insert)
  : TemporalGraph.outcome :=
  match l with
  | [] => TemporalGraph.returns self
  | i :: l' =>
      match TemporalGraph.raised (apply_insert self i) with
      | None => insert_all (TemporalGraph.after (apply_insert self i)) l'
      | Some exn => apply_insert self i
      end
  end.

(** The attributes of the call can be passed. *)
Definition plain_insert (i : activity_insert) : Prop :=
  TemporalGraph.clashes (ins_attributes i) activity_keywords = false.

(** The nodes [_prune_old_nodes] removes: the first [num_to_remove]
    candidates in the order of their time. *)
Definition pruned (self : TemporalGraph.t) : list string :=
  map fst
    (firstn (Z.to_nat (TemporalGraph.num_to_remove self))
       (stable_sort by_time (TemporalGraph.timestamped_nodes (TemporalGraph.graph self)))).

(** ** Next activities *)

(** The entries [predict_next_activities] collects for a node, before they
    are sorted. *)
Definition followers (G : Nx.DiGraph) (u : string) : list TemporalGraph.next_activity :=
  flat_map
    (fun '(neighbor, edge_data) =>
       if eq_str (dict_get edge_data "relationship") "followed_by"
       then
         let node_data := match dict_get (Nx.node G) neighbor with
                          | Some d => d | None => [] end in
         [TemporalGraph.mkNext neighbor
            (TemporalGraph.get_strength edge_data 0%Q)
            (dict_get node_data "activity_type")
            (filter
               (fun kv => negb (existsb (String.eqb (fst kv))
                                  ["node_type"; "activity_type"; "timestamp"]))
               node_data)]
       else [])
    (Nx.succ G u).

Definition by_probability (x y : TemporalGraph.next_activity) : bool :=
  Qleb (TemporalGraph.next_probability y) (TemporalGraph.next_probability x).

(** The strength [connect_sequential_activities] gives to a pair of
    activities [time_delta] seconds apart. *)
Definition sequential_strength (time_delta : Q) : Q := (1 / (1 + time_delta / 3600))%Q.

(** ** Traversal results *)

(** What the traversal keeps about its results: the start node is visited,
    no node is reported twice, and a reported node is visited and is not
    the start node. *)
Definition fresh_found (start : string) (st : TemporalGraph.bfs_state) : Prop :=
  In start (TemporalGraph.visited st)
  /\ NoDup (map TemporalGraph.rel_activity_id (TemporalGraph.found st))
  /\ forall r, In r (TemporalGraph.found st) ->
       In (TemporalGraph.rel_activity_id r) (TemporalGraph.visited st)
       /\ TemporalGraph.rel_activity_id r <> start.

(** ** Invariants of the object *)

(** The keys [add_temporal_edge] writes on every edge it creates. *)
Definition edge_keys : list string :=
  ["relationship"; "strength"; "created_at"; "last_updated"].

(** Every edge carries the keys of [edge_keys]. *)
Definition stamped (G : Nx.DiGraph) : Prop :=
  forall u v d, Nx.edge_data G u v = Some d ->
  forall k, In k edge_keys -> dict_has d k = true.

(** [n] calls of [decay_edges] in a row, with the same argument. *)
Definition decay_rounds (self : TemporalGraph.t) (decay_rate : option Q) (n : nat)
  : TemporalGraph.t :=
  Nat.iter n (fun s => TemporalGraph.decay_edges s decay_rate) self.

(** The strength [n] calls of [decay_edges] give an edge of strength [s]
    that is not removed on the way: one product with the rate for each
    call, taken one after the other. *)
Fixpoint strength_after (decay_rate : Q) (n : nat) (s : Q) : Q :=
  match n with
  | O => s
  | S n' => (strength_after decay_rate n' s * decay_rate)%Q
  end.

(** Whether the edge is there after the [n] calls: none of the calls found
    its product below 0.1. *)
Fixpoint survives (decay_rate : Q) (n : nat) (s : Q) : bool :=
  match n with
  | O => true
  | S n' =>
      survives decay_rate n' s
      && negb (Qltb (strength_after decay_rate (S n') s) (1 # 10)%Q)
  end.

End Spec.

(* ================================================================== *)
(** * Sample objects *)
(* ================================================================== *)

Module Examples.
Import TemporalGraph.

(** Three activities in a row: a1 -> a2 with strength 0.8 and a2 -> a3 with
    strength 0.5, both [followed_by]. *)
Definition chain : TemporalGraph.t :=
  let g0 := init 10 (95 # 100) in
  let g1 := after (add_activity_node g0 "a1" "window_focus" 1
                     [("app_name", PStr "editor")]) in
  let g2 := after (add_activity_node g1 "a2" "window_focus" 2
                     [("app_name", PStr "browser")]) in
  let g3 := after (add_activity_node g2 "a3" "window_focus" 3
                     [("app_name", PStr "terminal")]) in
  let g4 := after (add_temporal_edge g3 4 "a1" "a2" "followed_by" (8 # 10) []) in
  after (add_temporal_edge g4 5 "a2" "a3" "followed_by" (5 # 10) []).

(** An activity linked to a context that leads on to another activity. *)
Definition bridge : TemporalGraph.t :=
  let g0 := init 10 (95 # 100) in
  let g1 := after (add_activity_node g0 "a1" "window_focus" 1 []) in
  let g2 := after (add_context_node g1 2 "c1" "project" []) in
  let g3 := after (add_activity_node g2 "a2" "file_open" 3 []) in
  let g4 := after (link_activity_to_context g3 4 "a1" "c1" (1 # 1)) in
  after (add_temporal_edge g4 5 "c1" "a2" "followed_by" (1 # 2) []).

(** A graph at its capacity of two nodes. *)
Definition full : TemporalGraph.t :=
  let g0 := init 2 (95 # 100) in
  let g1 := after (add_activity_node g0 "a1" "window_focus" 1 []) in
  after (add_activity_node g1 "a2" "window_focus" 2 []).

(** A graph at its capacity of two nodes, one of them a context node that
    was given a date as a string. *)
Definition dated : TemporalGraph.t :=
  let g0 := init 2 (95 # 100) in
  let g1 := after (add_activity_node g0 "a1" "window_focus" 1 []) in
  after (add_context_node g1 2 "c1" "project" [("timestamp", PStr "2024-05-01")]).



(** A stand-in for [f"{x:.2f}"] on non-negative numbers. *)
Definition show_2f (q : Q) : string :=
  let n := Qfloor (q * 100 + (1 # 2)) in
  let cents := n mod 100 in
  ContextPredictor.format_int (n / 100) ++ "."
    ++ (if cents <? 10 then "0" else "") ++ ContextPredictor.format_int cents.

Definition show_value (v : pyval) : string :=
  match v with
  | PNone => "None"
  | PBool true => "True"
  | PBool false => "False"
  | PInt z => ContextPredictor.format_int z
  | PFloat q => show_2f q
  | PStr s => s
  | PTime t => ContextPredictor.format_int t
  end.

(** A predictor over the sample graph, on a Wednesday at ten, with the
    default threshold 0.6 and the given collaborators. *)
Definition predictor
    (search : string -> Z -> Q -> ContextPredictor.result (list ContextPredictor.search_hit))
    (recent : Z -> Z -> ContextPredictor.result (list (dict pyval)))
  : ContextPredictor.env :=
  ContextPredictor.mkEnv search recent
    (fun _ => ContextPredictor.Ok (10, 2)) 10 2 show_2f show_value chain (6 # 10).

Definition no_hits : string -> Z -> Q -> ContextPredictor.result (list ContextPredictor.search_hit) :=
  fun _ _ _ => ContextPredictor.Ok [].

Definition no_history : Z -> Z -> ContextPredictor.result (list (dict pyval)) :=
  fun _ _ => ContextPredictor.Ok [].

(** One activity in the editor, seen in both history queries. *)
Definition editor_history : Z -> Z -> ContextPredictor.result (list (dict pyval)) :=
  fun _ _ =>
    ContextPredictor.Ok
      [[("timestamp", PStr "2024-05-01T10:05:00"); ("activity_type", PStr "window_focus");
        ("app_name", PStr "editor"); ("window_title", PStr "main.py")]].

(** The search is down. *)
Definition search_down : string -> Z -> Q -> ContextPredictor.result (list ContextPredictor.search_hit) :=
  fun _ _ _ => ContextPredictor.Raise "ConnectionError".

(** The search answers the placeholder text and nothing else. *)
Definition placeholder_search
  : string -> Z -> Q -> ContextPredictor.result (list ContextPredictor.search_hit) :=
  fun query_text _ _ =>
    if (query_text =? "Current activity")%string
    then ContextPredictor.Ok
           [ContextPredictor.mkHit (PStr "idle") [("app_name", PStr "desktop")] (9 # 10)]
    else ContextPredictor.Ok [].

(** The search finds three documents, with similarities 0.9, 0.5 and 0.7. *)
Definition three_hits
  : string -> Z -> Q -> ContextPredictor.result (list ContextPredictor.search_hit) :=
  fun _ _ _ =>
    ContextPredictor.Ok
      [ContextPredictor.mkHit (PStr "writing code") [("app_name", PStr "editor")] (9 # 10);
       ContextPredictor.mkHit (PStr "reading mail") [("app_name", PStr "mail")] (5 # 10);
       ContextPredictor.mkHit (PStr "reading docs") [("app_name", PStr "browser")] (7 # 10)].

(** A store whose collection answers every query with three documents at
    the cosine distances 0.1, 0.7 and 0.3. *)
Definition store : EmbeddingStore.t :=
  EmbeddingStore.mk
    (fun _ _ _ =>
       ContextPredictor.Ok
         (EmbeddingStore.mkQuery
            (Some [["doc_1"; "doc_2"; "doc_3"]])
            (Some [[1 # 10; 7 # 10; 3 # 10]])
            (Some [[PStr "writing code"; PStr "reading mail"; PStr "reading docs"]])
            (Some [[[("app_name", PStr "editor")]; [("app_name", PStr "mail")];
                    [("app_name", PStr "browser")]]]))).

End Examples.

(* ================================================================== *)
(** * Proofs *)
(* ================================================================== *)

(** ** Dictionaries *)

Module DictFacts.

Section Facts.
Context {V : Type}.
Implicit Types (d : dict V) (k : string) (v : V).

Lemma dict_get_set d k v k' :
    dict_get (dict_set d k v) k' = if (k =? k')%string then Some v else dict_get d k'.
  Proof.
    induction d as [|[k0 v0] d IH]; simpl.
    - reflexivity.
    - destruct (String.eqb_spec k0 k) as [->|Hne]; simpl.
      + destruct (k =? k')%string; reflexivity.
      + rewrite IH. destruct (String.eqb_spec k0 k') as [->|Hne'].
        * destruct (String.eqb_spec k k'); [congruence|reflexivity].
        * reflexivity.
  Qed.

Lemma dict_get_set_eq d k v : dict_get (dict_set d k v) k = Some v.
  Proof. rewrite dict_get_set, String.eqb_refl. reflexivity. Qed.

Lemma dict_get_set_ne d k v k' :
    k <> k' -> dict_get (dict_set d k v) k' = dict_get d k'.
  Proof.
    intros H. rewrite dict_get_set.
    destruct (String.eqb_spec k k'); [contradiction|reflexivity].
  Qed.

Lemma dict_get_del d k k' :
    dict_get (dict_del d k) k' = if (k =? k')%string then None else dict_get d k'.
  Proof.
    induction d as [|[k0 v0] d IH]; simpl.
    - destruct (k =? k')%string; reflexivity.
    - destruct (String.eqb_spec k0 k) as [->|Hne]; simpl.
      + rewrite IH. destruct (k =? k')%string; reflexivity.
      + rewrite IH. destruct (String.eqb_spec k0 k') as [->|Hne'].
        * destruct (String.eqb_spec k k'); [congruence|reflexivity].
        * reflexivity.
  Qed.

Lemma dict_get_modify d k (f : V -> V) k' :
    dict_get (dict_modify d k f) k'
    = if (k =? k')%string then option_map f (dict_get d k) else dict_get d k'.
  Proof.
    unfold dict_modify. destruct (dict_get d k) as [v|] eqn:E.
    - rewrite dict_get_set. destruct (k =? k')%string; reflexivity.
    - destruct (String.eqb_spec k k') as [<-|]; [rewrite E|]; reflexivity.
  Qed.

Lemma dict_has_In d k : dict_has d k = true <-> In k (dict_keys d).
  Proof.
    unfold dict_has. induction d as [|[k0 v0] d IH]; simpl.
    - split; [discriminate|tauto].
    - destruct (String.eqb_spec k0 k) as [->|Hne].
      + split; auto.
      + rewrite IH. split; [auto|]. intros [H|H]; [contradiction|assumption].
  Qed.

Lemma dict_has_false d k : dict_has d k = false <-> ~ In k (dict_keys d).
  Proof.
    rewrite <- dict_has_In. destruct (dict_has d k); split; congruence.
  Qed.

Lemma dict_get_In d k v : dict_get d k = Some v -> In (k, v) d.
  Proof.
    induction d as [|[k0 v0] d IH]; simpl; [discriminate|].
    destruct (String.eqb_spec k0 k) as [->|Hne].
    - intros [= ->]. auto.
    - auto.
  Qed.

Lemma In_dict_get d k v :
    NoDup (dict_keys d) -> In (k, v) d -> dict_get d k = Some v.
  Proof.
    induction d as [|[k0 v0] d IH]; simpl; [tauto|].
    intros Hnd [H|H].
    - injection H as -> ->. rewrite String.eqb_refl. reflexivity.
    - inversion Hnd as [|? ? Hnot Hnd']; subst.
      destruct (String.eqb_spec k0 k) as [->|Hne].
      + exfalso. apply Hnot. apply (in_map fst) in H. exact H.
      + auto.
  Qed.

Lemma dict_has_get d k : dict_has d k = true <-> exists v, dict_get d k = Some v.
  Proof.
    unfold dict_has. destruct (dict_get d k); split; eauto.
    - discriminate.
    - intros [v H]; discriminate.
  Qed.

Lemma dict_keys_set d k v :
    dict_keys (dict_set d k v)
    = if dict_has d k then dict_keys d else (dict_keys d ++ [k])%list.
  Proof.
    unfold dict_has. induction d as [|[k0 v0] d IH]; simpl.
    - reflexivity.
    - destruct (String.eqb_spec k0 k) as [->|Hne]; simpl.
      + reflexivity.
      + rewrite IH. destruct (dict_get d k); reflexivity.
  Qed.

Lemma dict_keys_del d k :
    dict_keys (dict_del d k) = filter (fun k' => negb (k' =? k)%string) (dict_keys d).
  Proof.
    induction d as [|[k0 v0] d IH]; simpl.
    - reflexivity.
    - destruct (k0 =? k)%string; simpl; rewrite IH; reflexivity.
  Qed.

Lemma dict_keys_modify d k f : dict_keys (dict_modify d k f) = dict_keys d.
  Proof.
    unfold dict_modify. destruct (dict_get d k) eqn:E; [|reflexivity].
    rewrite dict_keys_set. unfold dict_has. rewrite E. reflexivity.
  Qed.

Lemma NoDup_filter {A} (p : A -> bool) (l : list A) : NoDup l -> NoDup (filter p l).
  Proof.
    induction 1 as [|x l Hx Hnd IH]; simpl; [constructor|].
    destruct (p x); [constructor|]; auto.
    rewrite filter_In. tauto.
  Qed.

Lemma NoDup_snoc {A} (l : list A) (x : A) : NoDup l -> ~ In x l -> NoDup (l ++ [x]).
  Proof.
    intros Hnd Hx. induction Hnd as [|y l Hy Hnd IH]; simpl.
    - constructor; [tauto|constructor].
    - constructor.
      + rewrite in_app_iff. simpl. intros [H|[H|[]]]; [tauto|].
        subst. apply Hx. left. reflexivity.
      + apply IH. intros H. apply Hx. right. exact H.
  Qed.

Lemma NoDup_keys_set d k v : NoDup (dict_keys d) -> NoDup (dict_keys (dict_set d k v)).
  Proof.
    intros H. rewrite dict_keys_set. destruct (dict_has d k) eqn:E; [exact H|].
    apply NoDup_snoc; [exact H|]. apply dict_has_false. exact E.
  Qed.

Lemma NoDup_keys_del d k : NoDup (dict_keys d) -> NoDup (dict_keys (dict_del d k)).
  Proof. intros H. rewrite dict_keys_del. apply NoDup_filter. exact H. Qed.

Lemma NoDup_keys_update d kvs :
    NoDup (dict_keys d) -> NoDup (dict_keys (dict_update d kvs)).
  Proof.
    unfold dict_update. revert d.
    induction kvs as [|[k v] kvs IH]; simpl; intros d H; [exact H|].
    apply IH. apply NoDup_keys_set. exact H.
  Qed.

Lemma dict_has_set d k v k' :
    dict_has (dict_set d k v) k' = ((k =? k')%string || dict_has d k').
  Proof.
    unfold dict_has. rewrite dict_get_set. destruct (k =? k')%string; reflexivity.
  Qed.

Lemma dict_has_del d k k' :
    dict_has (dict_del d k) k' = (negb (k =? k')%string && dict_has d k').
  Proof.
    unfold dict_has. rewrite dict_get_del. destruct (k =? k')%string; reflexivity.
  Qed.

Lemma dict_has_modify d k f k' : dict_has (dict_modify d k f) k' = dict_has d k'.
  Proof.
    unfold dict_has. rewrite dict_get_modify.
    destruct (String.eqb_spec k k') as [<-|]; [|reflexivity].
    destruct (dict_get d k); reflexivity.
  Qed.

Lemma In_dict_set d k v k' v' :
    In (k', v') (dict_set d k v) -> (k' = k /\ v' = v) \/ In (k', v') d.
  Proof.
    induction d as [|[k0 v0] d IH]; simpl.
    - intros [H|H]; [injection H as <- <-; auto|destruct H].
    - destruct (String.eqb_spec k0 k) as [->|Hne]; simpl.
      + intros [H|H]; [injection H as <- <-|]; auto.
      + intros [H|H]; auto. apply IH in H. tauto.
  Qed.

Lemma In_dict_del d k k' v' : In (k', v') (dict_del d k) -> In (k', v') d /\ k' <> k.
  Proof.
    induction d as [|[k0 v0] d IH]; simpl; [tauto|].
    destruct (String.eqb_spec k0 k) as [->|Hne]; simpl.
    - intros H. apply IH in H. tauto.
    - intros [H|H]; [injection H as <- <-; auto|]. apply IH in H. tauto.
  Qed.

Lemma length_dict_del_le d k : (List.length (dict_del d k) <= List.length d)%nat.
  Proof.
    induction d as [|[k0 v0] d IH]; simpl; [lia|].
    destruct (k0 =? k)%string; simpl; lia.
  Qed.

Lemma length_dict_del_lt d k :
    dict_has d k = true -> (List.length (dict_del d k) < List.length d)%nat.
  Proof.
    unfold dict_has. induction d as [|[k0 v0] d IH]; simpl; [discriminate|].
    destruct (k0 =? k)%string; simpl.
    - intros _. pose proof (length_dict_del_le d k). lia.
    - intros H. apply IH in H. lia.
  Qed.

Lemma length_dict_set d k v :
    List.length (dict_set d k v)
    = if dict_has d k then List.length d else S (List.length d).
  Proof.
    unfold dict_has. induction d as [|[k0 v0] d IH]; simpl; [reflexivity|].
    destruct (k0 =? k)%string; simpl; [reflexivity|].
    rewrite IH. destruct (dict_get d k); reflexivity.
  Qed.

Lemma length_dict_modify d k f : List.length (dict_modify d k f) = List.length d.
  Proof.
    unfold dict_modify. destruct (dict_get d k) eqn:E; [|reflexivity].
    rewrite length_dict_set. unfold dict_has. rewrite E. reflexivity.
  Qed.
End Facts.

Lemma nodupb_NoDup l : Spec.nodupb l = true <-> NoDup l.
Proof.
  induction l as [|x l IH]; simpl.
  - split; [constructor|reflexivity].
  - rewrite andb_true_iff, negb_true_iff, IH. split.
    + intros [Hx Hnd]. constructor; [|exact Hnd].
      intros Hin. assert (existsb (String.eqb x) l = true) as E.
      { apply existsb_exists. exists x. split; [exact Hin|apply String.eqb_refl]. }
      congruence.
    + intros H. inversion H as [|? ? Hx Hnd]; subst. split; [|exact Hnd].
      destruct (existsb (String.eqb x) l) eqn:E; [|reflexivity].
      apply existsb_exists in E as [y [Hin Hy]].
      apply String.eqb_eq in Hy. subst. contradiction.
Qed.

End DictFacts.

(** ** Sorting *)

Module SortFacts.

Section Facts.
Context {A : Type} (le : A -> A -> bool).

Lemma insert_sorted_perm x l : Permutation (insert_sorted le x l) (x :: l).
Proof.
  induction l as [|y l IH]; simpl; [reflexivity|].
  destruct (le x y); [reflexivity|].
  rewrite IH. apply perm_swap.
Qed.

Lemma stable_sort_perm l : Permutation (stable_sort le l) l.
Proof.
  induction l as [|x l IH]; simpl; [reflexivity|].
  rewrite insert_sorted_perm. constructor. exact IH.
Qed.

Lemma stable_sort_In l x : In x (stable_sort le l) <-> In x l.
Proof.
  split; apply Permutation_in; [|symmetry]; apply stable_sort_perm.
Qed.

Lemma stable_sort_length l : List.length (stable_sort le l) = List.length l.
Proof. apply Permutation_length. apply stable_sort_perm. Qed.

Hypothesis le_total : forall x y, le x y = true \/ le y x = true.
Hypothesis le_trans : forall x y z, le x y = true -> le y z = true -> le x z = true.

Lemma insert_sorted_sorted x l :
  StronglySorted (fun a b => le a b = true) l ->
  StronglySorted (fun a b => le a b = true) (insert_sorted le x l).
Proof.
  induction 1 as [|y l Hs IH Hall]; simpl.
  - repeat constructor.
  - destruct (le x y) eqn:E.
    + constructor; [constructor; assumption|].
      constructor; [exact E|].
      eapply Forall_impl; [|exact Hall]. intros z Hz. eapply le_trans; eauto.
    + constructor; [exact IH|].
      assert (le y x = true) as Hyx by (destruct (le_total x y); congruence).
      rewrite Forall_forall in *. intros z Hz.
      apply (Permutation_in _ (insert_sorted_perm x l)) in Hz.
      destruct Hz as [<-|Hz]; auto.
Qed.

Lemma stable_sort_sorted l : StronglySorted (fun a b => le a b = true) (stable_sort le l).
Proof.
  induction l as [|x l IH]; simpl; [constructor|].
  apply insert_sorted_sorted. exact IH.
Qed.
End Facts.

Lemma StronglySorted_impl_local {A} (R R' : A -> A -> Prop) (l : list A) :
  StronglySorted R l -> (forall x y, R x y -> R' x y) -> StronglySorted R' l.
Proof.
  intros Hs Himp. induction Hs as [|a l Hs IH Hall]; constructor; auto.
  eapply Forall_impl; [|exact Hall]. intros y. apply Himp.
Qed.

Lemma StronglySorted_firstn_skipn {A} (R : A -> A -> Prop) (l : list A) (n : nat) x y :
  StronglySorted R l -> In x (firstn n l) -> In y (skipn n l) -> R x y.
Proof.
  intros Hs. revert n. induction Hs as [|a l Hs IH Hall]; intros n Hx Hy.
  - destruct n; destruct Hx.
  - destruct n as [|n]; simpl in *; [destruct Hx|].
    destruct Hx as [<-|Hx].
    + rewrite Forall_forall in Hall. apply Hall.
      rewrite <- (firstn_skipn n l). apply in_or_app. right. exact Hy.
    + eapply IH; eauto.
Qed.

(** The order of strings. *)

Lemma str_lt_trans a b c :
  OrdersEx.String_as_OT.compare a b = Lt -> OrdersEx.String_as_OT.compare b c = Lt ->
  OrdersEx.String_as_OT.compare a c = Lt.
Proof. exact (@StrictOrder_Transitive _ _ OrdersEx.String_as_OT.lt_strorder a b c). Qed.

Lemma str_lt_irrefl a : OrdersEx.String_as_OT.compare a a <> Lt.
Proof. exact (@StrictOrder_Irreflexive _ _ OrdersEx.String_as_OT.lt_strorder a). Qed.

Lemma str_compare_cases a b :
  (a = b /\ OrdersEx.String_as_OT.compare a b = Eq)
  \/ (OrdersEx.String_as_OT.compare a b = Lt /\ OrdersEx.String_as_OT.compare b a = Gt)
  \/ (OrdersEx.String_as_OT.compare a b = Gt /\ OrdersEx.String_as_OT.compare b a = Lt).
Proof.
  pose proof (OrdersEx.String_as_OT.compare_spec a b) as S1.
  pose proof (OrdersEx.String_as_OT.compare_spec b a) as S2.
  unfold OrdersEx.String_as_OT.eq, OrdersEx.String_as_OT.lt in *.
  destruct (OrdersEx.String_as_OT.compare a b) eqn:E1;
    destruct (OrdersEx.String_as_OT.compare b a) eqn:E2;
    inversion S1; inversion S2; subst; auto; try congruence;
    exfalso; first [ eapply str_lt_irrefl; eassumption
                   | eapply str_lt_irrefl; eapply str_lt_trans; eassumption ].
Qed.

End SortFacts.

(** ** The graph tables *)

Module GraphFacts.
Import DictFacts Spec.

Section MapValues.
Context {V W : Type} (f : string -> V -> W).

Lemma dict_get_map_values d k :
    dict_get (map_values f d) k = option_map (f k) (dict_get d k).
  Proof.
    induction d as [|[k0 v0] d IH]; simpl; [reflexivity|].
    destruct (String.eqb_spec k0 k) as [->|]; [reflexivity|exact IH].
  Qed.

Lemma dict_keys_map_values d : dict_keys (map_values f d) = dict_keys d.
  Proof.
    induction d as [|[k0 v0] d IH]; simpl; [reflexivity|]. f_equal. exact IH.
  Qed.

Lemma dict_has_map_values d k : dict_has (map_values f d) k = dict_has d k.
  Proof.
    unfold dict_has. rewrite dict_get_map_values. destruct (dict_get d k); reflexivity.
  Qed.
End MapValues.

Lemma wf_wfP G : wf G = true <-> wfP G.
Proof.
  unfold wf. rewrite !andb_true_iff, !nodupb_NoDup, !forallb_forall. split.
  - intros [[[Hn Ha] Hna] Hadj].
    assert (forall u nb, dict_get (Nx.adj G) u = Some nb ->
              dict_has (Nx.node G) u = true /\ NoDup (dict_keys nb)
              /\ forall v, dict_has nb v = true -> dict_has (Nx.node G) v = true) as Hg.
    { intros u nb Hget. apply dict_get_In in Hget. specialize (Hadj _ Hget).
      simpl in Hadj. rewrite !andb_true_iff, nodupb_NoDup, forallb_forall in Hadj.
      destruct Hadj as [[H1 H2] H3]. repeat split; auto.
      intros v Hv. apply H3. apply dict_has_In. exact Hv. }
    constructor; auto.
    + intros n. destruct (dict_has (Nx.node G) n) eqn:E.
      * apply Hna. apply dict_has_In. exact E.
      * destruct (dict_has (Nx.adj G) n) eqn:E'; [|reflexivity].
        apply dict_has_get in E' as [nb Hnb]. apply Hg in Hnb. destruct Hnb. congruence.
    + intros u nb Hget. apply Hg in Hget. tauto.
    + intros u nb v Hget. apply Hg in Hget. destruct Hget as [_ [_ H]]. apply H.
  - intros [Hn Ha Hsame Hnd Ht]. repeat split; auto.
    + intros n Hin. rewrite Hsame. apply dict_has_In. exact Hin.
    + intros [u nb] Hin. apply In_dict_get in Hin; [|exact Ha].
      rewrite !andb_true_iff, nodupb_NoDup, forallb_forall. repeat split.
      * rewrite <- Hsame. apply dict_has_get. eauto.
      * eapply Hnd. exact Hin.
      * intros v Hv. eapply Ht; [exact Hin|]. apply dict_has_In. exact Hv.
Qed.

Lemma wfP_empty : wfP Nx.empty.
Proof. apply wf_wfP. reflexivity. Qed.

Lemma succ_get G u nb : dict_get (Nx.adj G) u = Some nb -> Nx.succ G u = nb.
Proof. unfold Nx.succ. intros ->. reflexivity. Qed.

Lemma has_edge_get G u v :
  Nx.has_edge G u v = true <->
  exists nb, dict_get (Nx.adj G) u = Some nb /\ dict_has nb v = true.
Proof.
  unfold Nx.has_edge, Nx.succ. destruct (dict_get (Nx.adj G) u) as [nb|].
  - split; [eauto|]. intros [nb' [[= ->] H]]. exact H.
  - split; [discriminate|]. intros [nb' [H _]]. discriminate.
Qed.

(** Edges only join nodes of the graph. *)
Lemma wfP_has_edge G u v :
  wfP G -> Nx.has_edge G u v = true ->
  Nx.has_node G u = true /\ Nx.has_node G v = true.
Proof.
  intros W H. apply has_edge_get in H as [nb [Hget Hv]]. unfold Nx.has_node. split.
  - rewrite <- (wf_same_keys G W). apply dict_has_get. eauto.
  - eapply (wf_targets G W); eauto.
Qed.

Lemma wfP_add_node G n a : wfP G -> wfP (Nx.add_node G n a).
Proof.
  intros [Hn Ha Hsame Hnd Ht]. unfold Nx.add_node, Nx.has_node.
  destruct (dict_has (Nx.node G) n) eqn:E; constructor; simpl.
  - rewrite dict_keys_modify. exact Hn.
  - exact Ha.
  - intros m. rewrite dict_has_modify. apply Hsame.
  - exact Hnd.
  - intros u nb v H1 H2. rewrite dict_has_modify. eapply Ht; eauto.
  - apply NoDup_keys_set. exact Hn.
  - apply NoDup_keys_set. exact Ha.
  - intros m. rewrite !dict_has_set, Hsame. reflexivity.
  - intros u nb. rewrite dict_get_set. destruct (n =? u)%string.
    + intros [= <-]. constructor.
    + apply Hnd.
  - intros u nb v. rewrite dict_get_set, dict_has_set. destruct (n =? u)%string.
    + intros [= <-]. discriminate.
    + intros H1 H2. rewrite (Ht u nb v H1 H2). apply orb_true_r.
Qed.

Lemma has_node_add_node G n a m :
  Nx.has_node (Nx.add_node G n a) m = ((n =? m)%string || Nx.has_node G m).
Proof.
  unfold Nx.add_node, Nx.has_node. destruct (dict_has (Nx.node G) n) eqn:E; simpl.
  - rewrite dict_has_modify. destruct (String.eqb_spec n m) as [<-|]; [|reflexivity].
    rewrite E. reflexivity.
  - apply dict_has_set.
Qed.

Lemma wfP_with_endpoints G u v : wfP G -> wfP (with_endpoints G u v).
Proof.
  intros W. unfold with_endpoints.
  destruct (Nx.has_node G u); [|apply (wfP_add_node G u []) in W];
    match goal with |- context [if ?b then _ else _] => destruct b end;
    auto using wfP_add_node.
Qed.

Lemma has_node_with_endpoints G u v m :
  Nx.has_node (with_endpoints G u v) m
  = ((u =? m)%string || (v =? m)%string || Nx.has_node G m).
Proof.
  unfold with_endpoints.
  destruct (Nx.has_node G u) eqn:Eu;
    [|rewrite has_node_add_node];
    [destruct (Nx.has_node G v) eqn:Ev
    |destruct ((u =? v)%string || Nx.has_node G v) eqn:Ev];
    rewrite ?has_node_add_node;
    destruct (String.eqb_spec u m) as [Hum|Hum];
    destruct (String.eqb_spec v m) as [Hvm|Hvm]; subst; simpl;
    rewrite ?String.eqb_refl in *; simpl in *;
    rewrite ?Eu, ?Ev, ?orb_true_r; try reflexivity; try congruence.
  all: destruct (String.eqb_spec u m); simpl in *; congruence.
Qed.

Lemma add_edge_unfold G u v a :
  Nx.add_edge G u v a
  = let G2 := with_endpoints G u v in
    Nx.mkDiGraph (Nx.node G2)
      (dict_set (Nx.adj G2) u
         (dict_set (Nx.succ G2 u) v
            (dict_update (match Nx.edge_data G2 u v with Some d => d | None => [] end) a))).
Proof. reflexivity. Qed.

Lemma wfP_add_edge G u v a : wfP G -> wfP (Nx.add_edge G u v a).
Proof.
  intros W. rewrite add_edge_unfold. cbv zeta.
  pose proof (wfP_with_endpoints G u v W) as W2.
  pose proof (has_node_with_endpoints G u v u) as Hu.
  pose proof (has_node_with_endpoints G u v v) as Hv.
  rewrite String.eqb_refl in Hu, Hv. rewrite orb_true_r in Hv. simpl in Hu, Hv.
  set (G2 := with_endpoints G u v) in *.
  destruct W2 as [Hn Ha Hsame Hnd Ht]. unfold Nx.has_node in *.
  assert (dict_has (Nx.adj G2) u = true) as Hau by (rewrite Hsame; exact Hu).
  constructor; simpl.
  - exact Hn.
  - apply NoDup_keys_set. exact Ha.
  - intros m. rewrite dict_has_set, Hsame.
    destruct (String.eqb_spec u m) as [<-|]; [rewrite Hu|]; reflexivity.
  - intros x nb. rewrite dict_get_set. destruct (String.eqb_spec u x) as [<-|].
    + intros [= <-]. apply NoDup_keys_set. unfold Nx.succ.
      destruct (dict_get (Nx.adj G2) u) eqn:E; [eapply Hnd; eauto|constructor].
    + apply Hnd.
  - intros x nb y. rewrite dict_get_set. destruct (String.eqb_spec u x) as [<-|].
    + intros [= <-]. rewrite dict_has_set.
      destruct (String.eqb_spec v y) as [<-|]; simpl; [intros _; exact Hv|].
      unfold Nx.succ. destruct (dict_get (Nx.adj G2) u) eqn:E; [|discriminate].
      eapply Ht; eauto.
    + apply Ht.
Qed.

Lemma wfP_remove_node G n : wfP G -> wfP (Nx.remove_node G n).
Proof.
  intros W. unfold Nx.remove_node. destruct (Nx.has_node G n) eqn:E; [|exact W].
  destruct W as [Hn Ha Hsame Hnd Ht].
  change (map (fun '(u, nb) => (u, dict_del nb n)) (dict_del (Nx.adj G) n))
    with (map_values (fun (_ : string) (nb : dict Nx.attrs) => dict_del nb n)
            (dict_del (Nx.adj G) n)).
  constructor; simpl.
  - apply NoDup_keys_del. exact Hn.
  - rewrite dict_keys_map_values. apply NoDup_keys_del. exact Ha.
  - intros m. rewrite dict_has_map_values, !dict_has_del, Hsame. reflexivity.
  - intros u nb. rewrite dict_get_map_values, dict_get_del.
    destruct (n =? u)%string; [discriminate|].
    destruct (dict_get (Nx.adj G) u) as [nb0|] eqn:E0; [|discriminate].
    intros [= <-]. apply NoDup_keys_del. eapply Hnd; eauto.
  - intros u nb v. rewrite dict_get_map_values, dict_get_del.
    destruct (n =? u)%string; [discriminate|].
    destruct (dict_get (Nx.adj G) u) as [nb0|] eqn:E0; [|discriminate].
    intros [= <-]. rewrite !dict_has_del. rewrite andb_true_iff.
    intros [H1 H2]. rewrite H1. simpl. eapply Ht; eauto.
Qed.

Lemma wfP_remove_nodes_from G ns : wfP G -> wfP (Nx.remove_nodes_from G ns).
Proof.
  unfold Nx.remove_nodes_from. revert G.
  induction ns as [|n ns IH]; simpl; intros G W; [exact W|].
  apply IH. apply wfP_remove_node. exact W.
Qed.

Lemma wfP_remove_edge G u v :
  wfP G -> Nx.has_edge G u v = true ->
  wfP (Nx.mkDiGraph (Nx.node G) (dict_set (Nx.adj G) u (dict_del (Nx.succ G u) v))).
Proof.
  intros [Hn Ha Hsame Hnd Ht] He.
  apply has_edge_get in He as [nb0 [E0 _]].
  rewrite (succ_get _ _ _ E0).
  constructor; simpl.
  - exact Hn.
  - apply NoDup_keys_set. exact Ha.
  - intros m. rewrite dict_has_set, <- Hsame.
    destruct (String.eqb_spec u m) as [<-|]; [|reflexivity].
    simpl. symmetry. apply dict_has_get. eauto.
  - intros x nb. rewrite dict_get_set. destruct (String.eqb_spec u x) as [<-|].
    + intros [= <-]. apply NoDup_keys_del. eapply Hnd; eauto.
    + apply Hnd.
  - intros x nb y. rewrite dict_get_set. destruct (String.eqb_spec u x) as [<-|].
    + intros [= <-]. rewrite dict_has_del, andb_true_iff.
      intros [_ H]. eapply Ht; eauto.
    + apply Ht.
Qed.

Lemma remove_edges_from_fold G es :
  Nx.remove_edges_from G es = fold_left remove_edge_step es G.
Proof. reflexivity. Qed.

Lemma wfP_remove_edges_from G es : wfP G -> wfP (Nx.remove_edges_from G es).
Proof.
  rewrite remove_edges_from_fold. revert G.
  induction es as [|[u v] es IH]; simpl; intros G W; [exact W|].
  apply IH. destruct (Nx.has_edge G u v) eqn:E; [|exact W].
  apply wfP_remove_edge; assumption.
Qed.

Lemma node_remove_edges_from G es : Nx.node (Nx.remove_edges_from G es) = Nx.node G.
Proof.
  rewrite remove_edges_from_fold. revert G.
  induction es as [|[u v] es IH]; simpl; intros G; [reflexivity|].
  rewrite IH. destruct (Nx.has_edge G u v); reflexivity.
Qed.

Lemma edge_eqb_eq e1 e2 : edge_eqb e1 e2 = true <-> e1 = e2.
Proof.
  destruct e1, e2. unfold edge_eqb. simpl.
  rewrite andb_true_iff, !String.eqb_eq. split; [intros [-> ->]|intros [= -> ->]]; auto.
Qed.

Lemma edge_data_remove_edge_step G e x y :
  Nx.edge_data (remove_edge_step G e) x y
  = if edge_eqb e (x, y) then None else Nx.edge_data G x y.
Proof.
  destruct e as [u v]. unfold remove_edge_step, edge_eqb. simpl.
  destruct (Nx.has_edge G u v) eqn:E.
  - unfold Nx.edge_data, Nx.succ at 1. simpl. rewrite dict_get_set.
    destruct (String.eqb_spec u x) as [<-|]; simpl; [|reflexivity].
    rewrite dict_get_del. reflexivity.
  - destruct (String.eqb_spec u x) as [<-|]; simpl; [|reflexivity].
    destruct (String.eqb_spec v y) as [<-|]; simpl; [|reflexivity].
    unfold Nx.has_edge, dict_has in E. unfold Nx.edge_data.
    destruct (dict_get (Nx.succ G u) v); [discriminate|reflexivity].
Qed.

(** What is left of an edge after [remove_edges_from]. *)
Lemma edge_data_remove_edges_from G es x y :
  Nx.edge_data (Nx.remove_edges_from G es) x y
  = if existsb (fun e => edge_eqb e (x, y)) es then None else Nx.edge_data G x y.
Proof.
  rewrite remove_edges_from_fold. revert G.
  induction es as [|e es IH]; simpl; intros G; [reflexivity|].
  rewrite IH, edge_data_remove_edge_step.
  destruct (edge_eqb e (x, y)); simpl; [|reflexivity].
  destruct (existsb _ es); reflexivity.
Qed.

Lemma In_edges_nowf G u v d : Nx.edge_data G u v = Some d -> In (u, v, d) (Nx.edges G).
Proof.
  unfold Nx.edge_data, Nx.succ, Nx.edges. intros H.
  destruct (dict_get (Nx.adj G) u) as [nb|] eqn:E; [|discriminate].
  apply in_flat_map. exists (u, nb). split; [apply dict_get_In; exact E|].
  apply in_map_iff. exists (v, d). split; [reflexivity|apply dict_get_In; exact H].
Qed.

Lemma wfP_with_graph_modify G u v f :
  wfP G ->
  wfP (Nx.mkDiGraph (Nx.node G)
         (dict_modify (Nx.adj G) u (fun nb => dict_modify nb v f))).
Proof.
  intros [Hn Ha Hsame Hnd Ht]. constructor; simpl.
  - exact Hn.
  - rewrite dict_keys_modify. exact Ha.
  - intros m. rewrite dict_has_modify. apply Hsame.
  - intros x nb. rewrite dict_get_modify. destruct (String.eqb_spec u x) as [<-|].
    + destruct (dict_get (Nx.adj G) u) as [nb0|] eqn:E0; [|discriminate].
      intros [= <-]. rewrite dict_keys_modify. eapply Hnd; eauto.
    + apply Hnd.
  - intros x nb y. rewrite dict_get_modify. destruct (String.eqb_spec u x) as [<-|].
    + destruct (dict_get (Nx.adj G) u) as [nb0|] eqn:E0; [|discriminate].
      intros [= <-]. rewrite dict_has_modify. eapply Ht; eauto.
    + apply Ht.
Qed.

Lemma wfP_map_edges G (f : string -> string -> Nx.attrs -> Nx.attrs) :
  wfP G ->
  wfP (Nx.mkDiGraph (Nx.node G)
         (map_values (fun u nb => map_values (f u) nb) (Nx.adj G))).
Proof.
  intros [Hn Ha Hsame Hnd Ht]. constructor; simpl.
  - exact Hn.
  - rewrite dict_keys_map_values. exact Ha.
  - intros m. rewrite dict_has_map_values. apply Hsame.
  - intros x nb. rewrite dict_get_map_values.
    destruct (dict_get (Nx.adj G) x) as [nb0|] eqn:E0; [|discriminate].
    intros [= <-]. rewrite dict_keys_map_values. eapply Hnd; eauto.
  - intros x nb y. rewrite dict_get_map_values.
    destruct (dict_get (Nx.adj G) x) as [nb0|] eqn:E0; [|discriminate].
    intros [= <-]. rewrite dict_has_map_values. eapply Ht; eauto.
Qed.

Lemma dict_get_node_add_node G n a m :
  dict_get (Nx.node (Nx.add_node G n a)) m
  = if (n =? m)%string
    then Some (dict_update (match dict_get (Nx.node G) n with
                            | Some d => d | None => [] end) a)
    else dict_get (Nx.node G) m.
Proof.
  unfold Nx.add_node, Nx.has_node, dict_has.
  destruct (dict_get (Nx.node G) n) as [d|] eqn:E; simpl.
  - rewrite dict_get_modify, E. reflexivity.
  - rewrite dict_get_set. reflexivity.
Qed.

Lemma succ_add_node G n a m : wfP G -> Nx.succ (Nx.add_node G n a) m = Nx.succ G m.
Proof.
  intros W. unfold Nx.add_node, Nx.has_node.
  destruct (dict_has (Nx.node G) n) eqn:E; [reflexivity|].
  unfold Nx.succ. simpl. rewrite dict_get_set.
  destruct (String.eqb_spec n m) as [<-|]; [|reflexivity].
  rewrite <- (wf_same_keys G W) in E. unfold dict_has in E.
  destruct (dict_get (Nx.adj G) n); [discriminate|reflexivity].
Qed.

Lemma succ_with_endpoints G u v m :
  wfP G -> Nx.succ (with_endpoints G u v) m = Nx.succ G m.
Proof.
  intros W. unfold with_endpoints.
  destruct (Nx.has_node G u).
  - destruct (Nx.has_node G v); [reflexivity|apply succ_add_node; exact W].
  - match goal with |- context [if ?b then _ else _] => destruct b end.
    + apply succ_add_node; exact W.
    + rewrite succ_add_node by (apply wfP_add_node; exact W).
      apply succ_add_node; exact W.
Qed.

(** A node that [add_edge] finds keeps its attributes; an endpoint it does
    not find is created with none. *)
Lemma dict_get_node_with_endpoints G u v m :
  dict_get (Nx.node (with_endpoints G u v)) m
  = if Nx.has_node G m then dict_get (Nx.node G) m
    else if (u =? m)%string || (v =? m)%string then Some [] else None.
Proof.
  assert (forall H n x,
            dict_get (Nx.node (if Nx.has_node H n then H else Nx.add_node H n [])) x
            = if Nx.has_node H x then dict_get (Nx.node H) x
              else if (n =? x)%string then Some [] else None) as Hone.
  { intros H n x. unfold Nx.has_node at 1.
    destruct (dict_has (Nx.node H) n) eqn:En.
    - unfold Nx.has_node, dict_has in *.
      destruct (dict_get (Nx.node H) x) eqn:Ex; [reflexivity|].
      destruct (String.eqb_spec n x) as [->|]; [|reflexivity].
      rewrite Ex in En. discriminate.
    - rewrite dict_get_node_add_node. unfold Nx.has_node, dict_has in *.
      destruct (String.eqb_spec n x) as [->|].
      + destruct (dict_get (Nx.node H) x); [discriminate|reflexivity].
      + destruct (dict_get (Nx.node H) x); reflexivity. }
  unfold with_endpoints.
  set (G1 := if Nx.has_node G u then G else Nx.add_node G u []).
  rewrite Hone. unfold G1 at 2. rewrite Hone.
  assert (Nx.has_node G1 m = ((u =? m)%string || Nx.has_node G m)) as H1.
  { unfold G1. destruct (Nx.has_node G u) eqn:Eu.
    - destruct (String.eqb_spec u m) as [<-|]; [rewrite Eu|]; reflexivity.
    - apply has_node_add_node. }
  rewrite H1.
  destruct (Nx.has_node G m), (u =? m)%string, (v =? m)%string; reflexivity.
Qed.

Lemma edge_data_add_edge G u v a x y :
  wfP G ->
  Nx.edge_data (Nx.add_edge G u v a) x y
  = if edge_eqb (u, v) (x, y)
    then Some (dict_update (match Nx.edge_data G u v with
                            | Some d => d | None => [] end) a)
    else Nx.edge_data G x y.
Proof.
  intros W. rewrite add_edge_unfold. cbv zeta.
  unfold Nx.edge_data, Nx.succ at 1, edge_eqb. simpl.
  rewrite dict_get_set. rewrite !succ_with_endpoints by exact W.
  destruct (String.eqb_spec u x) as [<-|]; simpl.
  - rewrite dict_get_set. destruct (v =? y)%string; reflexivity.
  - fold (Nx.succ (with_endpoints G u v) x). rewrite succ_with_endpoints by exact W.
    reflexivity.
Qed.

End GraphFacts.

(** ** Invariants of the temporal graph *)

Module TemporalGraphFacts.
Import DictFacts GraphFacts Spec TemporalGraph.

Lemma slice_to_num_to_remove {A} (self : t) (l : list A) :
  slice_to l (num_to_remove self) = firstn (Z.to_nat (num_to_remove self)) l.
Proof.
  unfold slice_to, num_to_remove.
  destruct (Z.leb_spec 0 (Z.max 1 (Z.quot (max_nodes self) 10))); [reflexivity|lia].
Qed.

(** How [_prune_old_nodes] ends: it removes the nodes of [pruned] when the
    keys can be compared, and raises [TypeError] otherwise. *)
Lemma prune_cases self :
  _prune_old_nodes self
  = if comparable (timestamped_nodes (graph self))
    then returns (with_graph self (Nx.remove_nodes_from (graph self) (pruned self)))
    else raises self "TypeError".
Proof.
  unfold _prune_old_nodes, pruned.
  destruct (timestamped_nodes (graph self)) as [|x l] eqn:E.
  - simpl. rewrite firstn_nil. destruct self; reflexivity.
  - destruct (comparable (x :: l)); [|reflexivity].
    rewrite slice_to_num_to_remove. reflexivity.
Qed.

Lemma wfP_prune self : wfP (graph self) -> wfP (graph (after (_prune_old_nodes self))).
Proof.
  intros W. rewrite prune_cases.
  destruct (comparable (timestamped_nodes (graph self))); simpl; [|exact W].
  apply wfP_remove_nodes_from. exact W.
Qed.

(** How [add_activity_node] ends. *)
Lemma add_activity_node_cases self id ty ts a :
  add_activity_node self id ty ts a
  = if clashes a activity_keywords then raises self "TypeError"
    else if Nx.number_of_nodes (graph (activity_put self id ty ts a)) >? max_nodes self
         then _prune_old_nodes (activity_put self id ty ts a)
         else returns (activity_put self id ty ts a).
Proof. reflexivity. Qed.

Lemma wfP_activity_put self id ty ts a :
  wfP (graph self) -> wfP (graph (activity_put self id ty ts a)).
Proof. intros W. simpl. apply wfP_add_node. exact W. Qed.

Lemma wfP_add_activity_node self id ty ts a :
  wfP (graph self) -> wfP (graph (after (add_activity_node self id ty ts a))).
Proof.
  intros W. rewrite add_activity_node_cases.
  destruct (clashes a activity_keywords); [exact W|].
  match goal with |- context [if ?b then _ else _] => destruct b end.
  - apply wfP_prune. apply wfP_activity_put. exact W.
  - apply wfP_activity_put. exact W.
Qed.

(** How [add_context_node] ends. *)
Lemma add_context_node_cases self now id name a :
  add_context_node self now id name a
  = if clashes a context_keywords then raises self "TypeError"
    else returns (context_put self now id name a).
Proof. reflexivity. Qed.

Lemma wfP_add_context_node self now id name a :
  wfP (graph self) -> wfP (graph (after (add_context_node self now id name a))).
Proof.
  intros W. rewrite add_context_node_cases.
  destruct (clashes a context_keywords); [exact W|].
  simpl. apply wfP_add_node. exact W.
Qed.

(** How [add_temporal_edge] ends. *)
Lemma add_temporal_edge_cases self now u v rel s a :
  add_temporal_edge self now u v rel s a
  = if edge_accepted (graph self) u v a
    then returns (edge_put self now u v rel s a)
    else raises self "TypeError".
Proof.
  unfold add_temporal_edge, edge_accepted, edge_put.
  change ["self"; "from_node"; "to_node"; "relationship"; "strength"]
    with edge_parameters.
  change ["u_of_edge"; "v_of_edge"; "created_at"; "last_updated"]
    with new_edge_keywords.
  destruct (clashes a edge_parameters); [reflexivity|].
  destruct (Nx.has_edge (graph self) u v); [reflexivity|].
  destruct (clashes a new_edge_keywords); reflexivity.
Qed.

Lemma wfP_edge_put self now u v rel s a :
  wfP (graph self) -> wfP (graph (edge_put self now u v rel s a)).
Proof.
  intros W. unfold edge_put.
  destruct (Nx.has_edge (graph self) u v); simpl.
  - apply wfP_with_graph_modify. exact W.
  - apply wfP_add_edge. exact W.
Qed.

Lemma wfP_add_temporal_edge self now u v rel s a :
  wfP (graph self) -> wfP (graph (after (add_temporal_edge self now u v rel s a))).
Proof.
  intros W. rewrite add_temporal_edge_cases.
  destruct (edge_accepted (graph self) u v a); [|exact W].
  apply wfP_edge_put. exact W.
Qed.

Lemma decay_edges_unfold self rate :
  decay_edges self rate
  = let G1 := decay_map (graph self) (effective_rate self rate) in
    with_graph self (Nx.remove_edges_from G1 (weak_edges G1)).
Proof. reflexivity. Qed.

Lemma wfP_decay_edges self rate :
  wfP (graph self) -> wfP (graph (decay_edges self rate)).
Proof.
  intros W. rewrite decay_edges_unfold. simpl.
  apply wfP_remove_edges_from. apply wfP_map_edges. exact W.
Qed.

(** Every state of the object holds a well-formed graph. *)
Lemma reachable_wfP self : reachable self -> wfP (graph self).
Proof.
  induction 1.
  - apply wfP_empty.
  - apply wfP_add_activity_node. assumption.
  - apply wfP_add_context_node. assumption.
  - apply wfP_add_temporal_edge. assumption.
  - apply wfP_decay_edges. assumption.
Qed.

Lemma In_edges G u v d :
  In (u, v, d) (Nx.edges G) <-> exists nb, In (u, nb) (Nx.adj G) /\ In (v, d) nb.
Proof.
  unfold Nx.edges. rewrite in_flat_map. split.
  - intros [[u' nb] [Hin H]]. apply in_map_iff in H as [[v' d'] [[= -> -> ->] H]]. eauto.
  - intros [nb [H1 H2]]. exists (u, nb). split; [exact H1|].
    apply in_map_iff. exists (v, d). auto.
Qed.

Lemma In_edges_edge_data G u v d :
  wfP G -> (In (u, v, d) (Nx.edges G) <-> Nx.edge_data G u v = Some d).
Proof.
  intros W. rewrite In_edges. unfold Nx.edge_data, Nx.succ. split.
  - intros [nb [H1 H2]]. apply In_dict_get in H1; [|apply W]. rewrite H1.
    apply In_dict_get; [|exact H2]. eapply wf_nodup_succ; eauto.
  - destruct (dict_get (Nx.adj G) u) as [nb|] eqn:E; [|discriminate].
    intros H. exists nb. split; apply dict_get_In; assumption.
Qed.

Lemma edge_data_decay_map G r u v :
  Nx.edge_data (decay_map G r) u v = option_map (decayed r) (Nx.edge_data G u v).
Proof.
  unfold Nx.edge_data, Nx.succ, decay_map. simpl. rewrite dict_get_map_values.
  destruct (dict_get (Nx.adj G) u) as [nb|]; simpl; [|reflexivity].
  apply (dict_get_map_values (fun _ : string => decayed r)).
Qed.

Lemma weak_edges_spec G x y :
  wfP G ->
  existsb (fun e => edge_eqb e (x, y)) (weak_edges G)
  = match Nx.edge_data G x y with
    | Some d => Qltb (get_strength d 0%Q) (1 # 10)%Q
    | None => false
    end.
Proof.
  intros W.
  match goal with |- ?l = ?r => destruct l eqn:El; destruct r eqn:Er; try reflexivity end.
  - apply existsb_exists in El as [e [Hin He]]. apply edge_eqb_eq in He. subst e.
    unfold weak_edges in Hin. apply in_flat_map in Hin as [[[u v] d] [Hin H]].
    destruct (Qltb (get_strength d 0%Q) (1 # 10)%Q) eqn:Ew; [|destruct H].
    destruct H as [[= -> ->]|[]].
    apply In_edges_edge_data in Hin; [|exact W]. rewrite Hin in Er. congruence.
  - destruct (Nx.edge_data G x y) as [d|] eqn:Ed; [|discriminate].
    assert (existsb (fun e => edge_eqb e (x, y)) (weak_edges G) = true) as H; [|congruence].
    apply existsb_exists. exists (x, y). split; [|apply edge_eqb_eq; reflexivity].
    unfold weak_edges. apply in_flat_map. exists (x, y, d). split.
    + apply In_edges_edge_data; assumption.
    + rewrite Er. left. reflexivity.
Qed.

Lemma get_strength_set d q default :
  get_strength (dict_set d "strength" (PFloat q)) default = q.
Proof. unfold get_strength. rewrite dict_get_set_eq. reflexivity. Qed.

(** What [decay_edges] leaves of each edge, for the rate it works with. *)
Lemma edge_data_decay_edges self rate u v :
  wfP (graph self) ->
  Nx.edge_data (graph (decay_edges self rate)) u v
  = match Nx.edge_data (graph self) u v with
    | Some d =>
        if Qltb (get_strength d 1 * effective_rate self rate)%Q (1 # 10)%Q then None
        else Some (decayed (effective_rate self rate) d)
    | None => None
    end.
Proof.
  intros W. rewrite decay_edges_unfold. cbv zeta. simpl.
  rewrite edge_data_remove_edges_from, weak_edges_spec
    by (apply wfP_map_edges; exact W).
  rewrite edge_data_decay_map.
  destruct (Nx.edge_data (graph self) u v) as [d|]; simpl; [|reflexivity].
  unfold decayed at 1. rewrite get_strength_set. reflexivity.
Qed.

Lemma node_decay_edges self rate :
  Nx.node (graph (decay_edges self rate)) = Nx.node (graph self).
Proof. rewrite decay_edges_unfold. simpl. rewrite node_remove_edges_from. reflexivity. Qed.

End TemporalGraphFacts.

(* ================================================================== *)
(** * Decay *)
(* ================================================================== *)

Module Decay.
Import DictFacts GraphFacts TemporalGraphFacts Spec TemporalGraph.

Lemma Qltb_lt a b : Qltb a b = true <-> (a < b)%Q.
Proof.
  unfold Qltb. rewrite negb_true_iff. split.
  - intros H. apply Qnot_le_lt. intros Hle. apply Qle_bool_iff in Hle. congruence.
  - intros H. destruct (Qle_bool b a) eqn:E; [|reflexivity].
    apply Qle_bool_iff in E. exfalso. apply (Qlt_not_le _ _ H E).
Qed.

Lemma effective_rate_nonzero self r :
  ~ (r == 0)%Q -> effective_rate self (Some r) = r.
Proof.
  intros H. unfold effective_rate. simpl.
  destruct (Z.eqb_spec (Qnum r) 0) as [E|E]; [|reflexivity].
  exfalso. apply H. unfold Qeq. simpl. rewrite E. reflexivity.
Qed.

Lemma effective_rate_zero self z :
  (z == 0)%Q -> effective_rate self (Some z) = effective_rate self None.
Proof.
  intros H. unfold effective_rate. simpl.
  destruct (Z.eqb_spec (Qnum z) 0) as [E|E]; [reflexivity|].
  exfalso. apply E. unfold Qeq in H. simpl in H. lia.
Qed.

(** C3.  For a rate [r] in (0,1), [decay_edges(r)] leaves the nodes and the
    object's settings as they are and treats every edge on its own: an edge
    of strength [s] whose product [s*r] is below 0.1 is removed; any other
    edge stays with its strength set to exactly [s*r] and all its other
    attributes unchanged; no edge appears. *)
Theorem decay_edges_scales_and_drops (self : t) (r : Q) :
  wf (graph self) = true -> (0 < r)%Q -> (r < 1)%Q ->
  let self' := decay_edges self (Some r) in
  Nx.node (graph self') = Nx.node (graph self)
  /\ max_nodes self' = max_nodes self
  /\ decay_factor self' = decay_factor self
  /\ (forall u v,
        Nx.edge_data (graph self') u v
        = match Nx.edge_data (graph self) u v with
          | Some d =>
              if Qltb (get_strength d 1 * r)%Q (1 # 10)%Q then None
              else Some (dict_set d "strength" (PFloat (get_strength d 1 * r)%Q))
          | None => None
          end)
  /\ (forall u v d',
        Nx.edge_data (graph self') u v = Some d' ->
        exists d, Nx.edge_data (graph self) u v = Some d
                  /\ get_strength d' 0 = (get_strength d 1 * r)%Q
                  /\ ~ (get_strength d' 0 < 1 # 10)%Q
                  /\ forall k, k <> "strength" -> dict_get d' k = dict_get d k).
Proof.
  intros W H0 H1 self'. apply wf_wfP in W.
  assert (effective_rate self (Some r) = r) as Hr.
  { apply effective_rate_nonzero. intros E. rewrite E in H0. discriminate. }
  assert (forall u v,
        Nx.edge_data (graph self') u v
        = match Nx.edge_data (graph self) u v with
          | Some d =>
              if Qltb (get_strength d 1 * r)%Q (1 # 10)%Q then None
              else Some (dict_set d "strength" (PFloat (get_strength d 1 * r)%Q))
          | None => None
          end) as Hedge.
  { intros u v. unfold self'. rewrite edge_data_decay_edges by exact W.
    rewrite Hr. reflexivity. }
  repeat split.
  - apply node_decay_edges.
  - exact Hedge.
  - intros u v d' Hd'. rewrite Hedge in Hd'.
    destruct (Nx.edge_data (graph self) u v) as [d|]; [|discriminate].
    destruct (Qltb (get_strength d 1 * r)%Q (1 # 10)%Q) eqn:Ew; [discriminate|].
    injection Hd' as <-. exists d. rewrite get_strength_set. repeat split.
    + intros Hlt. apply Qltb_lt in Hlt. congruence.
    + intros k Hk. apply dict_get_set_ne. congruence.
Qed.

Lemma decay_edges_scales_and_drops_witness :
  wf (graph Examples.chain) = true /\ (0 < 3 # 20)%Q /\ (3 # 20 < 1)%Q
  /\ Nx.edge_data (graph (decay_edges Examples.chain (Some (3 # 20)))) "a2" "a3" = None
  /\ exists d', Nx.edge_data (graph (decay_edges Examples.chain (Some (3 # 20)))) "a1" "a2"
                = Some d'
                /\ (get_strength d' 0 == 12 # 100)%Q.
Proof.
  assert (wf (graph Examples.chain) = true) as W by reflexivity.
  assert (0 < 3 # 20)%Q as H0 by reflexivity.
  assert (3 # 20 < 1)%Q as H1 by reflexivity.
  destruct (decay_edges_scales_and_drops Examples.chain (3 # 20) W H0 H1)
    as [_ [_ [_ [He _]]]].
  split; [exact W|]. split; [exact H0|]. split; [exact H1|]. split.
  - rewrite He. reflexivity.
  - eexists. split; [rewrite He; reflexivity|]. reflexivity.
Defined.

(** C10.  An explicit rate of zero is replaced by the configured decay
    factor: the call does what the call without a rate does, so every edge
    of strength [s] ends with strength [s * decay_factor], or is removed
    when that product is below 0.1; strengths are not set to zero. *)
Theorem decay_edges_zero_rate_is_default (self : t) (z : Q) :
  wf (graph self) = true -> (z == 0)%Q ->
  decay_edges self (Some z) = decay_edges self None
  /\ forall u v,
       Nx.edge_data (graph (decay_edges self (Some z))) u v
       = match Nx.edge_data (graph self) u v with
         | Some d =>
             if Qltb (get_strength d 1 * decay_factor self)%Q (1 # 10)%Q then None
             else Some (dict_set d "strength"
                          (PFloat (get_strength d 1 * decay_factor self)%Q))
         | None => None
         end.
Proof.
  intros W Hz. apply wf_wfP in W.
  pose proof (effective_rate_zero self z Hz) as Hr. split.
  - rewrite !decay_edges_unfold, Hr. reflexivity.
  - intros u v. rewrite edge_data_decay_edges by exact W. rewrite Hr. reflexivity.
Qed.

Lemma decay_edges_zero_rate_is_default_witness :
  wf (graph Examples.chain) = true /\ (0 # 1 == 0)%Q
  /\ decay_edges Examples.chain (Some (0 # 1)) = decay_edges Examples.chain None
  /\ exists d', Nx.edge_data (graph (decay_edges Examples.chain (Some (0 # 1)))) "a1" "a2"
                = Some d'
                /\ (get_strength d' 0 == 76 # 100)%Q.
Proof.
  assert (wf (graph Examples.chain) = true) as W by reflexivity.
  assert (0 # 1 == 0)%Q as Hz by reflexivity.
  destruct (decay_edges_zero_rate_is_default Examples.chain (0 # 1) W Hz) as [Heq He].
  split; [exact W|]. split; [exact Hz|]. split.
  - exact Heq.
  - eexists. split; [rewrite He; reflexivity|]. reflexivity.
Defined.

End Decay.

(* ================================================================== *)
(** * Edge upsert *)
(* ================================================================== *)

Module EdgeUpsert.
Import DictFacts GraphFacts TemporalGraphFacts Spec TemporalGraph.

Lemma dict_get_update_other {V} (d kvs : dict V) k :
  dict_has kvs k = false -> dict_get (dict_update d kvs) k = dict_get d k.
Proof.
  unfold dict_update. revert d.
  induction kvs as [|[k0 v0] kvs IH]; simpl; intros d H; [reflexivity|].
  unfold dict_has in H. simpl in H.
  destruct (String.eqb_spec k0 k) as [->|Hne]; [discriminate|].
  rewrite IH by exact H. apply dict_get_set_ne. exact Hne.
Qed.

(** [d.update(kvs)], key by key: the value of [kvs] where it has the key,
    the value of [d] elsewhere. *)
Lemma dict_get_update {V} (d kvs : dict V) k :
  NoDup (dict_keys kvs) ->
  dict_get (dict_update d kvs) k
  = match dict_get kvs k with Some v => Some v | None => dict_get d k end.
Proof.
  unfold dict_update. revert d.
  induction kvs as [|[k0 v0] kvs IH]; simpl; intros d Hnd; [reflexivity|].
  inversion Hnd as [|? ? Hnot Hnd']; subst.
  rewrite IH by exact Hnd'.
  destruct (String.eqb_spec k0 k) as [->|Hne].
  - apply dict_has_false in Hnot. unfold dict_has in Hnot.
    destruct (dict_get kvs k); [discriminate|]. apply dict_get_set_eq.
  - destruct (dict_get kvs k); [reflexivity|]. apply dict_get_set_ne. exact Hne.
Qed.

(** Attributes without a clash hold none of the names. *)
Lemma clashes_false a names k :
  clashes a names = false -> In k names -> dict_has a k = false.
Proof.
  unfold clashes. intros H Hin.
  destruct (dict_has a k) eqn:E; [|reflexivity].
  rewrite (proj2 (existsb_exists (dict_has a) names)) in H; [discriminate|eauto].
Qed.

Lemma get_strength_upserted now s a d :
  dict_has a "strength" = false ->
  get_strength (upserted now s a d) 0 = cap1 (get_strength d 0 + s)%Q.
Proof.
  intros H. unfold upserted, get_strength.
  rewrite dict_get_update_other by exact H.
  rewrite dict_get_set_ne by discriminate. rewrite dict_get_set_eq. reflexivity.
Qed.

Lemma cap1_le a : (cap1 a <= 1)%Q.
Proof. unfold cap1. apply Q.le_min_l. Qed.

Lemma edge_data_edge_put self now u v rel s a x y :
  wfP (graph self) ->
  Nx.edge_data (graph (edge_put self now u v rel s a)) x y
  = if edge_eqb (u, v) (x, y)
    then match Nx.edge_data (graph self) u v with
         | Some d => Some (upserted now s a d)
         | None => Some (created now rel s a)
         end
    else Nx.edge_data (graph self) x y.
Proof.
  intros W. unfold edge_put, created.
  destruct (Nx.has_edge (graph self) u v) eqn:E; simpl.
  - unfold Nx.has_edge, dict_has in E. unfold Nx.edge_data at 2.
    destruct (dict_get (Nx.succ (graph self) u) v) as [d|] eqn:Ed; [|discriminate].
    unfold Nx.edge_data, Nx.succ at 1, edge_eqb. simpl. rewrite dict_get_modify.
    destruct (String.eqb_spec u x) as [<-|]; simpl; [|reflexivity].
    unfold Nx.succ in Ed |- *.
    destruct (dict_get (Nx.adj (graph self)) u) as [nb|]; [|discriminate]. simpl.
    rewrite dict_get_modify. destruct (v =? y)%string; [|reflexivity].
    rewrite Ed. reflexivity.
  - rewrite edge_data_add_edge by exact W.
    unfold Nx.has_edge, dict_has in E. unfold Nx.edge_data at 1 3.
    destruct (dict_get (Nx.succ (graph self) u) v); [discriminate|reflexivity].
Qed.

(** The edges after a call of [add_temporal_edge], accepted or not. *)
Lemma edge_data_add_temporal_edge self now u v rel s a x y :
  wfP (graph self) ->
  Nx.edge_data (graph (after (add_temporal_edge self now u v rel s a))) x y
  = if edge_accepted (graph self) u v a && edge_eqb (u, v) (x, y)
    then match Nx.edge_data (graph self) u v with
         | Some d => Some (upserted now s a d)
         | None => Some (created now rel s a)
         end
    else Nx.edge_data (graph self) x y.
Proof.
  intros W. rewrite add_temporal_edge_cases.
  destruct (edge_accepted (graph self) u v a); simpl; [|reflexivity].
  apply edge_data_edge_put. exact W.
Qed.

Lemma count_key {V} (d : dict V) k :
  NoDup (dict_keys d) ->
  List.length (filter (fun kv => (fst kv =? k)%string) d)
  = if dict_has d k then 1%nat else 0%nat.
Proof.
  unfold dict_has. induction d as [|[k0 v0] d IH]; simpl; intros Hnd; [reflexivity|].
  inversion Hnd as [|? ? Hnot Hnd']; subst.
  destruct (String.eqb_spec k0 k) as [->|Hne]; simpl.
  - rewrite IH by exact Hnd'.
    destruct (dict_get d k) eqn:E; [|reflexivity].
    exfalso. apply Hnot. apply dict_has_In. unfold dict_has. rewrite E. reflexivity.
  - apply IH. exact Hnd'.
Qed.

Lemma edge_count_adj (adj : dict (dict Nx.attrs)) u v :
  NoDup (dict_keys adj) ->
  (forall x nb, In (x, nb) adj -> NoDup (dict_keys nb)) ->
  List.length
    (filter (fun '(x, y, _) => (x =? u)%string && (y =? v)%string)
       (flat_map (fun '(x, nb) => map (fun '(y, d) => (x, y, d)) nb) adj))
  = match dict_get adj u with
    | Some nb => if dict_has nb v then 1%nat else 0%nat
    | None => 0%nat
    end.
Proof.
  induction adj as [|[x nb] adj IH]; simpl; intros Hnd Hnb; [reflexivity|].
  inversion Hnd as [|? ? Hnot Hnd']; subst.
  rewrite filter_app, length_app, IH; [|exact Hnd'|intros; eapply Hnb; right; eauto].
  assert (filter (fun '(x0, y, _) => (x0 =? u)%string && (y =? v)%string)
            (map (fun '(y, d) => (x, y, d)) nb)
          = if (x =? u)%string
            then map (fun '(y, d) => (x, y, d)) (filter (fun kv => (fst kv =? v)%string) nb)
            else []) as Hf.
  { clear. induction nb as [|[y d] nb IH]; simpl.
    - destruct (x =? u)%string; reflexivity.
    - rewrite IH. destruct (x =? u)%string; simpl; [|reflexivity].
      destruct (y =? v)%string; reflexivity. }
  rewrite Hf. destruct (String.eqb_spec x u) as [->|Hne].
  - rewrite length_map, count_key by (eapply Hnb; left; reflexivity).
    destruct (dict_get adj u) eqn:E; [|lia].
    exfalso. apply Hnot. apply dict_has_In. unfold dict_has. rewrite E. reflexivity.
  - reflexivity.
Qed.

(** In a well-formed graph a pair of nodes has one edge or none. *)
Lemma edge_count_has_edge G u v :
  wfP G -> edge_count G u v = if Nx.has_edge G u v then 1%nat else 0%nat.
Proof.
  intros W. unfold edge_count, Nx.edges. rewrite edge_count_adj.
  - unfold Nx.has_edge, Nx.succ. destruct (dict_get (Nx.adj G) u); reflexivity.
  - apply W.
  - intros x nb H. apply In_dict_get in H; [|apply W]. eapply wf_nodup_succ; eauto.
Qed.

(** At any time the object's graph has at most one edge per pair. *)
Lemma reachable_edge_count self u v :
  reachable self -> (edge_count (graph self) u v <= 1)%nat.
Proof.
  intros R. rewrite edge_count_has_edge by (apply reachable_wfP; exact R).
  destruct (Nx.has_edge (graph self) u v); lia.
Qed.

Lemma has_edge_edge_data G u v :
  Nx.has_edge G u v = match Nx.edge_data G u v with Some _ => true | None => false end.
Proof. reflexivity. Qed.

Lemma wfP_upsert_all self u v ups :
  wfP (graph self) -> wfP (graph (upsert_all self u v ups)).
Proof.
  unfold upsert_all. revert self.
  induction ups as [|up ups IH]; simpl; intros self W; [exact W|].
  apply IH. apply wfP_add_temporal_edge. exact W.
Qed.

Lemma edge_eqb_refl e : edge_eqb e e = true.
Proof. apply edge_eqb_eq. reflexivity. Qed.

Lemma edge_data_upsert_all_other self u v ups x y :
  wfP (graph self) -> (x, y) <> (u, v) ->
  Nx.edge_data (graph (upsert_all self u v ups)) x y = Nx.edge_data (graph self) x y.
Proof.
  unfold upsert_all. revert self.
  induction ups as [|up ups IH]; simpl; intros self W Hne; [reflexivity|].
  rewrite IH by (try apply wfP_add_temporal_edge; assumption).
  unfold apply_upsert. rewrite edge_data_add_temporal_edge by exact W.
  destruct (edge_eqb (u, v) (x, y)) eqn:E; [|rewrite andb_false_r; reflexivity].
  apply edge_eqb_eq in E. congruence.
Qed.

(** An accepted call names neither [strength] nor another parameter. *)
Lemma edge_accepted_strength G u v a :
  edge_accepted G u v a = true -> dict_has a "strength" = false.
Proof.
  unfold edge_accepted. intros H. apply andb_true_iff in H as [H _].
  apply negb_true_iff in H. apply (clashes_false a edge_parameters); [exact H|].
  simpl. auto 6.
Qed.

Lemma dict_update_app {V} (d l1 l2 : dict V) :
  dict_update d (l1 ++ l2)%list = dict_update (dict_update d l1) l2.
Proof. unfold dict_update. apply fold_left_app. Qed.

Lemma get_strength_created now rel s a :
  dict_has a "strength" = false -> get_strength (created now rel s a) 0 = s.
Proof.
  intros H. unfold created, get_strength.
  rewrite dict_update_app, dict_get_update_other by exact H. reflexivity.
Qed.

(** One call keeps an edge that is there, with a strength of at most 1. *)
Lemma apply_upsert_keeps_edge self u v up d :
  wfP (graph self) ->
  Nx.edge_data (graph self) u v = Some d -> (get_strength d 0 <= 1)%Q ->
  exists d', Nx.edge_data (graph (after (apply_upsert u v self up))) u v = Some d'
             /\ (get_strength d' 0 <= 1)%Q.
Proof.
  intros W Hd Hle. unfold apply_upsert.
  rewrite edge_data_add_temporal_edge by exact W. rewrite edge_eqb_refl, andb_true_r, Hd.
  destruct (edge_accepted (graph self) u v (up_attributes up)) eqn:Ea; [|eauto].
  eexists. split; [reflexivity|].
  rewrite get_strength_upserted by (eapply edge_accepted_strength; exact Ea).
  apply cap1_le.
Qed.

Lemma upsert_all_keeps_edge self u v ups d :
  wfP (graph self) ->
  Nx.edge_data (graph self) u v = Some d -> (get_strength d 0 <= 1)%Q ->
  exists d', Nx.edge_data (graph (upsert_all self u v ups)) u v = Some d'
             /\ (get_strength d' 0 <= 1)%Q.
Proof.
  unfold upsert_all. revert self d.
  induction ups as [|up ups IH]; simpl; intros self d W Hd Hle; [eauto|].
  destruct (apply_upsert_keeps_edge self u v up d W Hd Hle) as [d1 [Hd1 Hle1]].
  eapply IH; [apply wfP_add_temporal_edge; exact W|exact Hd1|exact Hle1].
Qed.

(** Calls with strengths of at most 1 leave no edge, or an edge with a
    strength of at most 1. *)
Lemma upsert_all_bounded self u v ups :
  wfP (graph self) ->
  Forall (fun up => (up_strength up <= 1)%Q) ups ->
  (forall d, Nx.edge_data (graph self) u v = Some d -> (get_strength d 0 <= 1)%Q) ->
  forall d', Nx.edge_data (graph (upsert_all self u v ups)) u v = Some d' ->
             (get_strength d' 0 <= 1)%Q.
Proof.
  unfold upsert_all. revert self.
  induction ups as [|up ups IH]; simpl; intros self W Hs Hinv; [exact Hinv|].
  inversion Hs as [|? ? Hup Hs']; subst.
  apply IH; [apply wfP_add_temporal_edge; exact W|exact Hs'|].
  intros d. unfold apply_upsert.
  rewrite edge_data_add_temporal_edge by exact W. rewrite edge_eqb_refl, andb_true_r.
  destruct (edge_accepted (graph self) u v (up_attributes up)) eqn:Ea; [|apply Hinv].
  pose proof (edge_accepted_strength _ _ _ _ Ea) as Hplain.
  destruct (Nx.edge_data (graph self) u v) as [d0|]; intros [= <-].
  - rewrite get_strength_upserted by exact Hplain. apply cap1_le.
  - rewrite get_strength_created by exact Hplain. exact Hup.
Qed.

Lemma has_edge_after_upsert self u v up :
  wfP (graph self) ->
  Nx.has_edge (graph self) u v = true \/ plain_attributes up ->
  Nx.has_edge (graph (after (apply_upsert u v self up))) u v = true.
Proof.
  intros W H. rewrite has_edge_edge_data. unfold apply_upsert.
  rewrite edge_data_add_temporal_edge by exact W. rewrite edge_eqb_refl, andb_true_r.
  destruct H as [H|[H1 H2]].
  - rewrite has_edge_edge_data in H.
    destruct (Nx.edge_data (graph self) u v); [|discriminate].
    destruct (edge_accepted _ _ _ _); reflexivity.
  - unfold edge_accepted. rewrite H1, H2, orb_true_r. simpl.
    destruct (Nx.edge_data (graph self) u v); reflexivity.
Qed.

(** The edge is there after the calls when it was there before them, or
    when one of them can create it. *)
Lemma upsert_all_creates_edge self u v ups :
  wfP (graph self) ->
  Nx.has_edge (graph self) u v = true \/ Exists plain_attributes ups ->
  Nx.has_edge (graph (upsert_all self u v ups)) u v = true.
Proof.
  unfold upsert_all. revert self.
  induction ups as [|up ups IH]; simpl; intros self W H.
  - destruct H as [H|H]; [exact H|inversion H].
  - apply IH; [apply wfP_add_temporal_edge; exact W|].
    destruct H as [H|H].
    + left. apply has_edge_after_upsert; auto.
    + inversion H as [? ? Hup|? ? Hrest]; subst.
      * left. apply has_edge_after_upsert; auto.
      * right. exact Hrest.
Qed.

Lemma node_edge_put_existing self now u v rel s a :
  Nx.has_edge (graph self) u v = true ->
  Nx.node (graph (edge_put self now u v rel s a)) = Nx.node (graph self).
Proof. intros H. unfold edge_put. rewrite H. reflexivity. Qed.

(** The dictionary of an edge after an update, key by key. *)
Lemma dict_get_upserted now s a d k :
  NoDup (dict_keys a) ->
  dict_get (upserted now s a d) k
  = match dict_get a k with
    | Some value => Some value
    | None =>
        if (k =? "last_updated")%string then Some (PTime now)
        else if (k =? "strength")%string
             then Some (PFloat (cap1 (get_strength d 0 + s)))
             else dict_get d k
    end.
Proof.
  intros Hnd. unfold upserted. rewrite dict_get_update by exact Hnd.
  destruct (dict_get a k); [reflexivity|].
  rewrite !dict_get_set, (String.eqb_sym "last_updated"), (String.eqb_sym "strength").
  reflexivity.
Qed.

(** The dictionary of a new edge, key by key. *)
Lemma dict_get_created now rel s a k :
  NoDup (dict_keys a) ->
  dict_get (created now rel s a) k
  = match dict_get a k with
    | Some value => Some value
    | None =>
        if (k =? "relationship")%string then Some (PStr rel)
        else if (k =? "strength")%string then Some (PFloat s)
        else if (k =? "created_at")%string then Some (PTime now)
        else if (k =? "last_updated")%string then Some (PTime now)
        else None
    end.
Proof.
  intros Hnd. unfold created. rewrite dict_update_app, dict_get_update by exact Hnd.
  destruct (dict_get a k); [reflexivity|].
  change (dict_update [] [("relationship", PStr rel); ("strength", PFloat s);
                          ("created_at", PTime now); ("last_updated", PTime now)])
    with [("relationship", PStr rel); ("strength", PFloat s);
          ("created_at", PTime now); ("last_updated", PTime now)].
  cbn [dict_get].
  rewrite (String.eqb_sym "last_updated"), (String.eqb_sym "strength"),
    (String.eqb_sym "created_at"), (String.eqb_sym "relationship").
  reflexivity.
Qed.

(** C7.  Upserting the edge of one pair of nodes any number of times keeps
    the graph well formed, so no pair ever has more than one edge, and
    leaves every other edge alone; the edge is there afterwards when it
    was there before or when one of the calls can create it.  A call that
    finds the edge returns, unless its attributes name a parameter of the
    method: then it raises [TypeError] and changes nothing.  The call that
    returns leaves the nodes as they are, sets the strength to
    [min(1.0, old + strength)] and [last_updated] to the clock, and updates
    the edge with the attributes: a key of the attributes takes their
    value, every other key keeps its own.  The call that creates the edge
    writes the relationship, the strength, the two times and the
    attributes.  An edge with a strength of at most 1.0 never gets a
    strength above 1.0, and calls with strengths of at most 1.0 never
    leave an edge with a strength above 1.0. *)
Theorem upsert_edge_single_and_capped (self : t) (u v : string) (ups : list upsert) :
  wf (graph self) = true ->
  let self' := upsert_all self u v ups in
  wf (graph self') = true
  /\ (forall x y, (edge_count (graph self') x y <= 1)%nat)
  /\ (Nx.has_edge (graph self) u v = true \/ Exists plain_attributes ups ->
      edge_count (graph self') u v = 1%nat)
  /\ (forall x y, (x, y) <> (u, v) ->
        Nx.edge_data (graph self') x y = Nx.edge_data (graph self) x y)
  /\ (forall d up, Nx.edge_data (graph self) u v = Some d ->
        let call := apply_upsert u v self up in
        (clashes (up_attributes up) edge_parameters = true ->
           call = raises self "TypeError")
        /\ (clashes (up_attributes up) edge_parameters = false ->
            NoDup (dict_keys (up_attributes up)) ->
            raised call = None
            /\ Nx.node (graph (after call)) = Nx.node (graph self)
            /\ exists d1,
                 Nx.edge_data (graph (after call)) u v = Some d1
                 /\ get_strength d1 0 = Qmin 1 (get_strength d 0 + up_strength up)
                 /\ forall k,
                      dict_get d1 k
                      = match dict_get (up_attributes up) k with
                        | Some value => Some value
                        | None =>
                            if (k =? "last_updated")%string then Some (PTime (up_now up))
                            else if (k =? "strength")%string
                                 then Some (PFloat
                                              (Qmin 1 (get_strength d 0 + up_strength up)))
                                 else dict_get d k
                        end))
  /\ (forall up, Nx.edge_data (graph self) u v = None ->
        plain_attributes up -> NoDup (dict_keys (up_attributes up)) ->
        let call := apply_upsert u v self up in
        raised call = None
        /\ exists d1,
             Nx.edge_data (graph (after call)) u v = Some d1
             /\ get_strength d1 0 = up_strength up
             /\ forall k,
                  dict_get d1 k
                  = match dict_get (up_attributes up) k with
                    | Some value => Some value
                    | None =>
                        if (k =? "relationship")%string
                        then Some (PStr (up_relationship up))
                        else if (k =? "strength")%string
                             then Some (PFloat (up_strength up))
                        else if (k =? "created_at")%string then Some (PTime (up_now up))
                        else if (k =? "last_updated")%string then Some (PTime (up_now up))
                        else None
                    end)
  /\ (forall d, Nx.edge_data (graph self) u v = Some d -> (get_strength d 0 <= 1)%Q ->
        exists d', Nx.edge_data (graph self') u v = Some d' /\ (get_strength d' 0 <= 1)%Q)
  /\ (Nx.edge_data (graph self) u v = None ->
      Forall (fun up => (up_strength up <= 1)%Q) ups ->
      forall d', Nx.edge_data (graph self') u v = Some d' -> (get_strength d' 0 <= 1)%Q).
Proof.
  intros W self'. apply wf_wfP in W.
  assert (wfP (graph self')) as W' by (apply wfP_upsert_all; exact W).
  split; [apply wf_wfP; exact W'|].
  split; [intros x y; rewrite edge_count_has_edge by exact W';
          destruct (Nx.has_edge (graph self') x y); lia|].
  split; [intros Hne; rewrite edge_count_has_edge by exact W';
          unfold self'; rewrite upsert_all_creates_edge by assumption; reflexivity|].
  split; [intros x y Hne; apply edge_data_upsert_all_other; assumption|].
  split; [|split; [|split]].
  - intros d up Hd call.
    assert (Nx.has_edge (graph self) u v = true) as He
        by (rewrite has_edge_edge_data, Hd; reflexivity).
    unfold call, apply_upsert. rewrite add_temporal_edge_cases.
    unfold edge_accepted. rewrite He. simpl orb. rewrite andb_true_r.
    split; [intros ->; reflexivity|].
    intros Hc Hnd. rewrite Hc. cbn [negb after raised returns].
    split; [reflexivity|].
    split; [apply node_edge_put_existing; exact He|].
    exists (upserted (up_now up) (up_strength up) (up_attributes up) d).
    split; [rewrite edge_data_edge_put by exact W; rewrite edge_eqb_refl, Hd; reflexivity|].
    split.
    + apply get_strength_upserted. apply (clashes_false _ edge_parameters); [exact Hc|].
      simpl. auto 6.
    + intros k. apply dict_get_upserted. exact Hnd.
  - intros up Hnone [Hp1 Hp2] Hnd call.
    unfold call, apply_upsert. rewrite add_temporal_edge_cases.
    unfold edge_accepted. rewrite Hp1, Hp2, orb_true_r. cbn [negb andb after raised returns].
    split; [reflexivity|].
    exists (created (up_now up) (up_relationship up) (up_strength up) (up_attributes up)).
    split; [rewrite edge_data_edge_put by exact W; rewrite edge_eqb_refl, Hnone; reflexivity|].
    split.
    + apply get_strength_created. apply (clashes_false _ edge_parameters); [exact Hp1|].
      simpl. auto 6.
    + intros k. apply dict_get_created. exact Hnd.
  - intros d Hd Hle. eapply upsert_all_keeps_edge; eauto.
  - intros Hnone Hs. apply upsert_all_bounded; [exact W|exact Hs|].
    intros d Hd. rewrite Hnone in Hd. discriminate.
Qed.

Lemma upsert_edge_single_and_capped_witness :
  let ups := [mkUpsert 6 "followed_by" (7 # 10) [("time_delta", PFloat 30)];
              mkUpsert 7 "followed_by" (9 # 10) []] in
  wf (graph Examples.chain) = true
  /\ edge_count (graph (upsert_all Examples.chain "a1" "a2" ups)) "a1" "a2" = 1%nat
  /\ exists d', Nx.edge_data (graph (upsert_all Examples.chain "a1" "a2" ups)) "a1" "a2"
                = Some d'
                /\ (get_strength d' 0 <= 1)%Q.
Proof.
  intros ups.
  assert (wf (graph Examples.chain) = true) as W by reflexivity.
  destruct (upsert_edge_single_and_capped Examples.chain "a1" "a2" ups W)
    as [_ [_ [H1 [_ [_ [_ [H2 _]]]]]]].
  split; [exact W|]. split.
  - apply H1. left. reflexivity.
  - eapply H2; [reflexivity|]. vm_compute. discriminate.
Defined.

(** C1, as the code has it.  A call of [add_temporal_edge] in which an
    endpoint is not in the graph is not rejected for that.  When its
    attributes can be passed, it returns: the edge is created with the
    given relationship, strength and attributes and with the clock as
    [created_at] and [last_updated], each missing endpoint becomes a node
    without attributes, the nodes that were there keep their attributes,
    no other node appears and no other edge changes.  The only error is the
    [TypeError] for attributes that name a parameter or repeat a keyword
    the creation passes itself, and it leaves the object as it was. *)
Theorem add_temporal_edge_creates_missing_endpoints
    (self : t) (now : Z) (u v relationship : string) (strength : Q) (attributes : Nx.attrs) :
  wf (graph self) = true ->
  Nx.has_node (graph self) u = false \/ Nx.has_node (graph self) v = false ->
  let call := add_temporal_edge self now u v relationship strength attributes in
  let self' := after call in
  (clashes attributes edge_parameters = true
   \/ clashes attributes new_edge_keywords = true ->
   call = raises self "TypeError")
  /\ (clashes attributes edge_parameters = false ->
      clashes attributes new_edge_keywords = false ->
      raised call = None
      /\ wf (graph self') = true
      /\ Nx.has_node (graph self') u = true
      /\ Nx.has_node (graph self') v = true
      /\ (exists d,
            Nx.edge_data (graph self') u v = Some d
            /\ d = dict_update []
                     ([("relationship", PStr relationship); ("strength", PFloat strength);
                       ("created_at", PTime now); ("last_updated", PTime now)]
                      ++ attributes)%list
            /\ dict_get d "relationship" = Some (PStr relationship)
            /\ dict_get d "strength" = Some (PFloat strength)
            /\ dict_get d "created_at" = Some (PTime now)
            /\ dict_get d "last_updated" = Some (PTime now)
            /\ (NoDup (dict_keys attributes) ->
                forall k value, dict_get attributes k = Some value ->
                                dict_get d k = Some value)
            /\ (forall k, ~ In k edge_keys -> dict_has attributes k = false ->
                          dict_get d k = None))
      /\ (forall n, Nx.has_node (graph self) n = false -> n = u \/ n = v ->
            dict_get (Nx.node (graph self')) n = Some [])
      /\ (forall n, Nx.has_node (graph self) n = true ->
            dict_get (Nx.node (graph self')) n = dict_get (Nx.node (graph self)) n)
      /\ (forall n, Nx.has_node (graph self') n = true ->
            n = u \/ n = v \/ Nx.has_node (graph self) n = true)
      /\ (forall x y, (x, y) <> (u, v) ->
            Nx.edge_data (graph self') x y = Nx.edge_data (graph self) x y)).
Proof.
  intros W Hmiss call self'. apply wf_wfP in W.
  assert (Nx.has_edge (graph self) u v = false) as He.
  { destruct (Nx.has_edge (graph self) u v) eqn:E; [|reflexivity].
    apply (wfP_has_edge _ _ _ W) in E. destruct E, Hmiss; congruence. }
  assert (call = if negb (clashes attributes edge_parameters)
                    && negb (clashes attributes new_edge_keywords)
                 then returns (edge_put self now u v relationship strength attributes)
                 else raises self "TypeError") as Hcall.
  { unfold call. rewrite add_temporal_edge_cases. unfold edge_accepted. rewrite He.
    reflexivity. }
  split.
  { intros [H|H]; rewrite Hcall, H; [reflexivity|].
    rewrite andb_false_r. reflexivity. }
  intros Hc1 Hc2. unfold self'. rewrite Hcall, Hc1, Hc2. cbn [negb andb after raised returns].
  set (put := edge_put self now u v relationship strength attributes).
  assert (graph put
          = Nx.add_edge (graph self) u v
              ([("relationship", PStr relationship); ("strength", PFloat strength);
                ("created_at", PTime now); ("last_updated", PTime now)]
               ++ attributes)%list) as Hg.
  { unfold put, edge_put. rewrite He. reflexivity. }
  assert (forall n, Nx.has_node (graph put) n
                    = ((u =? n)%string || (v =? n)%string || Nx.has_node (graph self) n))
    as Hn.
  { intros n. rewrite Hg, add_edge_unfold. apply has_node_with_endpoints. }
  assert (forall n, dict_get (Nx.node (graph put)) n
                    = if Nx.has_node (graph self) n then dict_get (Nx.node (graph self)) n
                      else if (u =? n)%string || (v =? n)%string then Some [] else None)
    as Hd.
  { intros n. rewrite Hg, add_edge_unfold. apply dict_get_node_with_endpoints. }
  assert (forall k, In k edge_keys -> dict_has attributes k = false) as Hfree.
  { intros k [<-|[<-|[<-|[<-|[]]]]].
    - apply (clashes_false _ edge_parameters); [exact Hc1|simpl; auto 6].
    - apply (clashes_false _ edge_parameters); [exact Hc1|simpl; auto 6].
    - apply (clashes_false _ new_edge_keywords); [exact Hc2|simpl; auto 6].
    - apply (clashes_false _ new_edge_keywords); [exact Hc2|simpl; auto 6]. }
  split; [reflexivity|].
  split; [apply wf_wfP; apply wfP_edge_put; exact W|].
  split; [rewrite Hn, String.eqb_refl; reflexivity|].
  split; [rewrite Hn, String.eqb_refl, orb_true_r; reflexivity|].
  split.
  { exists (created now relationship strength attributes).
    split.
    { unfold put. rewrite edge_data_edge_put by exact W.
      rewrite edge_eqb_refl. rewrite has_edge_edge_data in He.
      destruct (Nx.edge_data (graph self) u v); [discriminate|reflexivity]. }
    split; [reflexivity|].
    assert (forall k, In k edge_keys ->
              dict_get (created now relationship strength attributes) k
              = dict_get [("relationship", PStr relationship); ("strength", PFloat strength);
                          ("created_at", PTime now); ("last_updated", PTime now)] k)
      as Hfixed.
    { intros k Hk. unfold created. rewrite dict_update_app.
      rewrite dict_get_update_other by (apply Hfree; exact Hk).
      destruct Hk as [<-|[<-|[<-|[<-|[]]]]]; reflexivity. }
    split; [apply Hfixed; simpl; auto|].
    split; [apply Hfixed; simpl; auto|].
    split; [apply Hfixed; simpl; auto|].
    split; [apply Hfixed; simpl; auto 6|].
    split.
    - intros Hnd k value Hk. rewrite dict_get_created by exact Hnd. rewrite Hk. reflexivity.
    - intros k Hk Ha. unfold created. rewrite dict_update_app.
      rewrite dict_get_update_other by exact Ha.
      change (dict_update [] [("relationship", PStr relationship);
                              ("strength", PFloat strength);
                              ("created_at", PTime now); ("last_updated", PTime now)])
        with [("relationship", PStr relationship); ("strength", PFloat strength);
              ("created_at", PTime now); ("last_updated", PTime now)].
      cbn [dict_get]. unfold edge_keys in Hk. simpl in Hk.
      destruct (String.eqb_spec "relationship" k); [tauto|].
      destruct (String.eqb_spec "strength" k); [tauto|].
      destruct (String.eqb_spec "created_at" k); [tauto|].
      destruct (String.eqb_spec "last_updated" k); [tauto|]. reflexivity. }
  split.
  { intros n Hf [->| ->]; rewrite Hd, Hf, String.eqb_refl; rewrite ?orb_true_r; reflexivity. }
  split; [intros n Ht; rewrite Hd, Ht; reflexivity|].
  split.
  { intros n. rewrite Hn.
    destruct (String.eqb_spec u n); [auto|]. destruct (String.eqb_spec v n); auto. }
  intros x y Hne. unfold put. rewrite edge_data_edge_put by exact W.
  destruct (edge_eqb (u, v) (x, y)) eqn:E; [|reflexivity].
  apply edge_eqb_eq in E. congruence.
Qed.

Lemma add_temporal_edge_creates_missing_endpoints_witness :
  wf (graph Examples.chain) = true
  /\ (Nx.has_node (graph Examples.chain) "a3" = false
      \/ Nx.has_node (graph Examples.chain) "ghost" = false)
  /\ raised (add_temporal_edge Examples.chain 9 "a3" "ghost" "followed_by" (1 # 2) [])
     = None
  /\ Nx.has_node
       (graph (after
                 (add_temporal_edge Examples.chain 9 "a3" "ghost" "followed_by" (1 # 2) [])))
       "ghost" = true
  /\ dict_get
       (Nx.node
          (graph (after
                    (add_temporal_edge Examples.chain 9 "a3" "ghost" "followed_by"
                       (1 # 2) []))))
       "ghost" = Some [].
Proof.
  assert (wf (graph Examples.chain) = true) as W by reflexivity.
  assert (Nx.has_node (graph Examples.chain) "a3" = false
          \/ Nx.has_node (graph Examples.chain) "ghost" = false) as Hm
    by (right; reflexivity).
  destruct (add_temporal_edge_creates_missing_endpoints
              Examples.chain 9 "a3" "ghost" "followed_by" (1 # 2) [] W Hm)
    as [_ Hok].
  destruct (Hok eq_refl eq_refl) as [Hret [_ [_ [Hv [_ [Hnew _]]]]]].
  split; [exact W|]. split; [exact Hm|]. split; [exact Hret|]. split; [exact Hv|].
  apply Hnew; [reflexivity|right; reflexivity].
Defined.

(** C1, as stated, fails: on the empty graph an edge between two
    nodes that do not exist is not rejected; the call returns, the graph
    changes and holds the edge and both nodes. *)
Lemma add_temporal_edge_missing_endpoint_not_rejected :
  let self := init 10 (95 # 100) in
  let call := add_temporal_edge self 5 "a" "b" "followed_by" (1 # 2) [] in
  Nx.has_node (graph self) "a" = false
  /\ Nx.has_node (graph self) "b" = false
  /\ raised call = None
  /\ graph (after call) <> graph self
  /\ Nx.has_edge (graph (after call)) "a" "b" = true
  /\ Nx.number_of_nodes (graph (after call)) = 2.
Proof.
  cbv zeta. split; [reflexivity|]. split; [reflexivity|]. split; [reflexivity|].
  split; [vm_compute; discriminate|]. split; reflexivity.
Qed.

End EdgeUpsert.

(* ================================================================== *)
(** * Capacity and pruning *)
(* ================================================================== *)

Module Capacity.
Import DictFacts SortFacts GraphFacts TemporalGraphFacts Spec TemporalGraph.

Lemma has_node_remove_node G n m :
  Nx.has_node (Nx.remove_node G n) m = (negb (n =? m)%string && Nx.has_node G m).
Proof.
  unfold Nx.remove_node. destruct (Nx.has_node G n) eqn:E.
  - unfold Nx.has_node. simpl. apply dict_has_del.
  - destruct (String.eqb_spec n m) as [<-|]; [rewrite E|]; reflexivity.
Qed.

Lemma has_node_remove_nodes_from G ns m :
  Nx.has_node (Nx.remove_nodes_from G ns) m = (negb (mem m ns) && Nx.has_node G m).
Proof.
  unfold Nx.remove_nodes_from, mem. revert G.
  induction ns as [|n ns IH]; simpl; intros G; [reflexivity|].
  rewrite IH, has_node_remove_node, (String.eqb_sym m n).
  destruct (n =? m)%string, (existsb (String.eqb m) ns); reflexivity.
Qed.

(** Removing a node removes the edges from it and to it, and no other. *)
Lemma edge_data_remove_node G n u v :
  wfP G ->
  Nx.edge_data (Nx.remove_node G n) u v
  = if (n =? u)%string || (n =? v)%string then None else Nx.edge_data G u v.
Proof.
  intros W. unfold Nx.remove_node. destruct (Nx.has_node G n) eqn:E.
  - unfold Nx.edge_data, Nx.succ. simpl.
    change (map (fun '(u, nb) => (u, dict_del nb n)) (dict_del (Nx.adj G) n))
      with (map_values (fun (_ : string) (nb : dict Nx.attrs) => dict_del nb n)
              (dict_del (Nx.adj G) n)).
    rewrite dict_get_map_values, dict_get_del.
    destruct (n =? u)%string; simpl; [reflexivity|].
    destruct (dict_get (Nx.adj G) u) as [nb|]; simpl.
    + rewrite dict_get_del. reflexivity.
    + destruct (n =? v)%string; reflexivity.
  - destruct ((n =? u)%string || (n =? v)%string) eqn:Euv; [|reflexivity].
    destruct (Nx.edge_data G u v) eqn:Ed; [|reflexivity]. exfalso.
    assert (Nx.has_edge G u v = true) as He by (rewrite EdgeUpsert.has_edge_edge_data, Ed; reflexivity).
    apply (wfP_has_edge _ _ _ W) in He as [Hu Hv].
    apply orb_true_iff in Euv as [Heq|Heq]; apply String.eqb_eq in Heq; congruence.
Qed.

Lemma edge_data_remove_nodes_from G ns u v :
  wfP G ->
  Nx.edge_data (Nx.remove_nodes_from G ns) u v
  = if mem u ns || mem v ns then None else Nx.edge_data G u v.
Proof.
  unfold Nx.remove_nodes_from, mem. revert G.
  induction ns as [|n ns IH]; simpl; intros G W; [reflexivity|].
  rewrite IH by (apply wfP_remove_node; exact W).
  rewrite edge_data_remove_node by exact W.
  rewrite (String.eqb_sym u n), (String.eqb_sym v n).
  destruct (n =? u)%string, (n =? v)%string,
    (existsb (String.eqb u) ns), (existsb (String.eqb v) ns); reflexivity.
Qed.

Lemma number_of_nodes_remove_node_le G n :
  Nx.number_of_nodes (Nx.remove_node G n) <= Nx.number_of_nodes G.
Proof.
  unfold Nx.remove_node, Nx.number_of_nodes.
  destruct (Nx.has_node G n); simpl; [|lia].
  pose proof (length_dict_del_le (Nx.node G) n). lia.
Qed.

Lemma number_of_nodes_remove_node_lt G n :
  Nx.has_node G n = true ->
  Nx.number_of_nodes (Nx.remove_node G n) < Nx.number_of_nodes G.
Proof.
  intros H. unfold Nx.remove_node, Nx.number_of_nodes. rewrite H. simpl.
  pose proof (length_dict_del_lt (Nx.node G) n H). lia.
Qed.

Lemma number_of_nodes_remove_nodes_from_le G ns :
  Nx.number_of_nodes (Nx.remove_nodes_from G ns) <= Nx.number_of_nodes G.
Proof.
  unfold Nx.remove_nodes_from. revert G.
  induction ns as [|n ns IH]; simpl; intros G; [lia|].
  specialize (IH (Nx.remove_node G n)).
  pose proof (number_of_nodes_remove_node_le G n). lia.
Qed.

Lemma number_of_nodes_add_node G n a :
  Nx.number_of_nodes (Nx.add_node G n a)
  = if Nx.has_node G n then Nx.number_of_nodes G else Nx.number_of_nodes G + 1.
Proof.
  unfold Nx.add_node, Nx.number_of_nodes, Nx.has_node.
  destruct (dict_has (Nx.node G) n) eqn:E; simpl.
  - rewrite length_dict_modify. reflexivity.
  - rewrite length_dict_set, E. lia.
Qed.

Lemma timestamped_nodes_In G n data :
  In (n, data) (Nx.node G) ->
  truthy_opt (dict_get data "timestamp") = true ->
  In (n, node_time data) (timestamped_nodes G).
Proof.
  intros Hin Ht. unfold timestamped_nodes. apply in_flat_map.
  exists (n, data). split; [exact Hin|]. rewrite Ht. left. reflexivity.
Qed.

Lemma timestamped_nodes_has_node G x :
  In x (timestamped_nodes G) -> Nx.has_node G (fst x) = true.
Proof.
  unfold timestamped_nodes. intros H. apply in_flat_map in H as [[n data] [Hin H]].
  destruct (_ || _); [|destruct H]. destruct H as [<-|[]]. simpl.
  apply dict_has_In. apply (in_map fst) in Hin. exact Hin.
Qed.

(** A node without a true [timestamp] or [created_at] is not a candidate. *)
Lemma timestamped_nodes_exempt G n data x :
  NoDup (dict_keys (Nx.node G)) ->
  dict_get (Nx.node G) n = Some data ->
  truthy_opt (dict_get data "timestamp") = false ->
  truthy_opt (dict_get data "created_at") = false ->
  In x (timestamped_nodes G) -> fst x <> n.
Proof.
  intros Hnd Hget H1 H2 Hin Heq.
  unfold timestamped_nodes in Hin. apply in_flat_map in Hin as [[m data'] [Hin H]].
  destruct (_ || _) eqn:E; [|destruct H]. destruct H as [<-|[]]. simpl in Heq.
  apply In_dict_get in Hin; [|exact Hnd]. rewrite Heq in Hin.
  assert (Some data' = Some data) as Hs
    by (etransitivity; [symmetry; exact Hin|exact Hget]).
  injection Hs as ->. rewrite H1, H2 in E. discriminate.
Qed.

(** ** The order of the sort keys *)

Lemma Qleb_linear a b : Qleb a b = true \/ Qleb b a = true.
Proof.
  unfold Qleb. destruct (Qlt_le_dec b a) as [H|H].
  - right. apply Qle_bool_iff. apply Qlt_le_weak. exact H.
  - left. apply Qle_bool_iff. exact H.
Qed.

Lemma Qleb_chain a b c : Qleb a b = true -> Qleb b c = true -> Qleb a c = true.
Proof.
  unfold Qleb. rewrite !Qle_bool_iff. apply Qle_trans.
Qed.

Lemma str_leb_linear a b :
  match String_as_OT.compare a b with Gt => false | _ => true end = true
  \/ match String_as_OT.compare b a with Gt => false | _ => true end = true.
Proof.
  destruct (str_compare_cases a b) as [[_ H]|[[H H']|[H H']]];
    rewrite H; rewrite ?H'; auto.
Qed.

Lemma str_leb_chain a b c :
  match String_as_OT.compare a b with Gt => false | _ => true end = true ->
  match String_as_OT.compare b c with Gt => false | _ => true end = true ->
  match String_as_OT.compare a c with Gt => false | _ => true end = true.
Proof.
  destruct (str_compare_cases a b) as [[E H]|[[H H']|[H H']]];
    rewrite H; try discriminate; intros _.
  - rewrite E. tauto.
  - destruct (str_compare_cases b c) as [[E2 H2]|[[H2 H2']|[H2 H2']]];
      rewrite H2; try discriminate; intros _.
    + rewrite <- E2, H. reflexivity.
    + rewrite (str_lt_trans _ _ _ H H2). reflexivity.
Qed.

Lemma key_leb_total a b : key_leb a b = true \/ key_leb b a = true.
Proof.
  destruct a, b; simpl; auto; try apply Qleb_linear.
  - apply str_leb_linear.
  - rewrite !Z.leb_le. lia.
Qed.

Lemma key_leb_trans a b c :
  key_leb a b = true -> key_leb b c = true -> key_leb a c = true.
Proof.
  destruct a, b; simpl; try discriminate; destruct c; simpl;
    try discriminate; try reflexivity; try apply Qleb_chain.
  - apply str_leb_chain.
  - rewrite !Z.leb_le. lia.
Qed.

Lemma by_time_total x y : by_time x y = true \/ by_time y x = true.
Proof. apply key_leb_total. Qed.

Lemma by_time_trans x y z : by_time x y = true -> by_time y z = true -> by_time x z = true.
Proof. apply key_leb_trans. Qed.

(** On [datetime]s the order of the keys is the order of time. *)
Lemma by_time_datetimes x y tx ty :
  prune_key x = PTime tx -> prune_key y = PTime ty ->
  (by_time x y = true <-> tx <= ty).
Proof. unfold by_time. intros -> ->. simpl. apply Z.leb_le. Qed.

Lemma graph_after_prune self :
  graph (after (_prune_old_nodes self))
  = if comparable (timestamped_nodes (graph self))
    then Nx.remove_nodes_from (graph self) (pruned self)
    else graph self.
Proof.
  rewrite prune_cases. destruct (comparable (timestamped_nodes (graph self))); reflexivity.
Qed.

Lemma raised_prune self :
  raised (_prune_old_nodes self)
  = if comparable (timestamped_nodes (graph self)) then None else Some "TypeError".
Proof.
  rewrite prune_cases. destruct (comparable (timestamped_nodes (graph self))); reflexivity.
Qed.

Lemma max_nodes_after_prune self : max_nodes (after (_prune_old_nodes self)) = max_nodes self.
Proof.
  rewrite prune_cases. destruct (comparable (timestamped_nodes (graph self))); reflexivity.
Qed.

(** What [_prune_old_nodes] removes when the keys can be compared: the first
    [num_to_remove] candidates in the order of their keys, each of them at
    least as old as every candidate that stays; the edges of the removed
    nodes go with them and nothing else changes. *)
Lemma prune_removes_oldest self :
  wfP (graph self) ->
  comparable (timestamped_nodes (graph self)) = true ->
  let sorted := stable_sort by_time (timestamped_nodes (graph self)) in
  let k := Z.to_nat (num_to_remove self) in
  let removed := map fst (firstn k sorted) in
  raised (_prune_old_nodes self) = None
  /\ Permutation sorted (timestamped_nodes (graph self))
  /\ (forall x y, In x (firstn k sorted) -> In y (skipn k sorted) -> by_time x y = true)
  /\ (forall n, Nx.has_node (graph (after (_prune_old_nodes self))) n
                = (negb (mem n removed) && Nx.has_node (graph self) n))
  /\ (forall u v, Nx.edge_data (graph (after (_prune_old_nodes self))) u v
                  = if mem u removed || mem v removed then None
                    else Nx.edge_data (graph self) u v).
Proof.
  intros W Hc sorted k removed.
  assert (graph (after (_prune_old_nodes self))
          = Nx.remove_nodes_from (graph self) removed) as Hg.
  { rewrite graph_after_prune, Hc. reflexivity. }
  split; [rewrite raised_prune, Hc; reflexivity|].
  split; [apply stable_sort_perm|]. split; [|split].
  - intros x y Hx Hy.
    eapply (StronglySorted_firstn_skipn (fun a b => by_time a b = true)); eauto.
    apply stable_sort_sorted; [apply by_time_total|apply by_time_trans].
  - intros n. rewrite Hg. apply has_node_remove_nodes_from.
  - intros u v. rewrite Hg. apply edge_data_remove_nodes_from. exact W.
Qed.

Lemma pruned_head self :
  timestamped_nodes (graph self) <> [] ->
  exists h rest, pruned self = fst h :: rest /\ In h (timestamped_nodes (graph self)).
Proof.
  intros Hne. unfold pruned.
  set (sorted := stable_sort by_time (timestamped_nodes (graph self))).
  assert (0 < num_to_remove self) as Hpos by (unfold num_to_remove; lia).
  destruct (Z.to_nat (num_to_remove self)) as [|k] eqn:Ek; [lia|].
  destruct sorted as [|h tl] eqn:Es.
  - pose proof (stable_sort_length by_time (timestamped_nodes (graph self))) as Hl.
    fold sorted in Hl. rewrite Es in Hl.
    destruct (timestamped_nodes (graph self)); [congruence|discriminate].
  - exists h, (map fst (firstn k tl)). split; [reflexivity|].
    apply (stable_sort_In by_time). fold sorted. rewrite Es. left. reflexivity.
Qed.

Lemma number_of_nodes_prune_lt self :
  timestamped_nodes (graph self) <> [] ->
  comparable (timestamped_nodes (graph self)) = true ->
  Nx.number_of_nodes (graph (after (_prune_old_nodes self)))
  < Nx.number_of_nodes (graph self).
Proof.
  intros Hne Hc. rewrite graph_after_prune, Hc.
  destruct (pruned_head self Hne) as [h [rest [Hp Hin]]]. rewrite Hp.
  unfold Nx.remove_nodes_from. simpl.
  pose proof (number_of_nodes_remove_nodes_from_le (Nx.remove_node (graph self) (fst h))
                rest) as H1.
  unfold Nx.remove_nodes_from in H1.
  pose proof (number_of_nodes_remove_node_lt (graph self) (fst h)
                (timestamped_nodes_has_node _ _ Hin)). lia.
Qed.

(** ** Graphs whose times are [datetime]s *)

Lemma datetime_keys_comparable G : datetime_keys G -> comparable (timestamped_nodes G) = true.
Proof.
  unfold datetime_keys, comparable. intros H.
  destruct (timestamped_nodes G) as [|x l]; [reflexivity|].
  apply forallb_forall. intros y Hy. unfold same_kind.
  rewrite (H x (or_introl eq_refl)), (H y (or_intror Hy)). reflexivity.
Qed.

Lemma In_node_remove_node G n kv : In kv (Nx.node (Nx.remove_node G n)) -> In kv (Nx.node G).
Proof.
  unfold Nx.remove_node. destruct (Nx.has_node G n); simpl; [|auto].
  destruct kv as [k d]. intros H. apply In_dict_del in H. tauto.
Qed.

Lemma In_node_remove_nodes_from G ns kv :
  In kv (Nx.node (Nx.remove_nodes_from G ns)) -> In kv (Nx.node G).
Proof.
  unfold Nx.remove_nodes_from. revert G.
  induction ns as [|n ns IH]; simpl; intros G H; [exact H|].
  apply In_node_remove_node with (n := n). apply IH. exact H.
Qed.

Lemma timestamped_nodes_sub G G' :
  (forall kv, In kv (Nx.node G') -> In kv (Nx.node G)) ->
  forall x, In x (timestamped_nodes G') -> In x (timestamped_nodes G).
Proof.
  intros Hsub x Hx. unfold timestamped_nodes in *.
  apply in_flat_map in Hx as [kv [Hin H]]. apply in_flat_map.
  exists kv. split; [apply Hsub; exact Hin|exact H].
Qed.

Lemma datetime_keys_prune self :
  datetime_keys (graph self) -> datetime_keys (graph (after (_prune_old_nodes self))).
Proof.
  intros H. rewrite graph_after_prune.
  destruct (comparable (timestamped_nodes (graph self))); [|exact H].
  intros x Hx. apply H. revert x Hx. apply timestamped_nodes_sub.
  intros kv. apply In_node_remove_nodes_from.
Qed.

Lemma In_node_add_node G n a m data :
  In (m, data) (Nx.node (Nx.add_node G n a)) ->
  In (m, data) (Nx.node G)
  \/ (m = n /\ dict_get (Nx.node (Nx.add_node G n a)) n = Some data).
Proof.
  intros Hin.
  assert (forall d (k : string) (value : Nx.attrs),
            In (m, data) (dict_set d k value) ->
            In (m, data) d \/ (m = k /\ data = value)) as Hset.
  { intros d k value H. apply In_dict_set in H. tauto. }
  unfold Nx.add_node in *. destruct (Nx.has_node G n) eqn:E; simpl in *.
  - unfold dict_modify in *. destruct (dict_get (Nx.node G) n) as [old|] eqn:Eo; [|auto].
    apply Hset in Hin as [Hin|[-> ->]]; [auto|].
    right. split; [reflexivity|]. apply dict_get_set_eq.
  - apply Hset in Hin as [Hin|[-> ->]]; [auto|].
    right. split; [reflexivity|]. apply dict_get_set_eq.
Qed.

(** The node an accepted call of [add_activity_node] writes carries the
    call's [timestamp]. *)
Lemma timestamp_activity_put self id ty ts a data :
  clashes a activity_keywords = false ->
  dict_get (Nx.node (graph (activity_put self id ty ts a))) id = Some data ->
  dict_get data "timestamp" = Some (PTime ts).
Proof.
  intros Hc Hd. unfold activity_put in Hd. cbn [graph with_graph] in Hd.
  rewrite dict_get_node_add_node, String.eqb_refl in Hd.
  assert (dict_has a "timestamp" = false) as Ha.
  { apply (EdgeUpsert.clashes_false a activity_keywords); [exact Hc|simpl; auto 6]. }
  assert (forall old,
            dict_get (dict_update old
                        ([("node_type", PStr "activity"); ("activity_type", PStr ty);
                          ("timestamp", PTime ts)] ++ a)%list) "timestamp"
            = Some (PTime ts)) as Hts.
  { intros old. rewrite EdgeUpsert.dict_update_app.
    rewrite EdgeUpsert.dict_get_update_other by exact Ha.
    unfold dict_update. simpl. apply dict_get_set_eq. }
  injection Hd as <-. apply Hts.
Qed.

Lemma datetime_keys_activity_put self id ty ts a :
  clashes a activity_keywords = false ->
  datetime_keys (graph self) -> datetime_keys (graph (activity_put self id ty ts a)).
Proof.
  intros Hc H x Hx. unfold timestamped_nodes in Hx.
  apply in_flat_map in Hx as [[m data] [Hin Hx]].
  apply In_node_add_node in Hin as [Hin|[-> Hd]].
  - apply H. unfold timestamped_nodes. apply in_flat_map. exists (m, data). auto.
  - destruct (_ || _); [|destruct Hx]. destruct Hx as [<-|[]].
    unfold prune_key, node_time. simpl snd.
    rewrite (timestamp_activity_put self id ty ts a data Hc Hd). reflexivity.
Qed.

Lemma timestamped_activity_put self id ty ts a :
  clashes a activity_keywords = false ->
  timestamped_nodes (graph (activity_put self id ty ts a)) <> [].
Proof.
  intros Hc.
  destruct (dict_get (Nx.node (graph (activity_put self id ty ts a))) id) as [data|] eqn:Hd.
  - pose proof (timestamp_activity_put self id ty ts a data Hc Hd) as Hts.
    apply dict_get_In in Hd.
    apply timestamped_nodes_In in Hd; [|rewrite Hts; reflexivity].
    intros E. rewrite E in Hd. destruct Hd.
  - exfalso. unfold activity_put in Hd. cbn [graph with_graph] in Hd.
    rewrite dict_get_node_add_node, String.eqb_refl in Hd. discriminate.
Qed.

(** The bound is kept by [add_activity_node] on a graph whose times are
    [datetime]s: from such a graph within its capacity the call returns and
    leads to such a graph within its capacity. *)
Lemma add_activity_node_within_capacity self id ty ts a :
  clashes a activity_keywords = false ->
  datetime_keys (graph self) ->
  Nx.number_of_nodes (graph self) <= max_nodes self ->
  raised (add_activity_node self id ty ts a) = None
  /\ Nx.number_of_nodes (graph (after (add_activity_node self id ty ts a)))
     <= max_nodes self
  /\ max_nodes (after (add_activity_node self id ty ts a)) = max_nodes self
  /\ datetime_keys (graph (after (add_activity_node self id ty ts a))).
Proof.
  intros Hc Hk Hle. rewrite add_activity_node_cases, Hc.
  set (self1 := activity_put self id ty ts a).
  pose proof (datetime_keys_activity_put self id ty ts a Hc Hk) as Hk1. fold self1 in Hk1.
  pose proof (number_of_nodes_add_node (graph self) id
                ([("node_type", PStr "activity"); ("activity_type", PStr ty);
                  ("timestamp", PTime ts)] ++ a)%list) as Hn.
  change (Nx.add_node (graph self) id _) with (graph self1) in Hn.
  destruct (Z.gtb_spec (Nx.number_of_nodes (graph self1)) (max_nodes self)) as [Hgt|Hok].
  - pose proof (datetime_keys_comparable _ Hk1) as Hcmp.
    pose proof (number_of_nodes_prune_lt self1
                  (timestamped_activity_put self id ty ts a Hc) Hcmp) as Hlt.
    split; [rewrite raised_prune, Hcmp; reflexivity|].
    split; [destruct (Nx.has_node (graph self) id); lia|].
    split; [rewrite max_nodes_after_prune; reflexivity|].
    apply datetime_keys_prune. exact Hk1.
  - split; [reflexivity|]. split; [exact Hok|]. split; [reflexivity|exact Hk1].
Qed.

(** C4.  The capacity bound is not kept by [add_context_node]: it has no
    pruning step.  On a graph holding exactly [max_nodes] = 2 nodes the
    insertion of a context node returns and leaves three nodes at rest, and
    a later [add_activity_node] returns, having pruned one node, and still
    leaves three. *)
Theorem add_context_node_exceeds_max_nodes :
  let self := Examples.full in
  let call1 := add_context_node self 9 "c1" "project" [] in
  let self1 := after call1 in
  let call2 := add_activity_node self1 "a3" "window_focus" 10 [] in
  let self2 := after call2 in
  max_nodes self = 2
  /\ Nx.number_of_nodes (graph self) = 2
  /\ raised call1 = None
  /\ Nx.number_of_nodes (graph self1) = 3
  /\ max_nodes self1 = 2
  /\ raised call2 = None
  /\ Nx.number_of_nodes (graph self2) = 3
  /\ max_nodes self2 = 2.
Proof. cbv zeta. repeat split. Qed.

End Capacity.

(* ================================================================== *)
(** * Traversal *)
(* ================================================================== *)

Module Traversal.
Import DictFacts SortFacts GraphFacts Spec TemporalGraph.

Lemma eq_str_true o s : eq_str o s = true -> o = Some (PStr s).
Proof.
  destruct o as [[]|]; simpl; try discriminate.
  intros H. apply String.eqb_eq in H. subst. reflexivity.
Qed.

Lemma neighbors_edge_data G u v :
  In v (Nx.neighbors G u) -> exists d, Nx.edge_data G u v = Some d.
Proof.
  unfold Nx.neighbors, Nx.edge_data. intros H.
  apply dict_has_In in H. apply dict_has_get in H. exact H.
Qed.

Lemma neighbors_targets G u v : In v (Nx.neighbors G u) -> In v (targets G).
Proof.
  intros H. destruct (neighbors_edge_data G u v H) as [d Hd].
  unfold targets. apply in_map_iff. exists (u, v, d). split; [reflexivity|].
  apply GraphFacts.In_edges_nowf. exact Hd.
Qed.

Lemma filter_length_le {A} (p q : A -> bool) (l : list A) :
  (forall y, q y = true -> p y = true) ->
  (List.length (filter q l) <= List.length (filter p l))%nat.
Proof.
  intros Hqp. induction l as [|y l IH]; simpl; [lia|].
  destruct (q y) eqn:Eq.
  - rewrite (Hqp y Eq). simpl. lia.
  - destruct (p y); simpl; lia.
Qed.

Lemma filter_length_lt {A} (p q : A -> bool) (l : list A) (x : A) :
  (forall y, q y = true -> p y = true) ->
  In x l -> p x = true -> q x = false ->
  (List.length (filter q l) < List.length (filter p l))%nat.
Proof.
  intros Hqp Hin Hp Hq. induction l as [|y l IH]; simpl; [destruct Hin|].
  destruct Hin as [->|Hin].
  - rewrite Hp, Hq. simpl. pose proof (filter_length_le p q l Hqp). lia.
  - specialize (IH Hin). destruct (q y) eqn:Eq.
    + rewrite (Hqp y Eq). simpl. lia.
    + destruct (p y); simpl; lia.
Qed.

Lemma unvisited_cons_lt G v vis :
  In v (targets G) -> in_visited v vis = false ->
  (unvisited G (v :: vis) < unvisited G vis)%nat.
Proof.
  intros Hin Hv. unfold unvisited. apply (filter_length_lt _ _ _ v).
  - intros y. unfold in_visited. simpl. rewrite !negb_true_iff.
    intros H. apply orb_false_iff in H. tauto.
  - exact Hin.
  - rewrite Hv. reflexivity.
  - unfold in_visited. simpl. rewrite String.eqb_refl. reflexivity.
Qed.

Section Soundness.
Variable G : Nx.DiGraph.
Variable max_depth : Z.
Variable min_strength : Q.
Variable start : string.

Lemma visit_neighbor_good current depth cum st v :
  discovered G min_strength start current depth cum ->
  0 <= depth -> depth < max_depth ->
  In v (Nx.neighbors G current) ->
  Forall (good_item G max_depth min_strength start) (queue st) -> Forall (good_found G max_depth min_strength start) (found st) ->
  Forall (good_item G max_depth min_strength start) (queue (visit_neighbor G min_strength current depth cum st v))
  /\ Forall (good_found G max_depth min_strength start) (found (visit_neighbor G min_strength current depth cum st v)).
Proof.
  intros Hd H0 Hlt Hin Hq Hf. unfold visit_neighbor.
  destruct (in_visited v (visited st)); [auto|].
  destruct (neighbors_edge_data G current v Hin) as [d Ed]. rewrite Ed.
  destruct (Qltb (get_strength d 0) min_strength) eqn:Ew; [auto|].
  assert (discovered G min_strength start v (depth + 1) (cum * get_strength d 0)%Q) as Hv.
  { eapply disc_step; eauto. intros Hlt'. apply Decay.Qltb_lt in Hlt'. congruence. }
  simpl. split.
  - apply Forall_app. split; [exact Hq|]. constructor; [|constructor].
    unfold good_item. simpl. repeat split; [exact Hv|lia|right; lia].
  - destruct (eq_str _ "activity") eqn:Ea; [|exact Hf].
    apply Forall_app. split; [exact Hf|]. constructor; [|constructor].
    unfold good_found. simpl. split; [exact Hv|]. split; [lia|].
    apply eq_str_true in Ea.
    destruct (dict_get (Nx.node G) v) as [nd|] eqn:En; [|discriminate].
    exists nd. auto.
Qed.

Lemma visit_neighbors_good current depth cum ns st :
  discovered G min_strength start current depth cum ->
  0 <= depth -> depth < max_depth ->
  (forall v, In v ns -> In v (Nx.neighbors G current)) ->
  Forall (good_item G max_depth min_strength start) (queue st) -> Forall (good_found G max_depth min_strength start) (found st) ->
  let st' := fold_left (visit_neighbor G min_strength current depth cum) ns st in
  Forall (good_item G max_depth min_strength start) (queue st') /\ Forall (good_found G max_depth min_strength start) (found st').
Proof.
  intros Hd H0 Hlt. revert st.
  induction ns as [|v ns IH]; simpl; intros st Hns Hq Hf; [auto|].
  destruct (visit_neighbor_good current depth cum st v Hd H0 Hlt) as [Hq' Hf']; auto.
Qed.

Lemma bfs_loop_good fuel st res :
  Forall (good_item G max_depth min_strength start) (queue st) -> Forall (good_found G max_depth min_strength start) (found st) ->
  bfs_loop fuel G max_depth min_strength st = Some res ->
  Forall (good_found G max_depth min_strength start) res.
Proof.
  revert st. induction fuel as [|fuel IH]; intros st Hq Hf; simpl.
  - destruct (queue st) as [|[[n depth] s] rest]; [|discriminate].
    intros [= <-]. exact Hf.
  - destruct (queue st) as [|[[n depth] s] rest] eqn:Eq.
    + intros [= <-]. exact Hf.
    + inversion Hq as [|? ? [Hd [H0 Hmax]] Hrest]; subst. simpl in Hd, H0, Hmax.
      destruct (Z.geb_spec depth max_depth) as [Hge|Hlt].
      * apply IH; simpl; assumption.
      * destruct (visit_neighbors_good n depth s (Nx.neighbors G n)
                    (mkBfs (visited st) rest (found st)) Hd H0 Hlt) as [Hq' Hf']; auto.
        apply IH; assumption.
Qed.

Lemma visit_neighbor_measure current depth cum st v :
  In v (Nx.neighbors G current) ->
  let st' := visit_neighbor G min_strength current depth cum st v in
  (List.length (queue st') + unvisited G (visited st')
   <= List.length (queue st) + unvisited G (visited st))%nat.
Proof.
  intros Hin. unfold visit_neighbor.
  destruct (in_visited v (visited st)) eqn:Ev; [simpl; lia|].
  destruct (Qltb _ min_strength); [simpl; lia|].
  simpl. rewrite length_app. simpl.
  pose proof (unvisited_cons_lt G v (visited st) (neighbors_targets G current v Hin) Ev).
  lia.
Qed.

Lemma visit_neighbors_measure current depth cum ns st :
  (forall v, In v ns -> In v (Nx.neighbors G current)) ->
  let st' := fold_left (visit_neighbor G min_strength current depth cum) ns st in
  (List.length (queue st') + unvisited G (visited st')
   <= List.length (queue st) + unvisited G (visited st))%nat.
Proof.
  revert st. induction ns as [|v ns IH]; simpl; intros st Hns; [lia|].
  specialize (IH (visit_neighbor G min_strength current depth cum st v)
                (fun w Hw => Hns w (or_intror Hw))).
  pose proof (visit_neighbor_measure current depth cum st v (Hns v (or_introl eq_refl))).
  simpl in *. lia.
Qed.

(** The loop ends before its fuel does: each turn takes one entry from the
    queue, and an entry is only added for a target not reached before. *)
Lemma bfs_loop_total fuel st :
  (List.length (queue st) + unvisited G (visited st) <= fuel)%nat ->
  exists res, bfs_loop fuel G max_depth min_strength st = Some res.
Proof.
  revert st. induction fuel as [|fuel IH]; intros st Hm; simpl.
  - destruct (queue st); [eauto|simpl in Hm; lia].
  - destruct (queue st) as [|[[n depth] s] rest] eqn:Eq; [eauto|].
    simpl in Hm. destruct (depth >=? max_depth).
    + apply IH. simpl. lia.
    + apply IH.
      pose proof (visit_neighbors_measure n depth s (Nx.neighbors G n)
                    (mkBfs (visited st) rest (found st)) (fun _ H => H)) as Hle.
      simpl in Hle. lia.
Qed.

End Soundness.

(** ** Nothing within reach is missed *)
Lemma in_visited_In x V : in_visited x V = true <-> In x V.
Proof.
  unfold in_visited. rewrite existsb_exists. split.
  - intros [y [Hy E]]. apply String.eqb_eq in E. subst. exact Hy.
  - intros H. exists x. split; [exact H|apply String.eqb_refl].
Qed.

Lemma strong_neighbor G ms u v : strong G ms u v -> In v (Nx.neighbors G u).
Proof.
  intros [d [Hd _]]. unfold Nx.neighbors, Nx.edge_data in *.
  apply dict_has_In. apply dict_has_get. eauto.
Qed.

Section Completeness.
Variable G : Nx.DiGraph.
Variable max_depth : Z.
Variable min_strength : Q.
Variable start : string.

Lemma discovered_nonneg x j s : discovered G min_strength start x j s -> 0 <= j.
Proof. induction 1; lia. Qed.

Lemma discovered_last x j s :
  discovered G min_strength start x j s ->
  (x = start /\ j = 0)
  \/ exists u s', discovered G min_strength start u (j - 1) s'
                  /\ strong G min_strength u x.
Proof.
  intros H. destruct H as [|u v d depth s H Hd Hs].
  - left. auto.
  - right. exists u, s. replace (depth + 1 - 1) with depth by lia.
    split; [exact H|]. exists d. auto.
Qed.

Lemma inv_init :
  bfs_inv G max_depth min_strength start no_exempt [] 0
    (mkBfs [start] [(start, 0, 1%Q)] []).
Proof.
  constructor; simpl.
  - auto.
  - intros x. tauto.
  - intros x kx [].
  - intros x kx sx [E|[]] j s Hd. injection E as <- <- <-.
    eapply discovered_nonneg; eauto.
  - exists [(start, 0, 1%Q)], []. split; [reflexivity|]. split.
    + intros i [<-|[]]. reflexivity.
    + intros i [].
  - intros x kx [].
  - intros x j s H Hj _. left. pose proof (discovered_nonneg _ _ _ H).
    destruct (discovered_last _ _ _ H) as [[-> _]|[u [s' [Hu _]]]]; [reflexivity|].
    pose proof (discovered_nonneg _ _ _ Hu). lia.
  - intros u ku [].
  - intros x kx [].
  - intros x kx sx [E|[]] Hne. injection E as <- <- <-. congruence.
  - intros r [].
Qed.

Lemma inv_mono (ex ex' : string -> string -> Prop) P k st :
  (forall a v, strong G min_strength a v -> ex a v -> ex' a v) ->
  bfs_inv G max_depth min_strength start ex P k st ->
  bfs_inv G max_depth min_strength start ex' P k st.
Proof.
  intros Himp [H1 H2 H3 H4 H5 H6 H7 H8 H9 H10 H11]. constructor; auto.
  intros u ku Hin Hlt v Hs. destruct (H8 u ku Hin Hlt v Hs); auto.
Qed.

(** The depth of the head of the queue is the depth the loop works at, once
    the loop has moved on to the next level when the current one is done. *)
Lemma inv_head P k st u ku s rest :
  bfs_inv G max_depth min_strength start no_exempt P k st ->
  queue st = (u, ku, s) :: rest ->
  bfs_inv G max_depth min_strength start no_exempt P ku st
  /\ exists Qa Qb, rest = (Qa ++ Qb)%list
                   /\ (forall i, In i Qa -> snd (fst i) = ku)
                   /\ (forall i, In i Qb -> snd (fst i) = ku + 1).
Proof.
  intros I HQ. destruct (inv_levels _ _ _ _ _ _ _ _ I) as [Qa [Qb [Hq [Ha Hb]]]].
  rewrite HQ in Hq. destruct Qa as [|i Qa].
  - simpl in Hq. assert (ku = k + 1) as ->.
    { specialize (Hb (u, ku, s)). rewrite <- Hq in Hb. apply Hb. left. reflexivity. }
    split.
    + destruct I as [H1 H2 H3 H4 H5 H6 H7 H8 H9 H10 H11]. constructor; auto.
      * exists Qb, []. rewrite app_nil_r. split; [congruence|]. split; [exact Hb|].
        intros i [].
      * intros x kx Hin. specialize (H6 x kx Hin). lia.
      * intros x j s0 Hd Hj Hmax.
        destruct (Z_le_gt_dec j k) as [Hle|Hgt]; [eapply H7; eauto|].
        assert (j = k + 1) as -> by lia.
        destruct (discovered_last _ _ _ Hd) as [[-> _]|[u' [s' [Hu' Hs']]]];
          [exact H1|].
        replace (k + 1 - 1) with k in Hu' by lia.
        assert (In u' (visited st)) as Hv by (eapply H7; eauto; lia).
        apply H2 in Hv as [Hv|Hv].
        -- apply in_map_iff in Hv as [[u'' ku'] [E Hin]]. simpl in E. subst u''.
           pose proof (H3 _ _ Hin _ _ Hu').
           destruct (H8 u' ku' Hin ltac:(lia) x Hs') as [[]|Hx]. exact Hx.
        -- apply in_map_iff in Hv as [[[u'' ku'] su'] [E Hin]]. simpl in E. subst u''.
           pose proof (H4 _ _ _ Hin _ _ Hu') as Hmin.
           rewrite HQ, Hq in Hin. specialize (Hb _ Hin). simpl in Hb. lia.
    + exists rest, []. rewrite app_nil_r. split; [reflexivity|]. split; [|intros i []].
      intros i Hi. apply Hb. rewrite <- Hq. right. exact Hi.
  - simpl in Hq. injection Hq as <- ->.
    assert (ku = k) as -> by (apply (Ha (u, ku, s)); left; reflexivity).
    split; [exact I|]. exists Qa, Qb. split; [reflexivity|]. split; [|exact Hb].
    intros i Hi. apply Ha. right. exact Hi.
Qed.

(** Taking the head from the queue. *)
Lemma inv_pop (ex : string -> string -> Prop) P k st u s rest :
  bfs_inv G max_depth min_strength start no_exempt P k st ->
  queue st = (u, k, s) :: rest ->
  (exists Qa Qb, rest = (Qa ++ Qb)%list
                 /\ (forall i, In i Qa -> snd (fst i) = k)
                 /\ (forall i, In i Qb -> snd (fst i) = k + 1)) ->
  (forall v, k < max_depth -> strong G min_strength u v -> ex u v) ->
  bfs_inv G max_depth min_strength start ex ((u, k) :: P) k
    (mkBfs (visited st) rest (found st)).
Proof.
  intros [H1 H2 H3 H4 H5 H6 H7 H8 H9 H10 H11] HQ Hlev Hex.
  rewrite HQ in *. constructor; simpl.
  - exact H1.
  - intros x. rewrite H2. simpl. tauto.
  - intros x kx [[= <- <-]|Hin]; [eapply H4; left; reflexivity|eapply H3; eauto].
  - intros x kx sx Hin. eapply H4. right. exact Hin.
  - exact Hlev.
  - intros x kx [[= <- <-]|Hin]; [lia|eapply H6; eauto].
  - exact H7.
  - intros a ka [[= <- <-]|Hin] Hlt v Hs.
    + left. apply Hex; assumption.
    + destruct (H8 a ka Hin Hlt v Hs) as [[]|Hv]. right. exact Hv.
  - intros x kx [[= <- <-]|Hin]; [eapply H10; left; reflexivity|eapply H9; eauto].
  - intros x kx sx Hin. eapply H10. right. exact Hin.
  - intros r Hr. destruct (H11 r Hr) as [Hin|[sx [Heq|Hin]]].
    + left. right. exact Hin.
    + left. left. congruence.
    + right. eauto.
Qed.

(** One neighbour of the node in work. *)
Lemma visit_neighbor_inv P k u s done st w :
  bfs_inv G max_depth min_strength start (exempt_after u done) P k st ->
  k < max_depth ->
  bfs_inv G max_depth min_strength start (exempt_after u (done ++ [w])) P k
    (visit_neighbor G min_strength u k s st w).
Proof.
  intros I Hlt.
  assert (forall v, ~ In v done -> v <> w -> ~ In v (done ++ [w])) as Hdone.
  { intros v H1 H2 Hin. apply in_app_iff in Hin as [Hin|[Hin|[]]]; auto. }
  unfold visit_neighbor.
  destruct (in_visited w (visited st)) eqn:Ev.
  { apply in_visited_In in Ev. destruct I as [H1 H2 H3 H4 H5 H6 H7 H8 H9 H10 H11].
    constructor; auto. intros a ka Hin Hl v Hs.
    destruct (H8 a ka Hin Hl v Hs) as [[-> Hnd]|Hv]; [|auto].
    destruct (String.eqb_spec v w) as [->|Hne]; [auto|].
    left. split; auto. }
  destruct (Qltb (get_strength
                    match Nx.edge_data G u w with Some d => d | None => [] end 0)
              min_strength) eqn:Ew.
  { destruct I as [H1 H2 H3 H4 H5 H6 H7 H8 H9 H10 H11].
    constructor; auto. intros a ka Hin Hl v Hs.
    destruct (H8 a ka Hin Hl v Hs) as [[-> Hnd]|Hv]; [|auto].
    destruct (String.eqb_spec v w) as [->|Hne]; [|left; split; auto].
    exfalso. destruct Hs as [d [Hd Hs]]. rewrite Hd in Ew.
    apply Decay.Qltb_lt in Ew. contradiction. }
  assert (~ In w (visited st)) as Hw.
  { intros H. apply in_visited_In in H. congruence. }
  set (edge_data := match Nx.edge_data G u w with Some d => d | None => [] end) in *.
  set (s' := (s * get_strength edge_data 0)%Q).
  destruct I as [H1 H2 H3 H4 H5 H6 H7 H8 H9 H10 H11].
  constructor; cbn [visited queue found].
  - right. exact H1.
  - intros x. rewrite map_app, in_app_iff. simpl. rewrite H2. tauto.
  - exact H3.
  - intros x kx sx Hin. apply in_app_iff in Hin as [Hin|[E|[]]];
      [eapply H4; eauto|]. injection E as E1 E2 E3. subst x kx sx.
    intros j s0 Hd. destruct (Z_le_gt_dec j k) as [Hle|Hgt]; [|lia].
    exfalso. apply Hw. eapply H7; eauto. lia.
  - destruct H5 as [Qa [Qb [Hq [Ha Hb]]]].
    exists Qa, (Qb ++ [(w, k + 1, s')])%list. rewrite Hq, app_assoc.
    split; [reflexivity|]. split; [exact Ha|].
    intros i Hi. apply in_app_iff in Hi as [Hi|[<-|[]]]; [auto|reflexivity].
  - exact H6.
  - intros x j s0 Hd Hj Hm. right. eapply H7; eauto.
  - intros a ka Hin Hl v Hs.
    destruct (H8 a ka Hin Hl v Hs) as [[-> Hnd]|Hv]; [|right; right; exact Hv].
    destruct (String.eqb_spec v w) as [->|Hne]; [right; left; reflexivity|].
    left. split; [reflexivity|auto].
  - intros x kx Hin Hne Hact. destruct (H9 x kx Hin Hne Hact) as [r [Hr Hr']].
    exists r. split; [|exact Hr'].
    destruct (eq_str _ "activity"); [apply in_or_app; left|]; exact Hr.
  - intros x kx sx Hin Hne Hact.
    apply in_app_iff in Hin as [Hin|[E|[]]];
      [|injection E as E1 E2 E3; subst x kx sx].
    + destruct (H10 x kx sx Hin Hne Hact) as [r [Hr Hr']].
      exists r. split; [|exact Hr'].
      destruct (eq_str _ "activity"); [apply in_or_app; left|]; exact Hr.
    + match goal with
      | |- context [if ?c then _ else _] =>
          replace c with true by (symmetry; exact Hact)
      end.
      eexists. split; [apply in_or_app; right; left; reflexivity|].
      split; reflexivity.
  - intros r Hr.
    assert (In r (found st)
            \/ (rel_activity_id r = w /\ rel_depth r = k + 1)) as [Hold|[E1 E2]].
    { destruct (eq_str _ "activity"); [|left; exact Hr].
      apply in_app_iff in Hr as [Hr|[<-|[]]]; [left; exact Hr|right; split; reflexivity]. }
    + destruct (H11 r Hold) as [Hin|[sx Hin]]; [left; exact Hin|].
      right. exists sx. apply in_or_app. left. exact Hin.
    + right. exists s'. apply in_or_app. right. left. rewrite E1, E2. reflexivity.
Qed.

Lemma visit_neighbors_inv P k u s ns done st :
  bfs_inv G max_depth min_strength start (exempt_after u done) P k st ->
  k < max_depth ->
  bfs_inv G max_depth min_strength start (exempt_after u (done ++ ns)) P k
    (fold_left (visit_neighbor G min_strength u k s) ns st).
Proof.
  revert done st. induction ns as [|w ns IH]; simpl; intros done st I Hlt.
  - rewrite app_nil_r. exact I.
  - replace (done ++ w :: ns)%list with ((done ++ [w]) ++ ns)%list
      by (rewrite <- app_assoc; reflexivity).
    apply IH; [|exact Hlt]. apply visit_neighbor_inv; assumption.
Qed.

(** The invariant holds when the loop ends. *)
Lemma bfs_loop_inv fuel st P k res :
  bfs_inv G max_depth min_strength start no_exempt P k st ->
  bfs_loop fuel G max_depth min_strength st = Some res ->
  exists P' k' V,
    bfs_inv G max_depth min_strength start no_exempt P' k' (mkBfs V [] res).
Proof.
  revert st P k. induction fuel as [|fuel IH]; intros st P k I; simpl.
  - destruct st as [V Q F]. simpl. destruct Q as [|[[u ku] s] rest]; [|discriminate].
    intros [= <-]. eauto.
  - destruct (queue st) as [|[[u ku] s] rest] eqn:HQ.
    + destruct st as [V Q F]. simpl in *. subst Q. intros [= <-]. eauto.
    + destruct (inv_head P k st u ku s rest I HQ) as [I' Hlev].
      destruct (Z.geb_spec ku max_depth) as [Hge|Hlt].
      * apply (IH _ ((u, ku) :: P) ku).
        apply (inv_pop no_exempt P ku st u s rest I' HQ Hlev). intros v Hl. lia.
      * apply (IH _ ((u, ku) :: P) ku).
        apply (inv_mono (exempt_after u ([] ++ Nx.neighbors G u))).
        { intros a v Hs [-> Hn]. apply Hn. simpl. apply strong_neighbor in Hs. exact Hs. }
        apply visit_neighbors_inv; [|exact Hlt].
        apply (inv_pop (exempt_after u []) P ku st u s rest I' HQ Hlev).
        intros v _ _. split; [reflexivity|intros []].
Qed.

(** What the invariant says of the results once the queue is empty. *)
Lemma inv_final P k V res :
  bfs_inv G max_depth min_strength start no_exempt P k (mkBfs V [] res) ->
  (forall x j s, discovered G min_strength start x j s -> j <= max_depth ->
     x <> start -> is_activity G x = true ->
     exists r, In r res /\ rel_activity_id r = x /\ rel_depth r <= j)
  /\ (forall r, In r res ->
        forall j s, discovered G min_strength start (rel_activity_id r) j s ->
        rel_depth r <= j).
Proof.
  intros [H1 H2 H3 H4 H5 H6 H7 H8 H9 H10 H11]. simpl in *.
  assert (forall x, In x V -> exists kx, In (x, kx) P) as HP.
  { intros x Hx. apply H2 in Hx as [Hx|[]].
    apply in_map_iff in Hx as [[x' kx] [E Hin]]. simpl in E. subst. eauto. }
  assert (forall x j s, discovered G min_strength start x j s -> j <= max_depth ->
            In x V) as Hall.
  { intros x j s Hd. induction Hd as [|u v d depth s Hd IH He Hs]; intros Hj.
    - exact H1.
    - pose proof (discovered_nonneg _ _ _ Hd).
      destruct (HP u (IH ltac:(lia))) as [ku Hin].
      pose proof (H3 _ _ Hin _ _ Hd).
      destruct (H8 u ku Hin ltac:(lia) v) as [[]|Hv]; [exists d; auto|exact Hv]. }
  split.
  - intros x j s Hd Hj Hne Hact.
    destruct (HP x (Hall x j s Hd Hj)) as [kx Hin].
    destruct (H9 x kx Hin Hne Hact) as [r [Hr [E1 E2]]].
    exists r. split; [exact Hr|]. split; [exact E1|].
    rewrite E2. eapply H3; eauto.
  - intros r Hr j s Hd. destruct (H11 r Hr) as [Hin|[sx []]].
    eapply H3; eauto.
Qed.

End Completeness.

Lemma Qleb_total a b : Qleb a b = true \/ Qleb b a = true.
Proof.
  unfold Qleb. destruct (Qlt_le_dec b a) as [H|H].
  - right. apply Qle_bool_iff. apply Qlt_le_weak. exact H.
  - left. apply Qle_bool_iff. exact H.
Qed.

Lemma Qleb_trans a b c : Qleb a b = true -> Qleb b c = true -> Qleb a c = true.
Proof.
  unfold Qleb. rewrite !Qle_bool_iff. apply Qle_trans.
Qed.

(** C5.  [get_related_activities] always returns.  Every entry it returns
    was reached from the start node by a walk of outgoing edges, none weaker
    than [min_strength]; the entry's depth is the length of that walk,
    between 1 and [max_depth], and its strength is the product of the
    strengths of the walk's edges; the entry's node is in the graph with
    [node_type] ['activity']; and the list is sorted by strength, largest
    first.  The traversal is breadth first: no walk to an entry's node is
    shorter than the entry's depth.  It passes through nodes of any kind:
    from a start node in the graph, every activity node other than the start
    that some walk of at most [max_depth] such edges leads to is returned,
    whatever the nodes on the walk are. *)
Theorem get_related_activities_breadth_first
    (self : t) (activity_id : string) (max_depth : Z) (min_strength : Q) :
  exists res,
    get_related_activities self activity_id max_depth min_strength = Some res
    /\ (forall r, In r res ->
          discovered (graph self) min_strength activity_id
            (rel_activity_id r) (rel_depth r) (rel_strength r)
          /\ 1 <= rel_depth r <= max_depth
          /\ exists node_data,
               dict_get (Nx.node (graph self)) (rel_activity_id r) = Some node_data
               /\ dict_get node_data "node_type" = Some (PStr "activity")
               /\ rel_activity_type r = dict_get node_data "activity_type"
               /\ rel_timestamp r = dict_get node_data "timestamp")
    /\ StronglySorted (fun x y => (rel_strength y <= rel_strength x)%Q) res
    /\ (forall r, In r res ->
          forall j s,
            discovered (graph self) min_strength activity_id (rel_activity_id r) j s ->
            rel_depth r <= j)
    /\ (Nx.has_node (graph self) activity_id = true ->
        forall v j s,
          discovered (graph self) min_strength activity_id v j s ->
          j <= max_depth -> v <> activity_id ->
          is_activity (graph self) v = true ->
          exists r, In r res /\ rel_activity_id r = v /\ rel_depth r <= j).
Proof.
  unfold get_related_activities.
  destruct (Nx.has_node (graph self) activity_id); cbn [negb].
  - set (st0 := mkBfs [activity_id] [(activity_id, 0, 1%Q)] []).
    destruct (bfs_loop_total (graph self) max_depth min_strength
                (bfs_fuel (graph self)) st0) as [found Hfound].
    { unfold bfs_fuel, unvisited, targets. subst st0. cbn [queue visited List.length].
      pose proof (filter_length_le (fun _ : string => true)
                    (fun v => negb (in_visited v [activity_id]))
                    (map (fun '(_, v, _) => v) (Nx.edges (graph self)))
                    (fun _ _ => eq_refl)) as Hle.
      assert (forall (l : list string), filter (fun _ => true) l = l) as Hid.
      { induction l as [|x l IHl]; simpl; [|rewrite IHl]; reflexivity. }
      rewrite Hid, length_map in Hle. lia. }
    rewrite Hfound.
    destruct (bfs_loop_inv (graph self) max_depth min_strength activity_id
                (bfs_fuel (graph self)) st0 [] 0 found
                (inv_init (graph self) max_depth min_strength activity_id) Hfound)
      as [P [k [V Hinv]]].
    destruct (inv_final (graph self) max_depth min_strength activity_id P k V found Hinv)
      as [Hcomplete Hmin].
    eexists. split; [reflexivity|]. split; [|split; [|split]].
    + intros r Hr. apply (stable_sort_In _ found r) in Hr.
      assert (Forall (good_found (graph self) max_depth min_strength activity_id) found)
        as Hgood.
      { eapply bfs_loop_good; [| |exact Hfound]; simpl.
        - constructor; [|constructor]. unfold good_item. simpl.
          repeat split; [constructor|lia|left; reflexivity].
        - constructor. }
      rewrite Forall_forall in Hgood. apply Hgood. exact Hr.
    + eapply StronglySorted_impl_local.
      * apply (stable_sort_sorted (fun x y => Qleb (rel_strength y) (rel_strength x))).
        -- intros x y. apply Qleb_total.
        -- intros x y z H1 H2. eapply Qleb_trans; eauto.
      * simpl. intros x y H. apply Qle_bool_iff. exact H.
    + intros r Hr. apply (stable_sort_In _ found r) in Hr. apply Hmin. exact Hr.
    + intros _ v j s Hd Hj Hne Hact.
      destruct (Hcomplete v j s Hd Hj Hne Hact) as [r [Hr Hr']].
      exists r. split; [apply stable_sort_In; exact Hr|exact Hr'].
  - exists []. split; [reflexivity|]. split; [intros r []|].
    split; [constructor|]. split; [intros r []|discriminate].
Qed.

(** On the sample graph a1 -> c1 -> a2 the context node c1 is passed
    through and not returned: the only result is a2, at depth 2. *)
Example related_through_context :
  option_map (map (fun r => (rel_activity_id r, rel_depth r)))
    (get_related_activities Examples.bridge "a1" 2 (1 # 10))
  = Some [("a2", 2)].
Proof. reflexivity. Qed.

(** The scenario of three activities in a row. *)
Example related_chain :
  option_map (map (fun r => (rel_activity_id r, rel_depth r, Qred (rel_strength r))))
    (get_related_activities Examples.chain "a1" 2 (1 # 10))
  = Some [("a2", 1, 4 # 5); ("a3", 2, 2 # 5)].
Proof. reflexivity. Qed.

End Traversal.

(* ================================================================== *)
(** * Fusion *)
(* ================================================================== *)

Module FusionFacts.
Import DictFacts SortFacts Spec ContextPredictor.

(** ** Substrings *)

Lemma prefix_app t s : String.prefix t (t ++ s) = true.
Proof. induction t as [|c t IH]; simpl; [destruct s; reflexivity|].
  destruct (Ascii.ascii_dec c c); [exact IH|congruence].
Qed.

Lemma prefix_refl t : String.prefix t t = true.
Proof. induction t as [|c t IH]; simpl; [reflexivity|].
  destruct (Ascii.ascii_dec c c); [exact IH|congruence].
Qed.

Lemma prefix_app_l t s b : String.prefix t s = true -> String.prefix t (s ++ b) = true.
Proof.
  revert s. induction t as [|c t IH]; intros s; simpl.
  - intros _. destruct (s ++ b); reflexivity.
  - destruct s as [|c' s]; simpl; [discriminate|].
    destruct (Ascii.ascii_dec c c'); [apply IH|discriminate].
Qed.

Lemma contains_refl s : contains s s = true.
Proof. destruct s; simpl; [reflexivity|]. rewrite prefix_refl.
  destruct (Ascii.ascii_dec a a); [reflexivity|congruence].
Qed.

Lemma contains_unfold s t :
  contains s t = String.prefix t s
                 || match s with EmptyString => false | String _ s' => contains s' t end.
Proof.
  destruct s as [|c s']; cbn [contains];
    match goal with |- context [String.prefix ?a ?b] => destruct (String.prefix a b) end;
    reflexivity.
Qed.

(** A substring of [s] is a substring of [s ++ b] ... *)
Lemma contains_app_l s b t : contains s t = true -> contains (s ++ b) t = true.
Proof.
  induction s as [|c s IH]; intros H.
  - rewrite contains_unfold in H. rewrite orb_false_r in H.
    destruct t; [|discriminate]. rewrite contains_unfold. simpl.
    destruct b; reflexivity.
  - rewrite contains_unfold in H. apply orb_true_iff in H as [H|H].
    + rewrite contains_unfold. rewrite (prefix_app_l t (String c s) b H). reflexivity.
    + cbn [append]. rewrite contains_unfold. cbv iota. rewrite (IH H). apply orb_true_r.
Qed.

(** ... and of [a ++ s]. *)
Lemma contains_app_r a s t : contains s t = true -> contains (a ++ s) t = true.
Proof.
  intros H. induction a as [|c a IH]; cbn [append]; [exact H|].
  rewrite contains_unfold. cbv iota. rewrite IH. apply orb_true_r.
Qed.

(** ** Keys *)

Lemma pyval_eqb_refl a : pyval_eqb a a = true.
Proof.
  destruct a; simpl; try reflexivity; try apply Qeq_bool_refl;
    [apply String.eqb_refl|apply Z.eqb_refl].
Qed.

Lemma pyval_eqb_sym a b : pyval_eqb a b = true -> pyval_eqb b a = true.
Proof.
  destruct a, b; simpl; try discriminate; try reflexivity;
    try apply Qeq_bool_sym.
  - rewrite String.eqb_sym. auto.
  - rewrite Z.eqb_sym. auto.
Qed.

Lemma pyval_eqb_trans a b c :
  pyval_eqb a b = true -> pyval_eqb b c = true -> pyval_eqb a c = true.
Proof.
  destruct a, b; simpl; try discriminate; destruct c; simpl; try discriminate;
    try reflexivity; try apply Qeq_bool_trans.
  - rewrite !String.eqb_eq. congruence.
  - rewrite !Z.eqb_eq. congruence.
Qed.

Lemma item_eqb_refl x : item_eqb x x = true.
Proof. unfold item_eqb. rewrite String.eqb_refl, pyval_eqb_refl. reflexivity. Qed.


Lemma item_eqb_sym x y : item_eqb x y = true -> item_eqb y x = true.
Proof.
  unfold item_eqb. rewrite !andb_true_iff, !String.eqb_eq.
  intros [-> H]. split; [reflexivity|apply pyval_eqb_sym; exact H].
Qed.

Lemma item_eqb_trans x y z :
  item_eqb x y = true -> item_eqb y z = true -> item_eqb x z = true.
Proof.
  unfold item_eqb. rewrite !andb_true_iff, !String.eqb_eq.
  intros [-> H1] [-> H2]. split; [reflexivity|eapply pyval_eqb_trans; eassumption].
Qed.


Lemma key_eqb_refl k : key_eqb k k = true.
Proof.
  induction k as [|x k IH]; simpl; [reflexivity|].
  rewrite item_eqb_refl, IH. reflexivity.
Qed.

Lemma key_eqb_sym k1 k2 : key_eqb k1 k2 = true -> key_eqb k2 k1 = true.
Proof.
  revert k2. induction k1 as [|x k1 IH]; destruct k2 as [|y k2]; simpl;
    try discriminate; [reflexivity|].
  rewrite !andb_true_iff. intros [H1 H2].
  split; [apply item_eqb_sym; exact H1|apply IH; exact H2].
Qed.

Lemma key_eqb_trans k1 k2 k3 :
  key_eqb k1 k2 = true -> key_eqb k2 k3 = true -> key_eqb k1 k3 = true.
Proof.
  revert k2 k3. induction k1 as [|x k1 IH]; destruct k2 as [|y k2]; simpl;
    try discriminate; destruct k3 as [|z k3]; simpl; try discriminate;
    [reflexivity|].
  rewrite !andb_true_iff. intros [H1 H2] [H3 H4].
  split; [eapply item_eqb_trans; eassumption|eapply IH; eassumption].
Qed.

Lemma key_eqb_sym_false k1 k2 : key_eqb k1 k2 = false -> key_eqb k2 k1 = false.
Proof.
  intros H. destruct (key_eqb k2 k1) eqn:E; [|reflexivity].
  apply key_eqb_sym in E. congruence.
Qed.

(** Equal keys compare alike with every key. *)
Lemma key_eqb_congr k1 k2 k : key_eqb k1 k2 = true -> key_eqb k1 k = key_eqb k2 k.
Proof.
  intros H. destruct (key_eqb k2 k) eqn:E.
  - eapply key_eqb_trans; eassumption.
  - destruct (key_eqb k1 k) eqn:E1; [|reflexivity].
    rewrite (key_eqb_trans k2 k1 k (key_eqb_sym _ _ H) E1) in E. discriminate.
Qed.

Lemma key_eqb_congr_r k1 k2 k : key_eqb k1 k2 = true -> key_eqb k k1 = key_eqb k k2.
Proof.
  intros H. destruct (key_eqb k k2) eqn:E.
  - eapply key_eqb_trans; [|apply key_eqb_sym; exact H]. exact E.
  - destruct (key_eqb k k1) eqn:E1; [|reflexivity].
    rewrite (key_eqb_trans k k1 k2 E1 H) in E. discriminate.
Qed.











Lemma NoDup_map_fst_NoDup {A B} (l : list (A * B)) : NoDup (map fst l) -> NoDup l.
Proof.
  induction l as [|x l IH]; simpl; intros H; [constructor|].
  inversion H as [|? ? Hnot Hnd]; subst. constructor; [|auto].
  intros Hin. apply Hnot. apply in_map. exact Hin.
Qed.


(** ** The table of merged candidates *)

Lemma merged_get_set M k p k' :
  merged_get (merged_set M k p) k' = if key_eqb k k' then Some p else merged_get M k'.
Proof.
  induction M as [|[k0 p0] M IH]; simpl.
  - reflexivity.
  - destruct (key_eqb k0 k) eqn:E; simpl.
    + rewrite (key_eqb_congr k0 k k' E).
      destruct (key_eqb k k'); reflexivity.
    + rewrite IH. destruct (key_eqb k0 k') eqn:E'; [|reflexivity].
      destruct (key_eqb k k') eqn:E''; [|reflexivity].
      rewrite (key_eqb_trans k0 k' k E' (key_eqb_sym _ _ E'')) in E. discriminate.
Qed.

Lemma merged_keys_set M k p :
  map fst (merged_set M k p)
  = match merged_get M k with
    | Some _ => map fst M
    | None => (map fst M ++ [k])%list
    end.
Proof.
  induction M as [|[k0 p0] M IH]; simpl; [reflexivity|].
  destruct (key_eqb k0 k) eqn:E; simpl; [reflexivity|].
  rewrite IH. destruct (merged_get M k); reflexivity.
Qed.

(** Equal keys find the same entry. *)
Lemma merged_get_congr M k1 k2 :
  key_eqb k1 k2 = true -> merged_get M k1 = merged_get M k2.
Proof.
  intros H. induction M as [|[k0 p0] M IH]; simpl; [reflexivity|].
  rewrite (key_eqb_congr_r k1 k2 k0 H), IH. reflexivity.
Qed.

Lemma merged_get_In M k p :
  merged_get M k = Some p -> exists k0, In (k0, p) M /\ key_eqb k0 k = true.
Proof.
  induction M as [|[k0 p0] M IH]; simpl; [discriminate|].
  destruct (key_eqb k0 k) eqn:E.
  - intros [= ->]. exists k0. auto.
  - intros H. destruct (IH H) as [k1 [Hin Hk]]. exists k1. auto.
Qed.

Lemma merged_get_None M k :
  merged_get M k = None -> forall k0, In k0 (map fst M) -> key_eqb k0 k = false.
Proof.
  induction M as [|[k0 p0] M IH]; simpl; [tauto|].
  destruct (key_eqb k0 k) eqn:E; [discriminate|].
  intros H k1 [<-|Hin]; [exact E|exact (IH H k1 Hin)].
Qed.

Lemma In_merged_get M k p :
  distinct_keys (map fst M) -> In (k, p) M -> merged_get M k = Some p.
Proof.
  induction M as [|[k0 p0] M IH]; simpl; [tauto|].
  intros Hnd [H|H].
  - injection H as -> ->. rewrite key_eqb_refl. reflexivity.
  - inversion Hnd as [|? ? Hnot Hnd']; subst.
    destruct (key_eqb k0 k) eqn:E; [|auto].
    rewrite Forall_forall in Hnot.
    rewrite (Hnot k) in E; [discriminate|].
    apply (in_map fst) in H. exact H.
Qed.

Lemma merge_step_get M p k :
  merged_get (merge_step M p) k
  = if key_eqb (dedup_key p) k
    then Some (match merged_get M (dedup_key p) with
               | Some existing => merge_into existing p
               | None => set_count p (Some 1)
               end)
    else merged_get M k.
Proof.
  unfold merge_step. destruct (merged_get M (dedup_key p)); apply merged_get_set.
Qed.

Lemma ForallOrdPairs_snoc {A} (R : A -> A -> Prop) (l : list A) (x : A) :
  ForallOrdPairs R l -> Forall (fun y => R y x) l -> ForallOrdPairs R (l ++ [x]).
Proof.
  induction 1 as [|a l Ha Hl IH]; simpl; intros Hx.
  - constructor; constructor.
  - inversion Hx as [|? ? Hax Hx']; subst. constructor; [|apply IH; exact Hx'].
    apply Forall_app. split; [exact Ha|]. constructor; [exact Hax|constructor].
Qed.

Lemma merge_step_distinct M p :
  distinct_keys (map fst M) -> distinct_keys (map fst (merge_step M p)).
Proof.
  intros H. unfold merge_step.
  destruct (merged_get M (dedup_key p)) eqn:E; rewrite merged_keys_set, E; [exact H|].
  apply ForallOrdPairs_snoc; [exact H|].
  apply Forall_forall. intros k0 Hk0. exact (merged_get_None M _ E k0 Hk0).
Qed.

Lemma merge_fold_distinct ps M :
  distinct_keys (map fst M) -> distinct_keys (map fst (fold_left merge_step ps M)).
Proof.
  revert M. induction ps as [|p ps IH]; simpl; intros M H; [exact H|].
  apply IH. apply merge_step_distinct. exact H.
Qed.

(** The entry of a key after the loop: the candidates with that key, folded
    into the entry that was there, or into the first of them. *)
Lemma merge_fold_get ps M k :
  merged_get (fold_left merge_step ps M) k
  = match merged_get M k with
    | Some e => Some (fold_left merge_into (group k ps) e)
    | None =>
        match group k ps with
        | [] => None
        | first :: rest => Some (fold_left merge_into rest (set_count first (Some 1)))
        end
    end.
Proof.
  revert M. induction ps as [|p ps IH]; simpl; intros M.
  - destruct (merged_get M k); reflexivity.
  - rewrite IH, merge_step_get. unfold group. simpl. fold (group k ps).
    destruct (key_eqb (dedup_key p) k) eqn:E.
    + rewrite (merged_get_congr M _ _ E).
      destruct (merged_get M k); reflexivity.
    + reflexivity.
Qed.

(** ** One merge and a run of merges *)

Lemma merge_into_fields e p :
  let count := match _count e with Some c => c | None => 1 end in
  confidence (merge_into e p)
  = ((confidence e * inject_Z count + confidence p) / inject_Z (count + 1))%Q
  /\ _count (merge_into e p) = Some (count + 1)
  /\ reason (merge_into e p)
     = (if contains (reason e) (reason p) then reason e
        else reason e ++ "; " ++ reason p)
  /\ data (merge_into e p) = data e
  /\ type (merge_into e p) = type e
  /\ extra (merge_into e p) = extra e.
Proof.
  unfold merge_into. simpl. destruct (contains (reason e) (reason p)); simpl; auto 10.
Qed.



End FusionFacts.

Module Fusion.
Import DictFacts SortFacts FusionFacts Spec ContextPredictor.


Lemma distinct_keys_nil : distinct_keys [].
Proof. constructor. Qed.

Lemma merged_entry predictions k m :
  In (k, m) (merge_all predictions) ->
  exists first rest,
    group k predictions = first :: rest
    /\ m = fold_left merge_into rest (set_count first (Some 1)).
Proof.
  intros Hin. apply In_merged_get in Hin.
  - unfold merge_all in Hin. rewrite merge_fold_get in Hin. simpl in Hin.
    destruct (group k predictions) as [|first rest]; [discriminate|].
    injection Hin as <-. eauto.
  - apply merge_fold_distinct. apply distinct_keys_nil.
Qed.

(** Every candidate has an entry, under a key equal to its own. *)
Lemma merged_covers predictions p :
  In p predictions ->
  exists k m, In (k, m) (merge_all predictions) /\ key_eqb k (dedup_key p) = true.
Proof.
  intros Hp. unfold merge_all.
  pose proof (merge_fold_get predictions [] (dedup_key p)) as Hget. simpl in Hget.
  destruct (group (dedup_key p) predictions) as [|first rest] eqn:Eg.
  - exfalso. assert (In p (group (dedup_key p) predictions)) as Hin.
    { unfold group. apply filter_In. split; [exact Hp|apply key_eqb_refl]. }
    rewrite Eg in Hin. destruct Hin.
  - apply merged_get_In in Hget as [k [Hin Hk]]. eauto.
Qed.





End Fusion.

(* ================================================================== *)
(** * Prediction requests *)
(* ================================================================== *)

Module Prediction.
Import DictFacts SortFacts FusionFacts Spec ContextPredictor.

Lemma bind_Ok {A B} (c : result A) (k : A -> result B) (b : B) :
  bind c k = Ok b -> exists a, c = Ok a /\ k a = Ok b.
Proof. destruct c as [a|e]; simpl; [eauto|discriminate]. Qed.

Lemma firstn_length_le {A} (n : nat) (l : list A) : (List.length (firstn n l) <= n)%nat.
Proof. rewrite length_firstn. lia. Qed.

Lemma filter_shorter {A} (f : A -> bool) (l : list A) :
  (List.length (filter f l) <= List.length l)%nat.
Proof. induction l as [|x l IH]; simpl; [lia|]. destruct (f x); simpl; lia. Qed.

Lemma Qleb_false a b : (b < a)%Q -> Qleb a b = false.
Proof.
  intros H. unfold Qleb. destruct (Qle_bool a b) eqn:E; [|reflexivity].
  apply Qle_bool_iff in E. exfalso. apply (Qlt_not_le _ _ H E).
Qed.

Lemma Qleb_true a b : (a <= b)%Q -> Qleb a b = true.
Proof. intros H. apply Qle_bool_iff. exact H. Qed.

(** Three candidates with different payloads and confidences 0.9, 0.5 and
    0.7, ranked: nothing merges and the order is 0.9, 0.7, 0.5. *)
Lemma rank_three p1 p2 p3 n :
  (confidence p1 == 9 # 10)%Q -> (confidence p2 == 5 # 10)%Q ->
  (confidence p3 == 7 # 10)%Q ->
  key_eqb (dedup_key p1) (dedup_key p2) = false ->
  key_eqb (dedup_key p1) (dedup_key p3) = false ->
  key_eqb (dedup_key p2) (dedup_key p3) = false ->
  _rank_and_deduplicate [p1; p2; p3] n
  = slice_to [set_count p1 None; set_count p3 None; set_count p2 None] n.
Proof.
  intros H1 H2 H3 N12 N13 N23.
  assert (merge_all [p1; p2; p3]
          = [(dedup_key p1, set_count p1 (Some 1));
             (dedup_key p2, set_count p2 (Some 1));
             (dedup_key p3, set_count p3 (Some 1))]) as Hm.
  { unfold merge_all. cbn [fold_left].
    change (merge_step [] p1) with [(dedup_key p1, set_count p1 (Some 1))].
    unfold merge_step at 2. cbn [merged_get merged_set].
    rewrite N12. cbn [merged_set].
    unfold merge_step. cbn [merged_get merged_set].
    rewrite N13, N23. reflexivity. }
  unfold _rank_and_deduplicate. rewrite Hm. cbn [map snd stable_sort insert_sorted].
  unfold by_confidence_desc at 2. cbn [confidence set_count].
  rewrite (Qleb_false (confidence p3) (confidence p2))
    by (rewrite H2, H3; reflexivity).
  cbn [insert_sorted]. unfold by_confidence_desc. cbn [confidence set_count].
  rewrite (Qleb_true (confidence p3) (confidence p1))
    by (rewrite H1, H3; discriminate).
  reflexivity.
Qed.

(** C6.  A request that returns went through fusion, ranking, truncation
    and the confidence filter in that order: its result is the filter
    applied to the first [max_results] entries of the merged candidates
    sorted by confidence.  So it holds at most [max_results] entries,
    possibly fewer or none, all at or above [min_confidence].  With the
    threshold 0.6, three candidates of confidences 0.9, 0.5 and 0.7 that
    do not merge, no two of their keys being equal, come back as the 0.9
    and the 0.7 entry, in that order. *)
Theorem predict_context_truncates_then_filters
    (E : env) (current_activity : dict pyval) (max_results : Z) (res : list prediction) :
  predict_context E current_activity max_results = Ok res ->
  (exists semantic temporal continuation,
     _predict_from_semantics E (_build_context_description E current_activity)
       max_results = Ok semantic
     /\ _predict_from_time_patterns E current_activity max_results = Ok temporal
     /\ _predict_from_recent_context E max_results = Ok continuation
     /\ let graph_predictions :=
          match dict_get current_activity "activity_id" with
          | Some activity_id => _predict_from_graph E activity_id max_results
          | None => []
          end in
        let predictions :=
          (semantic ++ graph_predictions ++ temporal ++ continuation)%list in
        let ranked :=
          map (fun p => set_count p None)
            (stable_sort by_confidence_desc (map snd (merge_all predictions))) in
        res = filter (fun p => Qleb (min_confidence E) (confidence p))
                (slice_to ranked max_results))
  /\ (0 <= max_results -> (List.length res <= Z.to_nat max_results)%nat)
  /\ Forall (fun p => (min_confidence E <= confidence p)%Q) res
  /\ (forall p1 p2 p3,
        (min_confidence E == 6 # 10)%Q ->
        (confidence p1 == 9 # 10)%Q -> (confidence p2 == 5 # 10)%Q ->
        (confidence p3 == 7 # 10)%Q ->
        key_eqb (dedup_key p1) (dedup_key p2) = false ->
        key_eqb (dedup_key p1) (dedup_key p3) = false ->
        key_eqb (dedup_key p2) (dedup_key p3) = false ->
        2 <= max_results ->
        filter_by_confidence E (_rank_and_deduplicate [p1; p2; p3] max_results)
        = [set_count p1 None; set_count p3 None]).
Proof.
  intros H. unfold predict_context in H.
  apply bind_Ok in H as [semantic [Hs H]].
  apply bind_Ok in H as [temporal [Ht H]].
  apply bind_Ok in H as [continuation [Hc H]].
  injection H as <-.
  split; [exists semantic, temporal, continuation; auto|].
  split.
  { intros Hn. unfold filter_by_confidence, _rank_and_deduplicate, slice_to.
    destruct (Z.leb_spec 0 max_results); [|lia].
    etransitivity; [apply filter_shorter|apply firstn_length_le]. }
  split.
  { apply Forall_forall. intros p Hp. unfold filter_by_confidence in Hp.
    apply filter_In in Hp as [_ Hp]. apply Qle_bool_iff. exact Hp. }
  intros p1 p2 p3 Hmin H1 H2 H3 N12 N13 N23 Hn.
  rewrite rank_three by assumption.
  assert (filter_by_confidence E
            [set_count p1 None; set_count p3 None; set_count p2 None]
          = [set_count p1 None; set_count p3 None]) as Hf3.
  { unfold filter_by_confidence. cbn [filter confidence set_count].
    rewrite (Qleb_true (min_confidence E) (confidence p1))
      by (rewrite Hmin, H1; discriminate).
    rewrite (Qleb_true (min_confidence E) (confidence p3))
      by (rewrite Hmin, H3; discriminate).
    rewrite (Qleb_false (min_confidence E) (confidence p2))
      by (rewrite Hmin, H2; reflexivity).
    reflexivity. }
  unfold slice_to. destruct (Z.leb_spec 0 max_results); [|lia].
  destruct (Z.to_nat max_results) as [|[|[|k]]] eqn:Ek; try lia.
  - cbn [firstn]. unfold filter_by_confidence. cbn [filter confidence set_count].
    rewrite (Qleb_true (min_confidence E) (confidence p1))
      by (rewrite Hmin, H1; discriminate).
    rewrite (Qleb_true (min_confidence E) (confidence p3))
      by (rewrite Hmin, H3; discriminate).
    reflexivity.
  - cbn [firstn]. rewrite firstn_nil. exact Hf3.
Qed.

Lemma predict_context_truncates_then_filters_witness :
  let E := Examples.predictor Examples.three_hits Examples.no_history in
  let res := [mkPred "semantic" (9 # 10) [("app_name", PStr "editor")]
                "Semantically similar (score: 0.90)" None [("text", PStr "writing code")];
              mkPred "semantic" (7 # 10) [("app_name", PStr "browser")]
                "Semantically similar (score: 0.70)" None [("text", PStr "reading docs")]] in
  predict_context E [("app_name", PStr "editor")] 5 = Ok res
  /\ (List.length res <= Z.to_nat 5)%nat
  /\ Forall (fun p => (min_confidence E <= confidence p)%Q) res.
Proof.
  intros E res.
  assert (predict_context E [("app_name", PStr "editor")] 5 = Ok res) as H by reflexivity.
  destruct (predict_context_truncates_then_filters E [("app_name", PStr "editor")] 5 res H)
    as [_ [Hlen [Hall _]]].
  split; [exact H|]. split; [apply Hlen; lia|exact Hall].
Defined.

(** C8, as the code has it.  Nothing in the predictor catches an exception:
    when the semantic search or one of the two history queries raises, the
    request raises the same exception and returns no candidates. *)
Theorem collaborator_failure_propagates
    (E : env) (current_activity : dict pyval) (max_results : Z) (exn : string) :
  search_similar E (_build_context_description E current_activity) max_results (1 # 2)
  = Raise exn
  \/ (exists hits,
        search_similar E (_build_context_description E current_activity)
          max_results (1 # 2) = Ok hits
        /\ get_recent_activities E 1000 (24 * 7) = Raise exn)
  \/ (exists hits temporal,
        search_similar E (_build_context_description E current_activity)
          max_results (1 # 2) = Ok hits
        /\ _predict_from_time_patterns E current_activity max_results = Ok temporal
        /\ get_recent_activities E 20 1 = Raise exn) ->
  predict_context E current_activity max_results = Raise exn.
Proof.
  unfold predict_context, _predict_from_semantics.
  intros [H|[[hits [Hs H]]|[hits [temporal [Hs [Ht H]]]]]].
  - rewrite H. reflexivity.
  - rewrite Hs. simpl. unfold _predict_from_time_patterns. rewrite H. reflexivity.
  - rewrite Hs. simpl. rewrite Ht. simpl.
    unfold _predict_from_recent_context. rewrite H. reflexivity.
Qed.

Lemma collaborator_failure_propagates_witness :
  let E := Examples.predictor Examples.search_down Examples.editor_history in
  search_similar E (_build_context_description E [("app_name", PStr "editor")]) 5 (1 # 2)
  = Raise "ConnectionError"
  /\ predict_context E [("app_name", PStr "editor")] 5 = Raise "ConnectionError".
Proof.
  intros E. split; [reflexivity|].
  apply (collaborator_failure_propagates E [("app_name", PStr "editor")] 5 "ConnectionError").
  left. reflexivity.
Defined.

(** C8, as stated, fails: with the search down the request
    raises, although the history sources alone yield two candidates, as
    the same request shows when the search answers. *)
Lemma search_failure_fails_the_request :
  let act := [("app_name", PStr "editor")] in
  predict_context (Examples.predictor Examples.search_down Examples.editor_history) act 5
  = Raise "ConnectionError"
  /\ exists p1 p2,
       predict_context (Examples.predictor Examples.no_hits Examples.editor_history) act 5
       = Ok [p1; p2].
Proof. cbv zeta. split; [reflexivity|]. eexists. eexists. reflexivity. Qed.

Lemma mapM_Ok {A B} (f : A -> result B) (l : list A) :
  (forall x, In x l -> exists y, f x = Ok y) -> exists ys, mapM f l = Ok ys.
Proof.
  induction l as [|x l IH]; simpl; intros H; [eauto|].
  destruct (H x (or_introl eq_refl)) as [y Hy]. rewrite Hy. simpl.
  destruct IH as [ys Hys]; [intros z Hz; apply H; right; exact Hz|].
  rewrite Hys. simpl. eauto.
Qed.

(** C9, as the code has it.  A request whose activity has no app name,
    window title, file path or url uses the text ["Current activity"] as
    its query and goes on as any other request: when the collaborators
    answer, it returns a prediction list. *)
Theorem blank_activity_uses_placeholder
    (E : env) (current_activity : dict pyval) (max_results : Z) :
  truthy (get_or_none current_activity "app_name") = false ->
  truthy (get_or_none current_activity "window_title") = false ->
  truthy (get_or_none current_activity "file_path") = false ->
  truthy (get_or_none current_activity "url") = false ->
  _build_context_description E current_activity = "Current activity"
  /\ _predict_from_semantics E (_build_context_description E current_activity) max_results
     = _predict_from_semantics E "Current activity" max_results
  /\ (forall hits week hour,
        search_similar E "Current activity" max_results (1 # 2) = Ok hits ->
        get_recent_activities E 1000 (24 * 7) = Ok week ->
        (forall a, In a week -> exists hw, fromisoformat E (dict_get a "timestamp") = Ok hw) ->
        get_recent_activities E 20 1 = Ok hour ->
        exists res, predict_context E current_activity max_results = Ok res).
Proof.
  intros H1 H2 H3 H4.
  assert (_build_context_description E current_activity = "Current activity") as Hd.
  { unfold _build_context_description. rewrite H1, H2, H3, H4. reflexivity. }
  split; [exact Hd|]. split; [rewrite Hd; reflexivity|].
  intros hits week hour Hs Hw Hp Hh.
  unfold predict_context. rewrite Hd. unfold _predict_from_semantics. rewrite Hs. simpl.
  unfold _predict_from_time_patterns. rewrite Hw. simpl.
  destruct (mapM_Ok
              (fun activity =>
                 hw <- fromisoformat E (dict_get activity "timestamp") ;;
                 Ok ((Z.abs (fst hw - now_hour E) <=? 1) && (snd hw =? now_weekday E)))
              week) as [flags Hflags].
  { intros a Ha. destruct (Hp a Ha) as [hw Hhw]. rewrite Hhw. simpl. eauto. }
  rewrite Hflags. simpl.
  unfold _predict_from_recent_context. rewrite Hh. simpl.
  destruct hour; simpl; eauto.
Qed.

Lemma blank_activity_uses_placeholder_witness :
  let E := Examples.predictor Examples.placeholder_search Examples.no_history in
  truthy (get_or_none [("activity_type", PStr "idle")] "app_name") = false
  /\ _build_context_description E [("activity_type", PStr "idle")] = "Current activity".
Proof.
  intros E. split; [reflexivity|].
  apply (blank_activity_uses_placeholder E [("activity_type", PStr "idle")] 5);
    reflexivity.
Defined.

(** C9, as stated, fails: a request for an activity without any
    of the four fields does not fail.  It queries the search with the
    placeholder text and returns what the search found for it. *)
Lemma blank_activity_is_not_rejected :
  let E := Examples.predictor Examples.placeholder_search Examples.no_history in
  _build_context_description E [] = "Current activity"
  /\ predict_context E [] 5
     = Ok [mkPred "semantic" (9 # 10) [("app_name", PStr "desktop")]
             "Semantically similar (score: 0.90)" None [("text", PStr "idle")]].
Proof. cbv zeta. split; reflexivity. Qed.

End Prediction.

(* ================================================================== *)
(** * Further properties of the temporal graph *)
(* ================================================================== *)

Module GraphOps.
Import DictFacts SortFacts GraphFacts TemporalGraphFacts Spec TemporalGraph.

Lemma dict_get_update_last {V} (d kvs : dict V) k v :
  NoDup (dict_keys kvs) -> dict_get kvs k = Some v ->
  dict_get (dict_update d kvs) k = Some v.
Proof.
  intros Hnd Hget. rewrite EdgeUpsert.dict_get_update by exact Hnd.
  rewrite Hget. reflexivity.
Qed.

(** X1.  Adding an activity node under an id that is in the graph, while the
    graph is within its capacity, raises [TypeError] and changes nothing
    when the attributes name a parameter or the keyword [node_type].
    Otherwise the call returns and leaves the number of nodes, the other
    nodes and all edges as they are.  The node's dictionary is updated, not
    replaced: the three fixed keys and the given attributes take their new
    values, and every other key keeps the value it had. *)
Theorem add_activity_node_refreshes
    (self : t) (activity_id activity_type : string) (timestamp : Z)
    (attributes old : Nx.attrs) :
  dict_get (Nx.node (graph self)) activity_id = Some old ->
  Nx.number_of_nodes (graph self) <= max_nodes self ->
  NoDup (dict_keys attributes) ->
  let call := add_activity_node self activity_id activity_type timestamp attributes in
  let self' := after call in
  (clashes attributes activity_keywords = true -> call = raises self "TypeError")
  /\ (clashes attributes activity_keywords = false ->
      raised call = None
      /\ Nx.number_of_nodes (graph self') = Nx.number_of_nodes (graph self)
      /\ Nx.adj (graph self') = Nx.adj (graph self)
      /\ (forall n, n <> activity_id ->
            dict_get (Nx.node (graph self')) n = dict_get (Nx.node (graph self)) n)
      /\ exists data,
           dict_get (Nx.node (graph self')) activity_id = Some data
           /\ dict_get data "node_type" = Some (PStr "activity")
           /\ dict_get data "activity_type" = Some (PStr activity_type)
           /\ dict_get data "timestamp" = Some (PTime timestamp)
           /\ (forall k v, dict_get attributes k = Some v -> dict_get data k = Some v)
           /\ (forall k, ~ In k ["node_type"; "activity_type"; "timestamp"] ->
                         dict_has attributes k = false ->
                         dict_get data k = dict_get old k)).
Proof.
  intros Hold Hcap Hnd call self'.
  split.
  { intros Hc. unfold call. rewrite add_activity_node_cases, Hc. reflexivity. }
  intros Hc.
  assert (forall k, In k ["node_type"; "activity_type"; "timestamp"] ->
                    dict_has attributes k = false) as Hres.
  { intros k Hk. apply (EdgeUpsert.clashes_false attributes activity_keywords); [exact Hc|].
    simpl in Hk |- *. tauto. }
  set (attr := ([("node_type", PStr "activity"); ("activity_type", PStr activity_type);
                 ("timestamp", PTime timestamp)] ++ attributes)%list).
  assert (Nx.has_node (graph self) activity_id = true) as Hhas.
  { unfold Nx.has_node, dict_has. rewrite Hold. reflexivity. }
  assert (call = returns (with_graph self (Nx.add_node (graph self) activity_id attr)))
    as Hs.
  { unfold call. rewrite add_activity_node_cases, Hc. unfold activity_put. fold attr.
    change (graph (with_graph self (Nx.add_node (graph self) activity_id attr)))
      with (Nx.add_node (graph self) activity_id attr).
    rewrite Capacity.number_of_nodes_add_node, Hhas.
    destruct (Z.gtb_spec (Nx.number_of_nodes (graph self)) (max_nodes self));
      [lia|reflexivity]. }
  unfold self'. rewrite Hs. cbn [graph with_graph after raised returns].
  split; [reflexivity|].
  split; [rewrite Capacity.number_of_nodes_add_node, Hhas; reflexivity|].
  split; [unfold Nx.add_node; rewrite Hhas; reflexivity|].
  split.
  { intros n Hne. rewrite dict_get_node_add_node.
    destruct (String.eqb_spec activity_id n); [congruence|reflexivity]. }
  exists (dict_update old attr).
  split; [rewrite dict_get_node_add_node, String.eqb_refl, Hold; reflexivity|].
  assert (forall k v, dict_get [("node_type", PStr "activity");
                                ("activity_type", PStr activity_type);
                                ("timestamp", PTime timestamp)] k = Some v ->
                      dict_get (dict_update old attr) k = Some v) as Hfixed.
  { intros k v Hk. unfold attr. rewrite EdgeUpsert.dict_update_app.
    rewrite EdgeUpsert.dict_get_update_other.
    - apply dict_get_update_last; [|exact Hk].
      apply nodupb_NoDup. reflexivity.
    - apply Hres.
      apply (proj1 (dict_has_In [("node_type", PStr "activity");
                                 ("activity_type", PStr activity_type);
                                 ("timestamp", PTime timestamp)] k)).
      unfold dict_has. rewrite Hk. reflexivity. }
  split; [apply Hfixed; reflexivity|].
  split; [apply Hfixed; reflexivity|].
  split; [apply Hfixed; reflexivity|].
  split.
  - intros k v Hk. unfold attr. rewrite EdgeUpsert.dict_update_app.
    apply dict_get_update_last; assumption.
  - intros k Hk Ha. unfold attr. rewrite EdgeUpsert.dict_update_app.
    rewrite EdgeUpsert.dict_get_update_other by exact Ha.
    apply EdgeUpsert.dict_get_update_other. apply dict_has_false. exact Hk.
Qed.

(** X2.  Starting within its capacity, a graph whose times are [datetime]s
    and that only receives activity nodes stays within its capacity after
    every insertion, however many nodes are inserted: every call returns,
    and the times in the graph stay [datetime]s. *)
Theorem activity_insertions_stay_within_capacity
    (self : t) (l : list activity_insert) :
  Nx.number_of_nodes (graph self) <= max_nodes self ->
  datetime_keys (graph self) ->
  Forall plain_insert l ->
  raised (insert_all self l) = None
  /\ Nx.number_of_nodes (graph (after (insert_all self l))) <= max_nodes self
  /\ max_nodes (after (insert_all self l)) = max_nodes self
  /\ datetime_keys (graph (after (insert_all self l))).
Proof.
  revert self.
  induction l as [|i l IH]; simpl; intros self Hcap Hk Hp; [auto|].
  inversion Hp as [|? ? Hi Hl]; subst.
  destruct (Capacity.add_activity_node_within_capacity self (ins_id i) (ins_type i)
              (ins_timestamp i) (ins_attributes i) Hi Hk Hcap) as [Hr [Hn [Hm Hk']]].
  fold (apply_insert self i) in Hr, Hn, Hm, Hk'. rewrite Hr.
  destruct (IH (after (apply_insert self i))) as [H1 [H2 [H3 H4]]].
  - rewrite Hm. exact Hn.
  - exact Hk'.
  - exact Hl.
  - rewrite Hm in H2, H3. auto.
Qed.

Lemma dict_get_node_remove_node G n m :
  dict_get (Nx.node (Nx.remove_node G n)) m
  = if (n =? m)%string then None else dict_get (Nx.node G) m.
Proof.
  unfold Nx.remove_node. destruct (Nx.has_node G n) eqn:E; simpl.
  - apply dict_get_del.
  - destruct (String.eqb_spec n m) as [<-|]; [|reflexivity].
    unfold Nx.has_node, dict_has in E. destruct (dict_get (Nx.node G) n); congruence.
Qed.

Lemma dict_get_node_remove_nodes_from G ns m :
  dict_get (Nx.node (Nx.remove_nodes_from G ns)) m
  = if mem m ns then None else dict_get (Nx.node G) m.
Proof.
  unfold Nx.remove_nodes_from, mem. revert G.
  induction ns as [|n ns IH]; simpl; intros G; [reflexivity|].
  rewrite IH, dict_get_node_remove_node, (String.eqb_sym m n).
  destruct (n =? m)%string, (existsb (String.eqb m) ns); reflexivity.
Qed.

Lemma length_dict_del_ge {V} (d : dict V) k :
  NoDup (dict_keys d) -> (List.length d <= S (List.length (dict_del d k)))%nat.
Proof.
  induction d as [|[k0 v0] d IH]; simpl; intros Hnd; [lia|].
  inversion Hnd as [|? ? Hnot Hnd']; subst.
  destruct (String.eqb_spec k0 k) as [->|Hne]; simpl.
  - assert (dict_del d k = d) as ->; [|lia].
    clear IH Hnd Hnd'. induction d as [|[k1 v1] d IH]; simpl; [reflexivity|].
    destruct (String.eqb_spec k1 k) as [->|Hne].
    + exfalso. apply Hnot. left. reflexivity.
    + f_equal. apply IH. intros H. apply Hnot. right. exact H.
  - specialize (IH Hnd'). lia.
Qed.

Lemma number_of_nodes_remove_nodes_from_ge G ns :
  wfP G ->
  Nx.number_of_nodes G - Z.of_nat (List.length ns)
  <= Nx.number_of_nodes (Nx.remove_nodes_from G ns).
Proof.
  unfold Nx.remove_nodes_from. revert G.
  induction ns as [|n ns IH]; simpl List.length; intros G W; [simpl; lia|].
  simpl fold_left. specialize (IH (Nx.remove_node G n) (wfP_remove_node G n W)).
  assert (Nx.number_of_nodes G - 1 <= Nx.number_of_nodes (Nx.remove_node G n)) as H.
  { unfold Nx.remove_node, Nx.number_of_nodes.
    destruct (Nx.has_node G n); simpl; [|lia].
    pose proof (length_dict_del_ge (Nx.node G) n (wf_nodup_node G W)). lia. }
  lia.
Qed.

Lemma timestamped_nodes_unique G n t1 t2 :
  NoDup (dict_keys (Nx.node G)) ->
  In (n, t1) (timestamped_nodes G) -> In (n, t2) (timestamped_nodes G) -> t1 = t2.
Proof.
  intros Hnd H1 H2. unfold timestamped_nodes in *.
  apply in_flat_map in H1 as [[n1 d1] [Hin1 H1]].
  apply in_flat_map in H2 as [[n2 d2] [Hin2 H2]].
  destruct (_ || _) in H1; [|destruct H1]. destruct H1 as [H1|[]].
  destruct (_ || _) in H2; [|destruct H2]. destruct H2 as [H2|[]].
  injection H1 as -> <-. injection H2 as -> <-.
  apply In_dict_get in Hin1; [|exact Hnd]. apply In_dict_get in Hin2; [|exact Hnd].
  assert (Some d1 = Some d2) as E by (etransitivity; [symmetry; exact Hin1|exact Hin2]).
  injection E as ->. reflexivity.
Qed.

Lemma firstn_In {A} (n : nat) (l : list A) x : In x (firstn n l) -> In x l.
Proof.
  intros H. rewrite <- (firstn_skipn n l). apply in_or_app. left. exact H.
Qed.

Lemma mem_In n ns : mem n ns = true <-> In n ns.
Proof.
  unfold mem. rewrite existsb_exists. split.
  - intros [y [Hy E]]. apply String.eqb_eq in E. subst. exact Hy.
  - intros H. exists n. split; [exact H|apply String.eqb_refl].
Qed.

(** The nodes a call of [_prune_old_nodes] removes: those of [pruned] when
    the keys can be compared, none otherwise. *)
Lemma prune_graph self :
  graph (after (_prune_old_nodes self))
  = Nx.remove_nodes_from (graph self)
      (if comparable (timestamped_nodes (graph self)) then pruned self else []).
Proof.
  rewrite Capacity.graph_after_prune.
  destruct (comparable (timestamped_nodes (graph self))); reflexivity.
Qed.

(** X3.  Pruning sorts the nodes that carry a time by their keys.  When the
    keys are not all of one kind (a date kept as a string beside
    [datetime]s) the sort raises [TypeError] and nothing is removed.
    Otherwise the call returns, having removed at least one node when some
    node carries a time, and every removed node is at least as old, by its
    key, as every node with a time that stays; for [datetime]s that is the
    order of time.  In both cases the graph stays well formed and nodes are
    only removed, at most [max(1, max_nodes / 10)] of them; a node without
    a true [timestamp] or [created_at] is never removed; the nodes that
    stay keep their attributes and the edges between them, and every edge
    from or to a removed node is gone. *)
Theorem prune_removes_only_the_oldest (self : t) :
  wf (graph self) = true ->
  let G := graph self in
  let call := _prune_old_nodes self in
  let G' := graph (after call) in
  (comparable (timestamped_nodes G) = false -> call = raises self "TypeError")
  /\ (comparable (timestamped_nodes G) = true ->
      raised call = None
      /\ (timestamped_nodes G <> [] -> Nx.number_of_nodes G' < Nx.number_of_nodes G)
      /\ (forall x y, In x (timestamped_nodes G) -> In y (timestamped_nodes G) ->
            Nx.has_node G' (fst x) = false -> Nx.has_node G' (fst y) = true ->
            key_leb (prune_key x) (prune_key y) = true
            /\ forall tx ty, prune_key x = PTime tx -> prune_key y = PTime ty ->
                             tx <= ty))
  /\ (datetime_keys G -> comparable (timestamped_nodes G) = true)
  /\ wf G' = true
  /\ (forall n, Nx.has_node G' n = true -> Nx.has_node G n = true)
  /\ (forall n data, dict_get (Nx.node G) n = Some data ->
        truthy_opt (dict_get data "timestamp") = false ->
        truthy_opt (dict_get data "created_at") = false ->
        Nx.has_node G' n = true)
  /\ Nx.number_of_nodes G - num_to_remove self <= Nx.number_of_nodes G'
  /\ Nx.number_of_nodes G' <= Nx.number_of_nodes G
  /\ (forall n, Nx.has_node G' n = true ->
        dict_get (Nx.node G') n = dict_get (Nx.node G) n)
  /\ (forall u v, Nx.has_node G' u = true -> Nx.has_node G' v = true ->
        Nx.edge_data G' u v = Nx.edge_data G u v)
  /\ (forall u v, Nx.has_node G' u = false \/ Nx.has_node G' v = false ->
        Nx.edge_data G' u v = None).
Proof.
  intros W G call G'. apply wf_wfP in W.
  set (removed := if comparable (timestamped_nodes G) then pruned self else []).
  assert (G' = Nx.remove_nodes_from G removed) as HG by apply prune_graph.
  assert (forall n, Nx.has_node G' n = (negb (mem n removed) && Nx.has_node G n))
    as Hhas by (intros n; rewrite HG; apply Capacity.has_node_remove_nodes_from).
  assert (forall u v, Nx.edge_data G' u v
                      = if mem u removed || mem v removed then None
                        else Nx.edge_data G u v) as Hedge
      by (intros u v; rewrite HG; apply Capacity.edge_data_remove_nodes_from; exact W).
  assert (wfP G') as W' by (rewrite HG; apply wfP_remove_nodes_from; exact W).
  set (sorted := stable_sort by_time (timestamped_nodes G)).
  set (k := Z.to_nat (num_to_remove self)).
  assert (forall n, In n removed -> exists x, In x (firstn k sorted) /\ fst x = n)
    as Hpr.
  { intros n Hn. unfold removed in Hn.
    destruct (comparable (timestamped_nodes G)); [|destruct Hn].
    unfold pruned in Hn. apply in_map_iff in Hn as [x [E Hx]]. eauto. }
  assert (forall x, In x (firstn k sorted) -> In x (timestamped_nodes G)) as Hfirst.
  { intros x Hx. apply firstn_In in Hx.
    apply (proj1 (stable_sort_In by_time (timestamped_nodes G) x)). exact Hx. }
  split.
  { intros Hc. unfold call. rewrite prune_cases. fold G. rewrite Hc. reflexivity. }
  split.
  { intros Hc.
    split; [unfold call; rewrite Capacity.raised_prune; fold G; rewrite Hc; reflexivity|].
    split; [intros Hne; apply Capacity.number_of_nodes_prune_lt; assumption|].
    intros x y Hx Hy Hrx Hky. rewrite Hhas in Hrx, Hky.
    rewrite (Capacity.timestamped_nodes_has_node G x Hx), andb_true_r, negb_false_iff in Hrx.
    apply andb_true_iff in Hky as [Hky _]. rewrite negb_true_iff in Hky.
    apply mem_In in Hrx. destruct (Hpr _ Hrx) as [x' [Hx' Hfx]].
    assert (x' = x) as ->.
    { destruct x as [n t1], x' as [n' t2]. simpl in Hfx. subst n'. f_equal.
      eapply (timestamped_nodes_unique G n); [apply W| |exact Hx].
      apply Hfirst. exact Hx'. }
    assert (In y (skipn k sorted)) as Hy'.
    { apply (proj2 (stable_sort_In by_time (timestamped_nodes G) y)) in Hy.
      fold sorted in Hy. rewrite <- (firstn_skipn k sorted) in Hy.
      apply in_app_iff in Hy as [Hy|Hy]; [|exact Hy].
      exfalso. assert (mem (fst y) removed = true) as Hm; [|congruence].
      apply mem_In. unfold removed. rewrite Hc. unfold pruned. apply in_map. exact Hy. }
    assert (by_time x y = true) as H.
    { eapply (StronglySorted_firstn_skipn (fun a b => by_time a b = true)); eauto.
      apply stable_sort_sorted;
        [apply Capacity.by_time_total|apply Capacity.by_time_trans]. }
    split; [exact H|].
    intros tx ty Ex Ey. apply (Capacity.by_time_datetimes x y tx ty Ex Ey). exact H. }
  split; [apply Capacity.datetime_keys_comparable|].
  split; [apply wf_wfP; exact W'|].
  split; [intros n; rewrite Hhas, andb_true_iff; tauto|].
  split.
  { intros n data Hd H1 H2. rewrite Hhas.
    assert (Nx.has_node G n = true) as ->
        by (unfold Nx.has_node, dict_has; fold G; rewrite Hd; reflexivity).
    destruct (mem n removed) eqn:E; [|reflexivity]. exfalso.
    apply mem_In in E. destruct (Hpr n E) as [x [Hx Hfx]].
    apply Hfirst in Hx.
    exact (Capacity.timestamped_nodes_exempt G n data x (wf_nodup_node G W) Hd H1 H2 Hx Hfx). }
  split.
  { pose proof (number_of_nodes_remove_nodes_from_ge G removed W) as Hge.
    rewrite <- HG in Hge.
    assert (Z.of_nat (List.length removed) <= num_to_remove self); [|lia].
    unfold removed. destruct (comparable (timestamped_nodes G)).
    - unfold pruned. rewrite length_map, length_firstn. unfold num_to_remove. lia.
    - simpl. unfold num_to_remove. lia. }
  split; [rewrite HG; apply Capacity.number_of_nodes_remove_nodes_from_le|].
  split.
  { intros n Hn. rewrite Hhas in Hn. apply andb_true_iff in Hn as [Hn _].
    rewrite negb_true_iff in Hn. rewrite HG, dict_get_node_remove_nodes_from, Hn.
    reflexivity. }
  split.
  { intros u v Hu Hv. rewrite Hhas in Hu, Hv.
    apply andb_true_iff in Hu as [Hu _]. apply andb_true_iff in Hv as [Hv _].
    rewrite negb_true_iff in Hu, Hv. rewrite Hedge, Hu, Hv. reflexivity. }
  intros u v Huv. rewrite Hedge.
  destruct (mem u removed || mem v removed) eqn:E; [reflexivity|].
  apply orb_false_iff in E as [Eu Ev].
  destruct (Nx.edge_data G u v) eqn:Ed; [|reflexivity]. exfalso.
  assert (Nx.has_edge G u v = true) as He
      by (rewrite EdgeUpsert.has_edge_edge_data, Ed; reflexivity).
  apply (wfP_has_edge _ _ _ W) in He as [Hu Hv].
  destruct Huv as [H|H]; rewrite Hhas in H; [rewrite Eu in H|rewrite Ev in H];
    simpl in H; unfold G in *; congruence.
Qed.

Lemma add_activity_node_refreshes_witness :
  Nx.number_of_nodes (graph Examples.chain) <= max_nodes Examples.chain
  /\ raised (add_activity_node Examples.chain "a1" "file_open" 9
               [("app_name", PStr "ide")]) = None
  /\ Nx.adj (graph (after (add_activity_node Examples.chain "a1" "file_open" 9
                             [("app_name", PStr "ide")])))
     = Nx.adj (graph Examples.chain)
  /\ exists data,
       dict_get (Nx.node (graph (after (add_activity_node Examples.chain "a1" "file_open" 9
                                          [("app_name", PStr "ide")])))) "a1" = Some data
       /\ dict_get data "app_name" = Some (PStr "ide").
Proof.
  assert (Nx.number_of_nodes (graph Examples.chain) <= max_nodes Examples.chain) as Hcap
    by (vm_compute; discriminate).
  assert (NoDup (dict_keys [("app_name", PStr "ide")])) as Hnd
    by (apply nodupb_NoDup; reflexivity).
  destruct (add_activity_node_refreshes Examples.chain "a1" "file_open" 9
              [("app_name", PStr "ide")] _ eq_refl Hcap Hnd) as [_ Hok].
  destruct (Hok eq_refl) as [Hret [_ [Hadj [_ [data [Hd [_ [_ [_ [Hnew _]]]]]]]]]].
  split; [exact Hcap|]. split; [exact Hret|]. split; [exact Hadj|].
  exists data. split; [exact Hd|]. apply Hnew. reflexivity.
Defined.

Lemma datetime_keys_decide G :
  forallb (fun x => match prune_key x with PTime _ => true | _ => false end)
    (timestamped_nodes G) = true ->
  datetime_keys G.
Proof.
  intros H x Hx. rewrite forallb_forall in H. specialize (H x Hx).
  destruct (prune_key x); try discriminate. reflexivity.
Qed.

Lemma activity_insertions_stay_within_capacity_witness :
  let l := [mkInsert "a3" "window_focus" 3 []; mkInsert "a4" "file_open" 4 [];
            mkInsert "a5" "window_focus" 5 []] in
  Nx.number_of_nodes (graph Examples.full) <= max_nodes Examples.full
  /\ raised (insert_all Examples.full l) = None
  /\ Nx.number_of_nodes (graph (after (insert_all Examples.full l)))
     <= max_nodes Examples.full.
Proof.
  intros l.
  assert (Nx.number_of_nodes (graph Examples.full) <= max_nodes Examples.full) as Hcap
    by (vm_compute; discriminate).
  assert (datetime_keys (graph Examples.full)) as Hk
    by (apply datetime_keys_decide; reflexivity).
  assert (Forall plain_insert l) as Hp by (repeat constructor).
  destruct (activity_insertions_stay_within_capacity Examples.full l Hcap Hk Hp)
    as [Hr [Hn _]].
  split; [exact Hcap|]. split; [exact Hr|exact Hn].
Defined.

Lemma prune_removes_only_the_oldest_witness :
  wf (graph Examples.chain) = true
  /\ raised (_prune_old_nodes Examples.chain) = None
  /\ Nx.number_of_nodes (graph (after (_prune_old_nodes Examples.chain)))
     < Nx.number_of_nodes (graph Examples.chain).
Proof.
  assert (wf (graph Examples.chain) = true) as W by reflexivity.
  split; [exact W|].
  destruct (prune_removes_only_the_oldest Examples.chain W) as [_ [Hok _]].
  destruct (Hok eq_refl) as [Hr [Hlt _]].
  split; [exact Hr|]. apply Hlt. vm_compute. discriminate.
Defined.

Lemma comparable_same_kind l x y :
  comparable l = true -> In x l -> In y l ->
  kind_rank (kind_of (prune_key x)) = kind_rank (kind_of (prune_key y)).
Proof.
  unfold comparable. destruct l as [|h l]; [intros _ []|].
  intros H. rewrite forallb_forall in H.
  assert (forall z, In z (h :: l) ->
            kind_rank (kind_of (prune_key h)) = kind_rank (kind_of (prune_key z))) as Hh.
  { intros z [<-|Hz]; [reflexivity|]. apply Z.eqb_eq. apply (H z Hz). }
  intros Hx Hy. rewrite <- (Hh x Hx), <- (Hh y Hy). reflexivity.
Qed.

(** X22.  The capacity is not kept on a graph that holds a time which is not
    a [datetime]: when such a graph is at its capacity, adding an activity
    node under a new id adds the node, the sort of the pruning raises
    [TypeError], nothing is removed, and the graph stays one node above its
    capacity. *)
Theorem add_activity_node_sort_raises
    (self : t) (activity_id activity_type : string) (timestamp : Z)
    (attributes : Nx.attrs) (x : string * option pyval) :
  clashes attributes activity_keywords = false ->
  Nx.has_node (graph self) activity_id = false ->
  Nx.number_of_nodes (graph self) = max_nodes self ->
  In x (timestamped_nodes (graph self)) ->
  kind_of (prune_key x) <> Moment ->
  let call := add_activity_node self activity_id activity_type timestamp attributes in
  call = raises (activity_put self activity_id activity_type timestamp attributes)
           "TypeError"
  /\ raised call = Some "TypeError"
  /\ Nx.has_node (graph (after call)) activity_id = true
  /\ (forall n, Nx.has_node (graph self) n = true ->
        Nx.has_node (graph (after call)) n = true)
  /\ Nx.number_of_nodes (graph (after call)) = max_nodes self + 1
  /\ max_nodes (after call) = max_nodes self.
Proof.
  intros Hc Hnew Hfull Hx Hkind call.
  set (self1 := activity_put self activity_id activity_type timestamp attributes).
  assert (Nx.number_of_nodes (graph self1) = max_nodes self + 1) as Hn.
  { unfold self1, activity_put. cbn [graph with_graph].
    rewrite Capacity.number_of_nodes_add_node, Hnew. lia. }
  assert (forall n, Nx.has_node (graph self1) n
                    = ((activity_id =? n)%string || Nx.has_node (graph self) n)) as Hhas.
  { intros n. unfold Nx.has_node, dict_has, self1, activity_put. cbn [graph with_graph].
    rewrite dict_get_node_add_node.
    destruct (activity_id =? n)%string; reflexivity. }
  assert (comparable (timestamped_nodes (graph self1)) = false) as Hcmp.
  { destruct (comparable (timestamped_nodes (graph self1))) eqn:E; [|reflexivity].
    exfalso.
    assert (In x (timestamped_nodes (graph self1))) as Hx1.
    { unfold timestamped_nodes in Hx |- *. apply in_flat_map in Hx as [[m data] [Hin Hx]].
      apply in_flat_map. exists (m, data). split; [|exact Hx].
      unfold self1, activity_put. cbn [graph with_graph]. unfold Nx.add_node.
      rewrite Hnew. cbn [Nx.node].
      assert (forall (d : dict Nx.attrs) k value kv, In kv d -> dict_has d k = false ->
                In kv (dict_set d k value)) as Hset.
      { clear. induction d as [|[k0 v0] d IH]; simpl; intros k value kv Hin Hk; [destruct Hin|].
        unfold dict_has in Hk. simpl in Hk.
        destruct (String.eqb_spec k0 k) as [->|Hne]; [discriminate|].
        destruct Hin as [<-|Hin]; [left; reflexivity|right].
        apply IH; [exact Hin|exact Hk]. }
      apply Hset; [exact Hin|exact Hnew]. }
    destruct (dict_get (Nx.node (graph self1)) activity_id) as [data|] eqn:Hd.
    - pose proof (Capacity.timestamp_activity_put self activity_id activity_type timestamp
                    attributes data Hc Hd) as Hts.
      apply dict_get_In in Hd.
      apply Capacity.timestamped_nodes_In in Hd; [|rewrite Hts; reflexivity].
      pose proof (comparable_same_kind _ _ _ E Hx1 Hd) as Hsame.
      unfold prune_key at 2 in Hsame. unfold node_time in Hsame. simpl snd in Hsame.
      rewrite Hts in Hsame. simpl in Hsame.
      apply Hkind. destruct (kind_of (prune_key x)); simpl in Hsame; congruence.
    - unfold Nx.has_node, dict_has in Hhas. specialize (Hhas activity_id).
      rewrite Hd, String.eqb_refl in Hhas. discriminate. }
  assert (call = raises self1 "TypeError") as Hcall.
  { unfold call. rewrite add_activity_node_cases, Hc. fold self1.
    destruct (Z.gtb_spec (Nx.number_of_nodes (graph self1)) (max_nodes self)); [|lia].
    rewrite prune_cases, Hcmp. reflexivity. }
  split; [exact Hcall|]. rewrite Hcall. cbn [after raised raises].
  split; [reflexivity|].
  split; [rewrite Hhas, String.eqb_refl; reflexivity|].
  split; [intros n Hn'; rewrite Hhas, Hn'; apply orb_true_r|].
  split; [exact Hn|reflexivity].
Qed.

Lemma add_activity_node_sort_raises_witness :
  let self := Examples.dated in
  Nx.number_of_nodes (graph self) = max_nodes self
  /\ raised (add_activity_node self "a2" "window_focus" 3 []) = Some "TypeError"
  /\ Nx.number_of_nodes (graph (after (add_activity_node self "a2" "window_focus" 3 [])))
     = max_nodes self + 1.
Proof.
  intros self.
  assert (Nx.number_of_nodes (graph self) = max_nodes self) as Hfull by reflexivity.
  assert (In ("c1", Some (PStr "2024-05-01")) (timestamped_nodes (graph self))) as Hx
    by (vm_compute; auto).
  destruct (add_activity_node_sort_raises self "a2" "window_focus" 3 []
              ("c1", Some (PStr "2024-05-01")) eq_refl eq_refl Hfull Hx)
    as [_ [Hr [_ [_ [Hn _]]]]].
  - simpl. discriminate.
  - split; [exact Hfull|]. split; [exact Hr|exact Hn].
Defined.

(** ** Next activities *)

Lemma predict_next_activities_unfold self a top_k :
  predict_next_activities self a top_k
  = if negb (Nx.has_node (graph self) a) then []
    else slice_to (stable_sort by_probability (followers (graph self) a)) top_k.
Proof. reflexivity. Qed.

Lemma dict_get_filter_keys {V} (p : string -> bool) (d : dict V) k :
  dict_get (filter (fun kv => p (fst kv)) d) k = if p k then dict_get d k else None.
Proof.
  induction d as [|[k0 v0] d IH]; simpl; [destruct (p k); reflexivity|].
  destruct (p k0) eqn:E0; simpl.
  - destruct (String.eqb_spec k0 k) as [->|Hne]; [rewrite E0; reflexivity|exact IH].
  - destruct (String.eqb_spec k0 k) as [->|Hne]; [rewrite IH, E0; reflexivity|exact IH].
Qed.

Lemma followers_In G u p :
  In p (followers G u) <->
  exists v edge_data,
    In (v, edge_data) (Nx.succ G u)
    /\ eq_str (dict_get edge_data "relationship") "followed_by" = true
    /\ p = mkNext v (get_strength edge_data 0)
             (dict_get (match dict_get (Nx.node G) v with Some d => d | None => [] end)
                "activity_type")
             (filter (fun kv => negb (existsb (String.eqb (fst kv))
                                        ["node_type"; "activity_type"; "timestamp"]))
                (match dict_get (Nx.node G) v with Some d => d | None => [] end)).
Proof.
  unfold followers. rewrite in_flat_map. split.
  - intros [[v ed] [Hin Hp]].
    destruct (eq_str (dict_get ed "relationship") "followed_by") eqn:E; [|destruct Hp].
    destruct Hp as [Hp|[]]. exists v, ed. auto.
  - intros [v [ed [Hin [E Hp]]]]. exists (v, ed). split; [exact Hin|].
    rewrite E. left. symmetry. exact Hp.
Qed.

Lemma followers_ids G u :
  map next_activity_id (followers G u)
  = map fst (filter (fun kv => eq_str (dict_get (snd kv) "relationship") "followed_by")
               (Nx.succ G u)).
Proof.
  unfold followers. induction (Nx.succ G u) as [|[v ed] l IH]; simpl; [reflexivity|].
  destruct (eq_str (dict_get ed "relationship") "followed_by"); simpl;
    [f_equal|]; exact IH.
Qed.

Lemma NoDup_map_filter {A B} (key : A -> B) (keep : A -> bool) (l : list A) :
  NoDup (map key l) -> NoDup (map key (filter keep l)).
Proof.
  intros H. induction l as [|x l IH]; simpl; [constructor|].
  simpl in H. inversion H as [|? ? Hnot Hnd]; subst.
  destruct (keep x); simpl; [|auto]. constructor; [|auto].
  intros Hin. apply Hnot. apply in_map_iff in Hin as [y [E Hy]].
  apply filter_In in Hy as [Hy _]. apply in_map_iff. eauto.
Qed.

Lemma NoDup_map_firstn {A B} (f : A -> B) (n : nat) (l : list A) :
  NoDup (map f l) -> NoDup (map f (firstn n l)).
Proof.
  revert n. induction l as [|x l IH]; intros [|n] H; simpl; try constructor.
  - inversion H as [|? ? Hnot Hnd]; subst. intros Hin. apply Hnot.
    apply in_map_iff in Hin as [y [E Hy]]. apply firstn_In in Hy.
    apply in_map_iff. eauto.
  - inversion H; subst. auto.
Qed.

Lemma StronglySorted_firstn {A} (R : A -> A -> Prop) (n : nat) (l : list A) :
  StronglySorted R l -> StronglySorted R (firstn n l).
Proof.
  intros Hs. revert n. induction Hs as [|a l Hs IH Hall]; intros [|n]; simpl;
    try constructor.
  - apply IH.
  - rewrite Forall_forall in *. intros x Hx. apply Hall. eapply firstn_In. exact Hx.
Qed.

Lemma slice_to_firstn {A} (l : list A) (n : Z) :
  exists m, slice_to l n = firstn m l /\ (0 <= n -> m = Z.to_nat n).
Proof.
  unfold slice_to. destruct (Z.leb_spec 0 n).
  - eexists. split; [reflexivity|auto].
  - eexists. split; [reflexivity|lia].
Qed.

Lemma followers_length G u :
  (List.length (followers G u) <= List.length (Nx.neighbors G u))%nat.
Proof.
  unfold followers, Nx.neighbors, dict_keys. rewrite length_map.
  induction (Nx.succ G u) as [|[v ed] l IH]; [simpl; lia|].
  cbn [flat_map]. rewrite length_app.
  destruct (eq_str (dict_get ed "relationship") "followed_by"); cbn [List.length]; lia.
Qed.

(** X4.  On a well-formed graph every predicted next activity is a successor
    of the current one over a [followed_by] edge: its probability is the
    strength of that edge, its type is the node's, and its attributes are
    the node's without [node_type], [activity_type] and [timestamp].  No
    node is predicted twice, the list is ordered by falling probability, and
    it has at most [top_k] entries.  It is the top of the ranking: a
    [followed_by] successor that is left out is no more probable than any
    entry, and none is left out when [top_k] covers all successors. *)
Theorem predict_next_activities_ranked (self : t) (a : string) (top_k : Z) :
  wf (graph self) = true ->
  let G := graph self in
  let res := predict_next_activities self a top_k in
  (forall p, In p res ->
     exists edge_data node_data,
       Nx.edge_data G a (next_activity_id p) = Some edge_data
       /\ dict_get edge_data "relationship" = Some (PStr "followed_by")
       /\ next_probability p = get_strength edge_data 0
       /\ dict_get (Nx.node G) (next_activity_id p) = Some node_data
       /\ next_activity_type p = dict_get node_data "activity_type"
       /\ (forall k, dict_get (next_attributes p) k
                     = if mem k ["node_type"; "activity_type"; "timestamp"]
                       then None else dict_get node_data k))
  /\ NoDup (map next_activity_id res)
  /\ StronglySorted (fun x y => next_probability y <= next_probability x)%Q res
  /\ (0 <= top_k -> Z.of_nat (List.length res) <= top_k)
  /\ (0 <= top_k ->
      forall v edge_data,
        Nx.edge_data G a v = Some edge_data ->
        dict_get edge_data "relationship" = Some (PStr "followed_by") ->
        (exists p, In p res /\ next_activity_id p = v)
        \/ (forall p, In p res -> get_strength edge_data 0 <= next_probability p)%Q)
  /\ (Z.of_nat (List.length (Nx.neighbors G a)) <= top_k ->
      forall v edge_data,
        Nx.edge_data G a v = Some edge_data ->
        dict_get edge_data "relationship" = Some (PStr "followed_by") ->
        exists p, In p res /\ next_activity_id p = v).
Proof.
  intros W G res. apply wf_wfP in W. fold G in W.
  set (sorted := stable_sort by_probability (followers G a)).
  assert (StronglySorted (fun x y => by_probability x y = true) sorted) as Hsorted.
  { apply stable_sort_sorted.
    - intros x y. unfold by_probability. apply Traversal.Qleb_total.
    - intros x y z. unfold by_probability. intros H1 H2.
      eapply Traversal.Qleb_trans; eassumption. }
  assert (forall x y, by_probability x y = true ->
                      (next_probability y <= next_probability x)%Q) as Hle.
  { intros x y H. apply Qle_bool_iff. exact H. }
  assert (NoDup (dict_keys (Nx.succ G a))) as Hnds.
  { unfold Nx.succ. destruct (dict_get (Nx.adj G) a) as [nb|] eqn:E; [|constructor].
    eapply wf_nodup_succ; eauto. }
  assert (NoDup (map next_activity_id sorted)) as Hnd.
  { eapply Permutation_NoDup.
    - apply Permutation_map. symmetry. apply stable_sort_perm.
    - rewrite followers_ids. apply NoDup_map_filter. exact Hnds. }
  assert (forall v edge_data,
            Nx.edge_data G a v = Some edge_data ->
            dict_get edge_data "relationship" = Some (PStr "followed_by") ->
            exists p, In p sorted /\ next_activity_id p = v
                      /\ next_probability p = get_strength edge_data 0) as Hall.
  { intros v ed Hed Hrel. eexists. split.
    - apply (proj2 (stable_sort_In by_probability (followers G a) _)).
      apply followers_In. exists v, ed. split; [apply dict_get_In; exact Hed|].
      split; [rewrite Hrel; reflexivity|reflexivity].
    - split; reflexivity. }
  assert (res = if negb (Nx.has_node G a) then [] else slice_to sorted top_k) as Hres
      by reflexivity.
  destruct (Nx.has_node G a) eqn:Hhas; simpl in Hres.
  2:{ assert (forall v, Nx.edge_data G a v = None) as Hnone.
      { intros v. destruct (Nx.edge_data G a v) eqn:E; [|reflexivity]. exfalso.
        assert (Nx.has_edge G a v = true) as He
            by (rewrite EdgeUpsert.has_edge_edge_data, E; reflexivity).
        apply (wfP_has_edge _ _ _ W) in He as [Hu _]. congruence. }
      rewrite Hres. split; [intros p []|]. split; [constructor|].
      split; [constructor|]. split; [simpl; lia|].
      split; intros ? v ed Hed; rewrite Hnone in Hed; discriminate. }
  destruct (slice_to_firstn sorted top_k) as [m [Hm Hm0]]. rewrite Hm in Hres.
  split.
  { intros p Hp. rewrite Hres in Hp. apply firstn_In in Hp.
    apply (proj1 (stable_sort_In by_probability (followers G a) p)) in Hp.
    apply followers_In in Hp as [v [ed [Hin [Hrel ->]]]]. cbn [next_activity_id
      next_probability next_activity_type next_attributes].
    assert (Nx.edge_data G a v = Some ed) as Hed
        by (apply In_dict_get; [exact Hnds|exact Hin]).
    assert (Nx.has_edge G a v = true) as He
        by (rewrite EdgeUpsert.has_edge_edge_data, Hed; reflexivity).
    apply (wfP_has_edge _ _ _ W) in He as [_ Hv].
    unfold Nx.has_node in Hv. apply dict_has_get in Hv as [nd Hnode].
    exists ed, nd. rewrite Hnode.
    split; [exact Hed|]. split; [apply Traversal.eq_str_true; exact Hrel|].
    split; [reflexivity|]. split; [reflexivity|]. split; [reflexivity|].
    intros k.
    rewrite (dict_get_filter_keys
               (fun k => negb (existsb (String.eqb k)
                                 ["node_type"; "activity_type"; "timestamp"])) nd k).
    unfold mem. destruct (existsb _ _); reflexivity. }
  split; [rewrite Hres; apply NoDup_map_firstn; exact Hnd|].
  split.
  { rewrite Hres. apply StronglySorted_firstn.
    eapply StronglySorted_impl_local; [exact Hsorted|exact Hle]. }
  split.
  { intros H0. rewrite Hres, length_firstn, (Hm0 H0). lia. }
  split.
  { intros H0 v ed Hed Hrel. destruct (Hall v ed Hed Hrel) as [p [Hp [Hid Hprob]]].
    rewrite <- (firstn_skipn m sorted) in Hp. apply in_app_iff in Hp as [Hp|Hp].
    - left. exists p. rewrite Hres. auto.
    - right. intros q Hq. rewrite Hres in Hq. rewrite <- Hprob. apply Hle.
      exact (StronglySorted_firstn_skipn (fun x y => by_probability x y = true)
               sorted m q p Hsorted Hq Hp). }
  intros Hcov v ed Hed Hrel. destruct (Hall v ed Hed Hrel) as [p [Hp [Hid _]]].
  exists p. split; [|exact Hid]. rewrite Hres, Hm0.
  - rewrite firstn_all2; [exact Hp|]. unfold sorted. rewrite stable_sort_length.
    pose proof (followers_length G a). lia.
  - lia.
Qed.

Lemma predict_next_activities_ranked_witness :
  wf (graph Examples.chain) = true
  /\ exists p, In p (predict_next_activities Examples.chain "a1" 5)
               /\ next_activity_id p = "a2".
Proof.
  assert (wf (graph Examples.chain) = true) as W by reflexivity.
  split; [exact W|].
  destruct (predict_next_activities_ranked Examples.chain "a1" 5 W)
    as [_ [_ [_ [_ [_ Hcov]]]]].
  eapply Hcov.
  - vm_compute. discriminate.
  - reflexivity.
  - reflexivity.
Defined.

(** ** Sequential activities *)

Lemma hours_pos (delta : Q) : (0 <= delta -> 0 < 1 + delta / 3600)%Q.
Proof.
  intros H. assert (0 <= delta / 3600)%Q as H1.
  { apply Qle_shift_div_l; [reflexivity|]. rewrite Qmult_0_l. exact H. }
  apply Qlt_le_trans with (y := 1%Q); [reflexivity|].
  rewrite <- (Qplus_0_r 1) at 1. apply Qplus_le_r. exact H1.
Qed.

Lemma sequential_strength_bounds (delta : Q) :
  (0 <= delta)%Q -> (0 < sequential_strength delta /\ sequential_strength delta <= 1)%Q.
Proof.
  intros H. pose proof (hours_pos delta H) as Hp. unfold sequential_strength. split.
  - apply Qlt_shift_div_l; [exact Hp|]. rewrite Qmult_0_l. reflexivity.
  - apply Qle_shift_div_r; [exact Hp|]. rewrite Qmult_1_l.
    rewrite <- (Qplus_0_r 1) at 1. apply Qplus_le_r.
    apply Qle_shift_div_l; [reflexivity|]. rewrite Qmult_0_l. exact H.
Qed.

Lemma sequential_strength_antitone (d1 d2 : Q) :
  (0 <= d1)%Q -> (d1 <= d2)%Q -> (sequential_strength d2 <= sequential_strength d1)%Q.
Proof.
  intros H1 H12. assert (0 <= d2)%Q as H2 by (eapply Qle_trans; eassumption).
  pose proof (hours_pos d1 H1) as P1. pose proof (hours_pos d2 H2) as P2.
  unfold sequential_strength.
  apply Qle_shift_div_r; [exact P2|].
  assert (1 / (1 + d1 / 3600) * (1 + d2 / 3600) == (1 + d2 / 3600) / (1 + d1 / 3600))%Q
    as -> by (field; lra).
  apply Qle_shift_div_l; [exact P1|]. rewrite Qmult_1_l.
  apply Qplus_le_r. unfold Qdiv. apply Qmult_le_compat_r; [exact H12|discriminate].
Qed.

(** A call for activities that are not apart by minus an hour returns. *)
Lemma connect_sequential_activities_cases self now a b time_delta :
  (0 <= time_delta)%Q ->
  connect_sequential_activities self now a b time_delta
  = returns (edge_put self now a b "followed_by" (sequential_strength time_delta)
               [("time_delta", PFloat time_delta)]).
Proof.
  intros H. unfold connect_sequential_activities.
  assert (Qeq_bool (1 + time_delta / 3600) 0 = false) as ->.
  { destruct (Qeq_bool (1 + time_delta / 3600) 0) eqn:E; [|reflexivity].
    apply Qeq_bool_iff in E. pose proof (hours_pos time_delta H) as Hp.
    rewrite E in Hp. discriminate Hp. }
  cbv zeta. rewrite add_temporal_edge_cases.
  assert (edge_accepted (graph self) a b [("time_delta", PFloat time_delta)] = true) as ->.
  { unfold edge_accepted.
    change (clashes [("time_delta", PFloat time_delta)] edge_parameters) with false.
    change (clashes [("time_delta", PFloat time_delta)] new_edge_keywords) with false.
    simpl. apply orb_true_r. }
  reflexivity.
Qed.

(** X5.  Two activities [time_delta] >= 0 seconds apart are connected with a
    strength in (0, 1], the larger the closer they are in time.  The call
    returns; after it both activities are nodes of the graph and the edge
    between them records [time_delta] and the time of the call.  A new edge
    is a [followed_by] edge of that strength; on an existing edge the
    strength is added up to at most 1, and its relationship and creation
    time stay as they were.  No other edge changes. *)
Theorem connect_sequential_activities_links
    (self : t) (now : Z) (a b : string) (time_delta : Q) :
  wf (graph self) = true ->
  (0 <= time_delta)%Q ->
  let G := graph self in
  let call := connect_sequential_activities self now a b time_delta in
  let G' := graph (after call) in
  let s := sequential_strength time_delta in
  raised call = None
  /\ (0 < s)%Q /\ (s <= 1)%Q
  /\ (forall nearer, (0 <= nearer)%Q -> (nearer <= time_delta)%Q ->
        (s <= sequential_strength nearer)%Q)
  /\ wf G' = true
  /\ Nx.has_node G' a = true /\ Nx.has_node G' b = true
  /\ (exists d,
        Nx.edge_data G' a b = Some d
        /\ dict_get d "time_delta" = Some (PFloat time_delta)
        /\ dict_get d "last_updated" = Some (PTime now)
        /\ (get_strength d 0 <= 1)%Q
        /\ match Nx.edge_data G a b with
           | None =>
               get_strength d 0 = s
               /\ dict_get d "relationship" = Some (PStr "followed_by")
               /\ dict_get d "created_at" = Some (PTime now)
           | Some old =>
               get_strength d 0 = Qmin 1 (get_strength old 0 + s)
               /\ dict_get d "relationship" = dict_get old "relationship"
               /\ dict_get d "created_at" = dict_get old "created_at"
           end)
  /\ (forall x y, (x, y) <> (a, b) -> Nx.edge_data G' x y = Nx.edge_data G x y).
Proof.
  intros W Hd G call G' s. apply wf_wfP in W.
  destruct (sequential_strength_bounds time_delta Hd) as [Hs0 Hs1].
  pose proof (connect_sequential_activities_cases self now a b time_delta Hd) as Hcall.
  fold call s in Hcall.
  assert (G' = graph (edge_put self now a b "followed_by" s
                        [("time_delta", PFloat time_delta)])) as HG'
      by (unfold G'; rewrite Hcall; reflexivity).
  assert (wfP G') as W' by (rewrite HG'; apply wfP_edge_put; exact W).
  pose proof (fun x y =>
                EdgeUpsert.edge_data_edge_put self now a b "followed_by" s
                  [("time_delta", PFloat time_delta)] x y W) as Hedge.
  rewrite <- HG' in Hedge.
  split; [rewrite Hcall; reflexivity|].
  assert (exists d, Nx.edge_data G' a b = Some d) as [d Hget].
  { rewrite Hedge, EdgeUpsert.edge_eqb_refl. destruct (Nx.edge_data (graph self) a b); eauto. }
  assert (Nx.has_edge G' a b = true) as He
      by (rewrite EdgeUpsert.has_edge_edge_data, Hget; reflexivity).
  apply (wfP_has_edge _ _ _ W') in He as [Ha Hb].
  split; [exact Hs0|]. split; [exact Hs1|].
  split; [intros nearer H0 H1; apply sequential_strength_antitone; assumption|].
  split; [apply wf_wfP; exact W'|]. split; [exact Ha|]. split; [exact Hb|].
  split.
  - exists d. split; [exact Hget|].
    rewrite Hedge, EdgeUpsert.edge_eqb_refl in Hget. fold G in Hget.
    destruct (Nx.edge_data G a b) as [old|].
    + injection Hget as <-.
      assert (get_strength (upserted now s [("time_delta", PFloat time_delta)] old) 0
              = cap1 (get_strength old 0 + s)%Q) as Hstr
          by (apply EdgeUpsert.get_strength_upserted; reflexivity).
      unfold upserted, dict_update in *. simpl fold_left in *.
      split; [apply dict_get_set_eq|].
      split; [rewrite dict_get_set_ne by discriminate; apply dict_get_set_eq|].
      split; [rewrite Hstr; apply EdgeUpsert.cap1_le|].
      split; [exact Hstr|].
      split; rewrite !dict_get_set_ne by discriminate; reflexivity.
    + injection Hget as <-.
      split; [reflexivity|]. split; [reflexivity|]. split; [exact Hs1|].
      split; [reflexivity|]. split; reflexivity.
  - intros x y Hne. rewrite Hedge.
    destruct (edge_eqb (a, b) (x, y)) eqn:E; [|reflexivity].
    apply edge_eqb_eq in E. congruence.
Qed.

Lemma connect_sequential_activities_links_witness :
  wf (graph Examples.chain) = true
  /\ (0 <= 1800)%Q
  /\ raised (connect_sequential_activities Examples.chain 9 "a3" "a1" 1800) = None
  /\ Nx.has_node
       (graph (after (connect_sequential_activities Examples.chain 9 "a3" "a1" 1800)))
       "a1" = true.
Proof.
  assert (wf (graph Examples.chain) = true) as W by reflexivity.
  assert (0 <= 1800)%Q as Hd by discriminate.
  split; [exact W|]. split; [exact Hd|].
  destruct (connect_sequential_activities_links Examples.chain 9 "a3" "a1" 1800 W Hd)
    as [Hr [_ [_ [_ [_ [_ [Hb _]]]]]]].
  split; [exact Hr|exact Hb].
Defined.

(** ** Related activities *)

Lemma visit_neighbor_fresh G min_strength start current depth cum st v :
  fresh_found start st ->
  fresh_found start (visit_neighbor G min_strength current depth cum st v).
Proof.
  intros [Hs [Hnd Hf]]. unfold visit_neighbor.
  destruct (in_visited v (visited st)) eqn:Ev; [repeat split; auto; apply Hf; auto|].
  match goal with |- context [Qltb ?a ?b] => destruct (Qltb a b) end;
    [repeat split; auto; apply Hf; auto|].
  assert (~ In v (visited st)) as Hv.
  { intros H. apply Traversal.in_visited_In in H. congruence. }
  assert (~ In v (map rel_activity_id (found st))) as Hv'.
  { intros H. apply in_map_iff in H as [r [E Hr]]. apply Hv. rewrite <- E.
    apply Hf. exact Hr. }
  unfold fresh_found. cbn [visited found].
  split; [right; exact Hs|].
  match goal with |- context [if ?c then _ else _] => destruct c end.
  - split.
    + rewrite map_app. cbn [map rel_activity_id]. apply NoDup_snoc; assumption.
    + intros r Hr. apply in_app_iff in Hr as [Hr|[<-|[]]].
      * split; [right; apply Hf; exact Hr|apply Hf; exact Hr].
      * cbn [rel_activity_id]. split; [left; reflexivity|]. intros E. subst v. auto.
  - split; [exact Hnd|]. intros r Hr.
    split; [right; apply Hf; exact Hr|apply Hf; exact Hr].
Qed.

Lemma visit_neighbors_fresh G min_strength start current depth cum ns st :
  fresh_found start st ->
  fresh_found start
    (fold_left (visit_neighbor G min_strength current depth cum) ns st).
Proof.
  revert st. induction ns as [|v ns IH]; simpl; intros st H; [exact H|].
  apply IH. apply visit_neighbor_fresh. exact H.
Qed.

Lemma bfs_loop_fresh G max_depth min_strength start fuel st res :
  fresh_found start st ->
  bfs_loop fuel G max_depth min_strength st = Some res ->
  NoDup (map rel_activity_id res) /\ forall r, In r res -> rel_activity_id r <> start.
Proof.
  revert st. induction fuel as [|fuel IH]; intros st Hf; simpl.
  - destruct (queue st) as [|[[n depth] s] rest]; [|discriminate].
    intros [= <-]. destruct Hf as [_ [Hnd Hf]]. split; [exact Hnd|].
    intros r Hr. apply Hf. exact Hr.
  - destruct (queue st) as [|[[n depth] s] rest].
    + intros [= <-]. destruct Hf as [_ [Hnd Hf]]. split; [exact Hnd|].
      intros r Hr. apply Hf. exact Hr.
    + assert (fresh_found start (mkBfs (visited st) rest (found st))) as H1 by exact Hf.
      destruct (depth >=? max_depth).
      * apply IH. exact H1.
      * apply IH. apply visit_neighbors_fresh. exact H1.
Qed.

Lemma filter_shorter_targets G start :
  (unvisited G [start] <= List.length (Nx.edges G))%nat.
Proof.
  unfold unvisited, targets.
  etransitivity; [apply Prediction.filter_shorter|]. rewrite length_map. lia.
Qed.

Lemma bfs_fuel_enough G max_depth min_strength start :
  exists res,
    bfs_loop (bfs_fuel G) G max_depth min_strength
      (mkBfs [start] [(start, 0, 1%Q)] []) = Some res.
Proof.
  apply Traversal.bfs_loop_total.
  unfold bfs_fuel. cbn [queue visited List.length].
  pose proof (filter_shorter_targets G start) as Hle. lia.
Qed.

(** X6.  [get_related_activities] returns every node at most once and never
    returns the node it starts from, also when edges lead back to it.  It
    returns the empty list for a node that is not in the graph and for a
    [max_depth] of zero or less. *)
Theorem get_related_activities_distinct
    (self : t) (activity_id : string) (max_depth : Z) (min_strength : Q) :
  exists res,
    get_related_activities self activity_id max_depth min_strength = Some res
    /\ NoDup (map rel_activity_id res)
    /\ (forall r, In r res -> rel_activity_id r <> activity_id)
    /\ (Nx.has_node (graph self) activity_id = false -> res = [])
    /\ (max_depth <= 0 -> res = []).
Proof.
  unfold get_related_activities.
  destruct (Nx.has_node (graph self) activity_id); cbn [negb].
  2:{ exists []. split; [reflexivity|]. split; [constructor|].
      split; [intros r []|]. split; reflexivity. }
  destruct (bfs_fuel_enough (graph self) max_depth min_strength activity_id)
    as [found Hfound].
  rewrite Hfound.
  set (by_strength := fun x y : related => Qleb (rel_strength y) (rel_strength x)).
  assert (fresh_found activity_id (mkBfs [activity_id] [(activity_id, 0, 1%Q)] []))
    as H0.
  { split; [left; reflexivity|]. split; [constructor|]. intros r []. }
  destruct (bfs_loop_fresh _ _ _ _ _ _ _ H0 Hfound) as [Hnd Hne].
  eexists. split; [reflexivity|].
  split.
  { eapply Permutation_NoDup; [|exact Hnd].
    apply Permutation_map. symmetry. apply stable_sort_perm. }
  split.
  { intros r Hr. apply Hne.
    apply (proj1 (stable_sort_In by_strength found r)). exact Hr. }
  split; [discriminate|].
  intros Hd.
  assert (found = []) as ->; [|reflexivity].
  assert (Forall (good_found (graph self) max_depth min_strength activity_id) found)
    as Hgood.
  { eapply Traversal.bfs_loop_good; [| |exact Hfound]; simpl.
    - constructor; [|constructor]. unfold good_item. simpl.
      split; [constructor|]. split; [lia|left; reflexivity].
    - constructor. }
  destruct found as [|r found]; [reflexivity|]. exfalso.
  inversion Hgood as [|? ? [_ [Hr _]] _]; subst. lia.
Qed.

(** ** Invariants of the object *)

Lemma dict_has_update_mono {V} (d kvs : dict V) k :
  dict_has d k = true -> dict_has (dict_update d kvs) k = true.
Proof.
  unfold dict_update. revert d.
  induction kvs as [|[k0 v0] kvs IH]; simpl; intros d H; [exact H|].
  apply IH. rewrite dict_has_set, H. apply orb_true_r.
Qed.

Lemma dict_has_update_new {V} (d kvs : dict V) k :
  In k (dict_keys kvs) -> dict_has (dict_update d kvs) k = true.
Proof.
  unfold dict_update. revert d.
  induction kvs as [|[k0 v0] kvs IH]; simpl; intros d H; [destruct H|].
  destruct (String.eqb_spec k0 k) as [->|Hne].
  - apply (dict_has_update_mono (dict_set d k v0) kvs k).
    rewrite dict_has_set, String.eqb_refl. reflexivity.
  - destruct H as [H|H]; [contradiction|]. apply IH. exact H.
Qed.

Lemma dict_has_update_app_l {V} (d l1 l2 : dict V) k :
  In k (dict_keys l1) -> dict_has (dict_update d (l1 ++ l2)%list) k = true.
Proof.
  intros H. rewrite EdgeUpsert.dict_update_app.
  apply dict_has_update_mono. apply dict_has_update_new. exact H.
Qed.

Lemma edge_data_add_node G n a u v :
  wfP G -> Nx.edge_data (Nx.add_node G n a) u v = Nx.edge_data G u v.
Proof. intros W. unfold Nx.edge_data. rewrite succ_add_node by exact W. reflexivity. Qed.

Lemma stamped_prune self :
  wfP (graph self) -> stamped (graph self) ->
  stamped (graph (after (_prune_old_nodes self))).
Proof.
  intros W H u v d. rewrite prune_graph, Capacity.edge_data_remove_nodes_from by exact W.
  destruct (_ || _); [discriminate|]. apply H.
Qed.

Lemma stamped_add_temporal_edge self now u v rel s a :
  wfP (graph self) -> stamped (graph self) ->
  stamped (graph (after (add_temporal_edge self now u v rel s a))).
Proof.
  intros W H x y d. rewrite EdgeUpsert.edge_data_add_temporal_edge by exact W.
  destruct (edge_accepted (graph self) u v a && edge_eqb (u, v) (x, y)); [|apply H].
  destruct (Nx.edge_data (graph self) u v) as [old|] eqn:E.
  - intros [= <-] k Hk. unfold upserted. apply dict_has_update_mono.
    rewrite !dict_has_set, (H u v old E k Hk), !orb_true_r. reflexivity.
  - intros [= <-] k Hk.
    exact (dict_has_update_app_l []
             [("relationship", PStr rel); ("strength", PFloat s);
              ("created_at", PTime now); ("last_updated", PTime now)] a k Hk).
Qed.

Lemma stamped_decay_edges self rate :
  wfP (graph self) -> stamped (graph self) -> stamped (graph (decay_edges self rate)).
Proof.
  intros W H u v d. rewrite edge_data_decay_edges by exact W.
  destruct (Nx.edge_data (graph self) u v) as [old|] eqn:E; [|discriminate].
  destruct (Qltb _ _); [discriminate|]. intros [= <-] k Hk.
  unfold decayed. rewrite dict_has_set, (H u v old E k Hk). apply orb_true_r.
Qed.

Lemma reachable_stamped self : reachable self -> stamped (graph self).
Proof.
  induction 1 as [| self id ty ts a Hr IH | self now id name a Hr IH
                  | self now u v rel s a Hr IH | self rate Hr IH].
  - intros u v d H. discriminate H.
  - pose proof (reachable_wfP self Hr) as W. rewrite add_activity_node_cases.
    destruct (clashes a activity_keywords); [exact IH|].
    assert (stamped (graph (activity_put self id ty ts a))) as H1.
    { intros u v d. unfold activity_put. cbn [graph with_graph].
      rewrite edge_data_add_node by exact W. apply IH. }
    match goal with |- context [if ?b then _ else _] => destruct b end; [|exact H1].
    apply stamped_prune; [|exact H1]. apply wfP_activity_put. exact W.
  - pose proof (reachable_wfP self Hr) as W. rewrite add_context_node_cases.
    destruct (clashes a context_keywords); [exact IH|].
    intros u v d. simpl. rewrite edge_data_add_node by exact W. apply IH.
  - apply stamped_add_temporal_edge; [apply reachable_wfP; exact Hr|exact IH].
  - apply stamped_decay_edges; [apply reachable_wfP; exact Hr|exact IH].
Qed.

(** X7.  In every state the object reaches from its creation through
    [add_activity_node], [add_context_node], [add_temporal_edge] and
    [decay_edges], the graph is well formed, every edge joins two nodes of
    the graph (pruning leaves no edge behind), and every edge carries a
    [relationship], a [strength], a [created_at] and a [last_updated]. *)
Theorem reachable_graph_invariants (self : t) :
  reachable self ->
  wf (graph self) = true
  /\ (forall u v, Nx.has_edge (graph self) u v = true ->
        Nx.has_node (graph self) u = true /\ Nx.has_node (graph self) v = true)
  /\ (forall u v d, Nx.edge_data (graph self) u v = Some d ->
        forall k, In k edge_keys -> dict_has d k = true).
Proof.
  intros Hr. pose proof (reachable_wfP self Hr) as W.
  split; [apply wf_wfP; exact W|].
  split; [intros u v; apply wfP_has_edge; exact W|].
  apply reachable_stamped. exact Hr.
Qed.

Lemma reachable_chain : reachable Examples.chain.
Proof. unfold Examples.chain. cbv zeta. repeat constructor. Qed.

Lemma reachable_dated : reachable Examples.dated.
Proof. unfold Examples.dated. cbv zeta. repeat constructor. Qed.

Lemma reachable_graph_invariants_witness :
  reachable Examples.chain
  /\ Nx.has_node (graph Examples.chain) "a1" = true
  /\ Nx.has_node (graph Examples.chain) "a2" = true.
Proof.
  split; [exact reachable_chain|].
  destruct (reachable_graph_invariants Examples.chain reachable_chain) as [_ [H _]].
  apply H. reflexivity.
Defined.

(** ** Repeated decay *)

Lemma decay_rounds_succ self rate n :
  decay_rounds self rate (S n) = decay_edges (decay_rounds self rate n) rate.
Proof. reflexivity. Qed.

Lemma effective_rate_same self self' rate :
  decay_factor self' = decay_factor self ->
  effective_rate self' rate = effective_rate self rate.
Proof. intros H. unfold effective_rate. rewrite H. reflexivity. Qed.

Lemma dict_set_twice {V} (d : dict V) k a b :
  dict_set (dict_set d k a) k b = dict_set d k b.
Proof.
  induction d as [|[k0 v0] d IH]; simpl.
  - rewrite String.eqb_refl. reflexivity.
  - destruct (k0 =? k)%string eqn:E; simpl; rewrite E; [reflexivity|].
    rewrite IH. reflexivity.
Qed.

Lemma decay_rounds_edges (self : t) (decay_rate : option Q) (n : nat) :
  let r := effective_rate self decay_rate in
  wfP (graph self) ->
  let self' := decay_rounds self decay_rate (S n) in
  wfP (graph self')
  /\ max_nodes self' = max_nodes self
  /\ decay_factor self' = decay_factor self
  /\ Nx.node (graph self') = Nx.node (graph self)
  /\ forall u v,
       Nx.edge_data (graph self') u v
       = match Nx.edge_data (graph self) u v with
         | Some d =>
             if survives r (S n) (get_strength d 1)
             then Some (dict_set d "strength"
                          (PFloat (strength_after r (S n) (get_strength d 1))))
             else None
         | None => None
         end.
Proof.
  intros r W.
  induction n as [|n IH].
  - cbv zeta. change (decay_rounds self decay_rate 1) with (decay_edges self decay_rate).
    split; [apply wfP_decay_edges; exact W|]. split; [reflexivity|].
    split; [reflexivity|]. split; [apply node_decay_edges|].
    intros u v. rewrite edge_data_decay_edges by exact W. fold r.
    destruct (Nx.edge_data (graph self) u v) as [d|]; [|reflexivity].
    cbn [survives strength_after andb].
    destruct (Qltb (get_strength d 1 * r) (1 # 10)); reflexivity.
  - cbv zeta in *. destruct IH as [Wn [Hmax [Hfactor [Hnode Hedges]]]].
    rewrite (decay_rounds_succ self decay_rate (S n)).
    set (self_n := decay_rounds self decay_rate (S n)) in *.
    split; [apply wfP_decay_edges; exact Wn|].
    split; [exact Hmax|]. split; [exact Hfactor|].
    split; [rewrite node_decay_edges; exact Hnode|].
    intros u v. rewrite edge_data_decay_edges by exact Wn.
    rewrite (effective_rate_same self self_n decay_rate Hfactor). fold r.
    rewrite Hedges.
    destruct (Nx.edge_data (graph self) u v) as [d|]; [|reflexivity].
    change (survives r (S (S n)) (get_strength d 1))
      with (survives r (S n) (get_strength d 1)
            && negb (Qltb (strength_after r (S n) (get_strength d 1) * r) (1 # 10))).
    destruct (survives r (S n) (get_strength d 1)); [|reflexivity].
    rewrite get_strength_set. cbn [andb].
    destruct (Qltb (strength_after r (S n) (get_strength d 1) * r) (1 # 10));
      [reflexivity|].
    cbn [negb]. unfold decayed. rewrite get_strength_set, dict_set_twice.
    reflexivity.
Qed.

Lemma survives_last r n s :
  survives r (S n) s = true ->
  ~ (strength_after r (S n) s < 1 # 10)%Q.
Proof.
  intros H Hlt. cbn [survives] in H. apply andb_true_iff in H as [_ H].
  apply negb_true_iff in H. apply Decay.Qltb_lt in Hlt. congruence.
Qed.

(** X8.  [n] >= 1 calls of [decay_edges] in a row, with the rate [r] the
    calls work with (the argument or, when it is missing or zero, the
    configured factor), leave the nodes and the settings as they are and
    treat every edge on its own.  Each call multiplies the strength it
    finds by [r] once, the first call reading a missing strength as 1, and
    removes the edge when the product is below 0.1.  So an edge is in the
    graph after the calls exactly when none of the [n] products, taken one
    after the other, was below 0.1; its strength is then the last product
    and its other attributes are as before.  No edge appears. *)
Theorem decay_rounds_multiply_each_round (self : t) (decay_rate : option Q) (n : nat) :
  let r := effective_rate self decay_rate in
  wf (graph self) = true -> (1 <= n)%nat ->
  let self' := decay_rounds self decay_rate n in
  Nx.node (graph self') = Nx.node (graph self)
  /\ max_nodes self' = max_nodes self
  /\ decay_factor self' = decay_factor self
  /\ (forall u v,
        Nx.edge_data (graph self') u v
        = match Nx.edge_data (graph self) u v with
          | Some d =>
              if survives r n (get_strength d 1)
              then Some (dict_set d "strength"
                           (PFloat (strength_after r n (get_strength d 1))))
              else None
          | None => None
          end)
  /\ (forall u v d',
        Nx.edge_data (graph self') u v = Some d' ->
        exists d, Nx.edge_data (graph self) u v = Some d
                  /\ get_strength d' 0 = strength_after r n (get_strength d 1)
                  /\ ~ (get_strength d' 0 < 1 # 10)%Q
                  /\ forall k, k <> "strength" -> dict_get d' k = dict_get d k).
Proof.
  intros r W Hn. apply wf_wfP in W.
  destruct n as [|n]; [lia|].
  destruct (decay_rounds_edges self decay_rate n W) as [_ [Hmax [Hfactor [Hnode Hedges]]]].
  fold r in Hedges.
  cbv zeta. split; [exact Hnode|]. split; [exact Hmax|]. split; [exact Hfactor|].
  split; [exact Hedges|].
  intros u v d' Hd'. rewrite Hedges in Hd'.
  destruct (Nx.edge_data (graph self) u v) as [d|]; [|discriminate].
  destruct (survives r (S n) (get_strength d 1)) eqn:Es; [|discriminate].
  injection Hd' as <-. exists d. rewrite get_strength_set.
  split; [reflexivity|]. split; [reflexivity|].
  split; [apply survives_last; exact Es|].
  intros k Hk. apply dict_get_set_ne. congruence.
Qed.

Lemma decay_rounds_multiply_each_round_witness :
  wf (graph Examples.chain) = true
  /\ (1 <= 3)%nat
  /\ Nx.edge_data (graph (decay_rounds Examples.chain (Some (1 # 2)) 3)) "a2" "a3" = None
  /\ exists d',
       Nx.edge_data (graph (decay_rounds Examples.chain (Some (1 # 2)) 3)) "a1" "a2"
       = Some d'
       /\ get_strength d' 0
          = strength_after (1 # 2) 3
              (get_strength
                 (match Nx.edge_data (graph Examples.chain) "a1" "a2" with
                  | Some d => d | None => [] end) 1).
Proof.
  assert (wf (graph Examples.chain) = true) as W by reflexivity.
  assert (1 <= 3)%nat as Hn by lia.
  destruct (decay_rounds_multiply_each_round Examples.chain (Some (1 # 2)) 3 W Hn)
    as [_ [_ [_ [He _]]]].
  split; [exact W|]. split; [exact Hn|]. split.
  - rewrite He. reflexivity.
  - eexists. split; [rewrite He; reflexivity|]. reflexivity.
Defined.

(** ** Statistics *)

Lemma count_type_partition G :
  0 <= count_type G "activity" /\ 0 <= count_type G "context"
  /\ count_type G "activity" + count_type G "context" <= Nx.number_of_nodes G.
Proof.
  unfold count_type, Nx.number_of_nodes.
  split; [lia|]. split; [lia|].
  induction (Nx.node G) as [|[n data] l IH]; cbn [filter List.length]; [lia|].
  destruct (eq_str (dict_get data "node_type") "activity") eqn:Ea;
    destruct (eq_str (dict_get data "node_type") "context") eqn:Ec;
    cbn [List.length]; try lia.
  apply Traversal.eq_str_true in Ea. apply Traversal.eq_str_true in Ec.
  rewrite Ea in Ec. discriminate Ec.
Qed.

Lemma dict_set_absent {V} (d : dict V) k v :
  dict_has d k = false -> dict_set d k v = (d ++ [(k, v)])%list.
Proof.
  unfold dict_has. induction d as [|[k0 v0] d IH]; simpl; intros H; [reflexivity|].
  destruct (k0 =? k)%string; [discriminate|]. rewrite IH by exact H. reflexivity.
Qed.

Lemma count_type_add_node_empty G n ty :
  count_type (if Nx.has_node G n then G else Nx.add_node G n []) ty = count_type G ty.
Proof.
  destruct (Nx.has_node G n) eqn:E; [reflexivity|].
  unfold count_type, Nx.add_node. rewrite E. cbn [Nx.node].
  rewrite dict_set_absent by exact E. rewrite filter_app, length_app.
  match goal with
  | |- context [filter ?f [?x]] => change (filter f [x]) with (@nil (string * Nx.attrs))
  end.
  f_equal. apply Nat.add_0_r.
Qed.

Lemma count_type_with_endpoints G u v ty :
  count_type (with_endpoints G u v) ty = count_type G ty.
Proof.
  unfold with_endpoints. rewrite count_type_add_node_empty.
  apply count_type_add_node_empty.
Qed.

Lemma edges_length_set node adj u nb :
  (List.length (Nx.edges (Nx.mkDiGraph node (dict_set adj u nb)))
   + List.length (match dict_get adj u with Some old => old | None => [] end)
   = List.length (Nx.edges (Nx.mkDiGraph node adj)) + List.length nb)%nat.
Proof.
  unfold Nx.edges. cbn [Nx.adj].
  induction adj as [|[k nb0] adj IH]; simpl.
  - rewrite app_nil_r, length_map. lia.
  - destruct (k =? u)%string; simpl; rewrite !length_app, !length_map; lia.
Qed.

Lemma number_of_edges_add_node_empty G n :
  wfP G ->
  Nx.number_of_edges (if Nx.has_node G n then G else Nx.add_node G n [])
  = Nx.number_of_edges G.
Proof.
  intros W. destruct (Nx.has_node G n) eqn:E; [reflexivity|].
  unfold Nx.number_of_edges, Nx.add_node. rewrite E. f_equal.
  pose proof (edges_length_set (dict_set (Nx.node G) n (dict_update [] []))
                (Nx.adj G) n []) as H.
  unfold Nx.has_node in E. rewrite <- (wf_same_keys G W) in E.
  unfold dict_has in E. destruct (dict_get (Nx.adj G) n); [discriminate|].
  assert (forall a b : nat, (a + 0 = b + 0)%nat -> a = b) as Hx by (intros; lia).
  apply Hx. exact H.
Qed.

Lemma number_of_edges_with_endpoints G u v :
  wfP G -> Nx.number_of_edges (with_endpoints G u v) = Nx.number_of_edges G.
Proof.
  intros W. unfold with_endpoints.
  rewrite number_of_edges_add_node_empty.
  - apply number_of_edges_add_node_empty. exact W.
  - destruct (Nx.has_node G u); [exact W|apply wfP_add_node; exact W].
Qed.

(** X9.  The node counts of [get_stats] need not add up: the activity and
    the context nodes together are at most all nodes, and a call of
    [add_temporal_edge] that returns, for an edge to or from a node that is
    not in the graph, adds nodes that are counted in the total and in
    neither kind.  Such a call adds exactly one edge.  A call whose
    attributes name a parameter or repeat a keyword of the creation raises
    [TypeError] and leaves the statistics as they were. *)
Theorem get_stats_counts_untyped_endpoints
    (self : t) (now : Z) (from_node to_node relationship : string)
    (strength : Q) (attributes : Nx.attrs) :
  wf (graph self) = true ->
  Nx.has_node (graph self) from_node = false
  \/ Nx.has_node (graph self) to_node = false ->
  let st := get_stats self in
  let call := add_temporal_edge self now from_node to_node relationship strength
                attributes in
  let st' := get_stats (after call) in
  activity_nodes st + context_nodes st <= total_nodes st
  /\ (clashes attributes edge_parameters = true
      \/ clashes attributes new_edge_keywords = true ->
      call = raises self "TypeError" /\ st' = st)
  /\ (clashes attributes edge_parameters = false ->
      clashes attributes new_edge_keywords = false ->
      raised call = None
      /\ activity_nodes st' = activity_nodes st
      /\ context_nodes st' = context_nodes st
      /\ total_nodes st < total_nodes st'
      /\ total_nodes st' <= total_nodes st + 2
      /\ activity_nodes st' + context_nodes st' < total_nodes st'
      /\ total_edges st' = total_edges st + 1).
Proof.
  intros W Hmiss st call st'. apply wf_wfP in W.
  set (G := graph self) in *.
  assert (Nx.has_edge G from_node to_node = false) as Hno.
  { destruct (Nx.has_edge G from_node to_node) eqn:E; [|reflexivity].
    apply (wfP_has_edge _ _ _ W) in E as [Hu Hv]. destruct Hmiss; congruence. }
  pose proof (count_type_partition G) as [Ha [Hc Hle]].
  assert (call = if negb (clashes attributes edge_parameters)
                    && negb (clashes attributes new_edge_keywords)
                 then returns (edge_put self now from_node to_node relationship
                                 strength attributes)
                 else raises self "TypeError") as Hcall.
  { unfold call. rewrite add_temporal_edge_cases. unfold edge_accepted. fold G.
    rewrite Hno. reflexivity. }
  split; [exact Hle|]. split.
  { intros Hclash. unfold st'. rewrite Hcall.
    destruct (clashes attributes edge_parameters).
    - split; reflexivity.
    - destruct Hclash as [Hx|Hx]; [discriminate|]. rewrite Hx. split; reflexivity. }
  intros Hc1 Hc2. unfold st'. rewrite Hcall, Hc1, Hc2.
  cbn [negb andb after raised returns].
  split; [reflexivity|].
  set (G2 := with_endpoints G from_node to_node).
  assert (graph (edge_put self now from_node to_node relationship strength attributes)
          = Nx.mkDiGraph (Nx.node G2)
              (dict_set (Nx.adj G2) from_node
                 (dict_set (Nx.succ G2 from_node) to_node
                    (dict_update (match Nx.edge_data G2 from_node to_node with
                                  | Some d => d | None => [] end)
                       ([("relationship", PStr relationship);
                         ("strength", PFloat strength);
                         ("created_at", PTime now);
                         ("last_updated", PTime now)] ++ attributes)%list))))
    as HG'.
  { unfold edge_put. fold G. rewrite Hno. reflexivity. }
  assert (Nx.number_of_nodes G < Nx.number_of_nodes G2
          /\ Nx.number_of_nodes G2 <= Nx.number_of_nodes G + 2) as [Hgrow Hgrow2].
  { unfold G2, with_endpoints. cbv zeta.
    destruct (Nx.has_node G from_node) eqn:Eu.
    - destruct Hmiss as [Hm|Hm]; [discriminate|].
      rewrite Hm, Capacity.number_of_nodes_add_node, Hm. lia.
    - pose proof (Capacity.number_of_nodes_add_node G from_node []) as H1.
      rewrite Eu in H1.
      destruct (Nx.has_node (Nx.add_node G from_node []) to_node) eqn:Ev; [lia|].
      rewrite Capacity.number_of_nodes_add_node, Ev. lia. }
  unfold st, get_stats. cbn [activity_nodes context_nodes total_nodes total_edges].
  rewrite HG'. fold G.
  assert (forall ty adj, count_type (Nx.mkDiGraph (Nx.node G2) adj) ty = count_type G ty)
    as Hcount.
  { intros ty adj. rewrite <- (count_type_with_endpoints G from_node to_node ty).
    reflexivity. }
  assert (forall adj, Nx.number_of_nodes (Nx.mkDiGraph (Nx.node G2) adj)
                      = Nx.number_of_nodes G2) as Hnum by reflexivity.
  rewrite !Hcount, Hnum.
  split; [reflexivity|]. split; [reflexivity|].
  split; [exact Hgrow|]. split; [exact Hgrow2|]. split; [lia|].
  assert (dict_has (Nx.succ G2 from_node) to_node = false) as Hs.
  { unfold G2. rewrite succ_with_endpoints by exact W. exact Hno. }
  pose proof (number_of_edges_with_endpoints G from_node to_node W) as He.
  fold G2 in He. unfold Nx.number_of_edges in *.
  match goal with
  | |- Z.of_nat (List.length (Nx.edges (Nx.mkDiGraph _ (dict_set _ _ ?nb)))) = _ =>
      pose proof (edges_length_set (Nx.node G2) (Nx.adj G2) from_node nb
                  : (_ + List.length (Nx.succ G2 from_node)
                     = List.length (Nx.edges G2) + List.length nb)%nat) as Hlen
  end.
  rewrite length_dict_set, Hs in Hlen. lia.
Qed.

Lemma get_stats_counts_untyped_endpoints_witness :
  wf (graph Examples.chain) = true
  /\ (Nx.has_node (graph Examples.chain) "a3" = false
      \/ Nx.has_node (graph Examples.chain) "elsewhere" = false)
  /\ activity_nodes (get_stats (after (add_temporal_edge Examples.chain 9 "a3"
                                         "elsewhere" "followed_by" (1 # 2) [])))
     + context_nodes (get_stats (after (add_temporal_edge Examples.chain 9 "a3"
                                          "elsewhere" "followed_by" (1 # 2) [])))
     < total_nodes (get_stats (after (add_temporal_edge Examples.chain 9 "a3"
                                        "elsewhere" "followed_by" (1 # 2) []))).
Proof.
  assert (wf (graph Examples.chain) = true) as W by reflexivity.
  assert (Nx.has_node (graph Examples.chain) "a3" = false
          \/ Nx.has_node (graph Examples.chain) "elsewhere" = false) as Hm
    by (right; reflexivity).
  split; [exact W|]. split; [exact Hm|].
  destruct (get_stats_counts_untyped_endpoints Examples.chain 9 "a3" "elsewhere"
              "followed_by" (1 # 2) [] W Hm) as [_ [_ H]].
  destruct (H eq_refl eq_refl) as [_ [_ [_ [_ [_ [H' _]]]]]].
  exact H'.
Defined.

(** ** Context nodes *)

(** X10.  [add_context_node] raises [TypeError] and changes nothing when
    the attributes name a parameter or one of the keywords [node_type] and
    [created_at].  Otherwise it returns, and adds or refreshes one node and
    touches nothing else: the graph stays well formed, the other nodes and
    all edges are as before, and the number of nodes grows by one exactly
    when the id is new.  A node that was there keeps the keys the call does
    not name; its [created_at] is set to the time of the call again. *)
Theorem add_context_node_upserts
    (self : t) (now : Z) (context_id context_name : string) (attributes : Nx.attrs) :
  wf (graph self) = true ->
  NoDup (dict_keys attributes) ->
  let G := graph self in
  let call := add_context_node self now context_id context_name attributes in
  let G' := graph (after call) in
  let old := match dict_get (Nx.node G) context_id with Some d => d | None => [] end in
  (clashes attributes context_keywords = true -> call = raises self "TypeError")
  /\ (clashes attributes context_keywords = false ->
      raised call = None
      /\ wf G' = true
      /\ Nx.number_of_nodes G'
         = (if Nx.has_node G context_id then Nx.number_of_nodes G
            else Nx.number_of_nodes G + 1)
      /\ (forall n, n <> context_id -> dict_get (Nx.node G') n = dict_get (Nx.node G) n)
      /\ (forall u v, Nx.edge_data G' u v = Nx.edge_data G u v)
      /\ exists data,
           dict_get (Nx.node G') context_id = Some data
           /\ dict_get data "node_type" = Some (PStr "context")
           /\ dict_get data "context_name" = Some (PStr context_name)
           /\ dict_get data "created_at" = Some (PTime now)
           /\ (forall k v, dict_get attributes k = Some v -> dict_get data k = Some v)
           /\ (forall k, ~ In k ["node_type"; "context_name"; "created_at"] ->
                         dict_has attributes k = false ->
                         dict_get data k = dict_get old k)).
Proof.
  intros W Hnd G call G' old. apply wf_wfP in W.
  split.
  { intros Hc. unfold call. rewrite add_context_node_cases, Hc. reflexivity. }
  intros Hc.
  assert (forall k, In k ["node_type"; "context_name"; "created_at"] ->
                    dict_has attributes k = false) as Hres.
  { intros k Hk. apply (EdgeUpsert.clashes_false attributes context_keywords); [exact Hc|].
    simpl in Hk |- *. tauto. }
  set (attr := ([("node_type", PStr "context"); ("context_name", PStr context_name);
                 ("created_at", PTime now)] ++ attributes)%list).
  assert (call = returns (with_graph self (Nx.add_node G context_id attr))) as Hs.
  { unfold call. rewrite add_context_node_cases, Hc. reflexivity. }
  assert (G' = Nx.add_node G context_id attr) as HG.
  { unfold G'. rewrite Hs. reflexivity. }
  rewrite Hs, HG. cbn [raised returns].
  split; [reflexivity|].
  split; [apply wf_wfP; apply wfP_add_node; exact W|].
  split; [apply Capacity.number_of_nodes_add_node|].
  split.
  { intros n Hne. rewrite dict_get_node_add_node.
    destruct (String.eqb_spec context_id n); [congruence|reflexivity]. }
  split; [intros u v; apply edge_data_add_node; exact W|].
  exists (dict_update old attr).
  split; [rewrite dict_get_node_add_node, String.eqb_refl; reflexivity|].
  assert (forall k v, dict_get [("node_type", PStr "context");
                                ("context_name", PStr context_name);
                                ("created_at", PTime now)] k = Some v ->
                      dict_get (dict_update old attr) k = Some v) as Hfixed.
  { intros k v Hk. unfold attr. rewrite EdgeUpsert.dict_update_app.
    rewrite EdgeUpsert.dict_get_update_other.
    - apply dict_get_update_last; [|exact Hk].
      apply nodupb_NoDup. reflexivity.
    - apply Hres.
      apply (proj1 (dict_has_In [("node_type", PStr "context");
                                 ("context_name", PStr context_name);
                                 ("created_at", PTime now)] k)).
      unfold dict_has. rewrite Hk. reflexivity. }
  split; [apply Hfixed; reflexivity|].
  split; [apply Hfixed; reflexivity|].
  split; [apply Hfixed; reflexivity|].
  split.
  - intros k v Hk. unfold attr. rewrite EdgeUpsert.dict_update_app.
    apply dict_get_update_last; assumption.
  - intros k Hk Ha. unfold attr. rewrite EdgeUpsert.dict_update_app.
    rewrite EdgeUpsert.dict_get_update_other by exact Ha.
    apply EdgeUpsert.dict_get_update_other. apply dict_has_false. exact Hk.
Qed.

Lemma add_context_node_upserts_witness :
  wf (graph Examples.bridge) = true
  /\ exists data,
       dict_get (Nx.node (graph (after (add_context_node Examples.bridge 9 "c1"
                                          "renamed" []))))
         "c1" = Some data
       /\ dict_get data "created_at" = Some (PTime 9).
Proof.
  assert (wf (graph Examples.bridge) = true) as W by reflexivity.
  split; [exact W|].
  destruct (add_context_node_upserts Examples.bridge 9 "c1" "renamed" [] W) as [_ H].
  - constructor.
  - destruct (H eq_refl) as [_ [_ [_ [_ [_ [data [Hd [_ [_ [Hc _]]]]]]]]]].
    exists data. split; [exact Hd|exact Hc].
Defined.

(** ** The two queries together *)

Lemma discovered_zero G min_strength start x s :
  discovered G min_strength start x 0 s -> x = start /\ s = 1%Q.
Proof.
  intros H. remember 0 as j eqn:Ej. destruct H as [|u v d depth s H Hd Hs]; [auto|].
  pose proof (Traversal.discovered_nonneg _ _ _ _ _ _ H). lia.
Qed.

Lemma discovered_one G min_strength start x s :
  discovered G min_strength start x 1 s ->
  exists d, Nx.edge_data G start x = Some d /\ s = (1 * get_strength d 0)%Q.
Proof.
  intros H. remember 1 as j eqn:Ej. destruct H as [|u v d depth s H Hd Hs];
    [discriminate|].
  assert (depth = 0) as -> by lia.
  apply discovered_zero in H as [-> ->]. eauto.
Qed.

Lemma predict_next_activities_edge self a top_k p :
  wfP (graph self) ->
  In p (predict_next_activities self a top_k) ->
  Nx.has_node (graph self) a = true
  /\ exists edge_data,
       Nx.edge_data (graph self) a (next_activity_id p) = Some edge_data
       /\ dict_get edge_data "relationship" = Some (PStr "followed_by")
       /\ next_probability p = get_strength edge_data 0.
Proof.
  intros W. rewrite predict_next_activities_unfold.
  destruct (Nx.has_node (graph self) a) eqn:Hhas; simpl; [|intros []].
  intros Hp. split; [reflexivity|].
  destruct (slice_to_firstn (stable_sort by_probability (followers (graph self) a)) top_k)
    as [m [Hm _]].
  rewrite Hm in Hp. apply firstn_In in Hp.
  apply (proj1 (stable_sort_In by_probability (followers (graph self) a) p)) in Hp.
  apply followers_In in Hp as [v [ed [Hin [Hrel ->]]]]. cbn [next_activity_id next_probability].
  exists ed. split.
  - apply In_dict_get; [|exact Hin]. unfold Nx.succ.
    destruct (dict_get (Nx.adj (graph self)) a) as [nb|] eqn:E; [|constructor].
    eapply wf_nodup_succ; eauto.
  - split; [apply Traversal.eq_str_true; exact Hrel|reflexivity].
Qed.

(** X11.  The two queries agree: a predicted next activity that is an
    activity node other than the current one, with a probability not below
    [min_strength], is among the related activities of the current one for
    every [max_depth] >= 1, at depth 1 and with the probability as its
    strength. *)
Theorem next_activities_are_related
    (self : t) (activity_id : string) (top_k max_depth : Z) (min_strength : Q)
    (p : next_activity) :
  wf (graph self) = true ->
  In p (predict_next_activities self activity_id top_k) ->
  next_activity_id p <> activity_id ->
  is_activity (graph self) (next_activity_id p) = true ->
  ~ (next_probability p < min_strength)%Q ->
  1 <= max_depth ->
  exists res r,
    get_related_activities self activity_id max_depth min_strength = Some res
    /\ In r res
    /\ rel_activity_id r = next_activity_id p
    /\ rel_depth r = 1
    /\ (rel_strength r == next_probability p)%Q.
Proof.
  intros W Hp Hne Hact Hstrong Hdepth. apply wf_wfP in W.
  destruct (predict_next_activities_edge self activity_id top_k p W Hp)
    as [Hhas [ed [Hed [_ Hprob]]]].
  set (G := graph self) in *. set (v := next_activity_id p) in *.
  unfold get_related_activities. fold G. rewrite Hhas. cbn [negb].
  destruct (bfs_fuel_enough G max_depth min_strength activity_id) as [found Hfound].
  rewrite Hfound.
  set (st0 := mkBfs [activity_id] [(activity_id, 0, 1%Q)] []) in *.
  destruct (Traversal.bfs_loop_inv G max_depth min_strength activity_id
              (bfs_fuel G) st0 [] 0 found
              (Traversal.inv_init G max_depth min_strength activity_id) Hfound)
    as [P [k [V Hinv]]].
  destruct (Traversal.inv_final G max_depth min_strength activity_id P k V found Hinv)
    as [Hcomplete _].
  assert (Forall (good_found G max_depth min_strength activity_id) found) as Hgood.
  { eapply Traversal.bfs_loop_good; [| |exact Hfound]; simpl.
    - constructor; [|constructor]. unfold good_item. simpl.
      split; [constructor|]. split; [lia|left; reflexivity].
    - constructor. }
  assert (discovered G min_strength activity_id v 1 (1 * get_strength ed 0)%Q) as Hd.
  { apply (disc_step G min_strength activity_id activity_id v ed 0 1%Q).
    - constructor.
    - exact Hed.
    - rewrite <- Hprob. exact Hstrong. }
  destruct (Hcomplete v 1 _ Hd Hdepth Hne Hact) as [r [Hr [Hid Hle]]].
  rewrite Forall_forall in Hgood. destruct (Hgood r Hr) as [Hdr [[Hge _] _]].
  assert (rel_depth r = 1) as Hone by lia.
  rewrite Hone, Hid in Hdr. apply discovered_one in Hdr as [d [Hd' Hs]].
  assert (d = ed) as -> by congruence.
  eexists. exists r. split; [reflexivity|].
  split; [apply stable_sort_In; exact Hr|].
  split; [exact Hid|]. split; [exact Hone|].
  rewrite Hs, Hprob. apply Qmult_1_l.
Qed.

Lemma next_activities_are_related_witness :
  wf (graph Examples.chain) = true
  /\ exists p res r,
       In p (predict_next_activities Examples.chain "a1" 5)
       /\ get_related_activities Examples.chain "a1" 2 (1 # 10) = Some res
       /\ In r res
       /\ rel_activity_id r = next_activity_id p.
Proof.
  assert (wf (graph Examples.chain) = true) as W by reflexivity.
  split; [exact W|].
  assert (exists p, In p (predict_next_activities Examples.chain "a1" 5)
                    /\ next_activity_id p = "a2"
                    /\ (next_probability p == 8 # 10)%Q) as [p [Hp [Hid Hprob]]].
  { eexists. split; [left; reflexivity|]. split; reflexivity. }
  destruct (next_activities_are_related Examples.chain "a1" 5 2 (1 # 10) p W Hp)
    as [res [r [Hres [Hr [Hidr _]]]]].
  - rewrite Hid. discriminate.
  - rewrite Hid. reflexivity.
  - rewrite Hprob. intros H. discriminate H.
  - lia.
  - exists p, res, r. auto.
Defined.

End GraphOps.


(* ================================================================== *)
(** * Further properties of the predictor *)
(* ================================================================== *)

Module PredictorOps.
Import DictFacts SortFacts FusionFacts Spec ContextPredictor.

(** ** The ranked list *)

Lemma fold_merge_into_same rest e :
  type (fold_left merge_into rest e) = type e
  /\ extra (fold_left merge_into rest e) = extra e
  /\ data (fold_left merge_into rest e) = data e.
Proof.
  revert e. induction rest as [|q rest IH]; simpl; intros e; [auto|].
  destruct (IH (merge_into e q)) as [H1 [H2 H3]].
  destruct (merge_into_fields e q) as [_ [_ [_ [Hd [Ht Hx]]]]].
  rewrite H1, H2, H3. auto.
Qed.

Lemma group_In k predictions p : In p (group k predictions) -> In p predictions.
Proof. unfold group. intros H. apply filter_In in H as [H _]. exact H. Qed.

Lemma group_key k predictions p :
  In p (group k predictions) -> key_eqb (dedup_key p) k = true.
Proof. unfold group. intros H. apply filter_In in H as [_ H]. exact H. Qed.

(** What the loop leaves under a key: a candidate of an equal key, with the
    first candidate's payload, type and other fields. *)
Lemma merged_entry_fields predictions k m :
  In (k, m) (merge_all predictions) ->
  key_eqb (dedup_key m) k = true
  /\ exists first rest,
       group k predictions = first :: rest
       /\ m = fold_left merge_into rest (set_count first (Some 1))
       /\ data m = data first /\ type m = type first /\ extra m = extra first.
Proof.
  intros Hin. destruct (Fusion.merged_entry predictions k m Hin) as [first [rest [Hg ->]]].
  destruct (fold_merge_into_same rest (set_count first (Some 1))) as [Ht [Hx Hd]].
  assert (In first (group k predictions)) as Hf by (rewrite Hg; left; reflexivity).
  split.
  - unfold dedup_key. rewrite Hd. apply (group_key k predictions first Hf).
  - exists first, rest. auto.
Qed.

Lemma merged_set_length M k p :
  (List.length (merged_set M k p) <= S (List.length M))%nat.
Proof.
  induction M as [|[k0 p0] M IH]; simpl; [lia|].
  destruct (key_eqb k0 k); simpl; lia.
Qed.

Lemma merge_fold_length ps M :
  (List.length (fold_left merge_step ps M) <= List.length M + List.length ps)%nat.
Proof.
  revert M. induction ps as [|p ps IH]; simpl; intros M; [lia|].
  specialize (IH (merge_step M p)).
  assert (List.length (merge_step M p) <= S (List.length M))%nat; [|lia].
  unfold merge_step. destruct (merged_get M (dedup_key p)); apply merged_set_length.
Qed.

Lemma by_confidence_desc_sorted l :
  StronglySorted (fun x y => (confidence y <= confidence x)%Q)
    (stable_sort by_confidence_desc l).
Proof.
  eapply StronglySorted_impl_local.
  - apply (stable_sort_sorted by_confidence_desc).
    + intros x y. apply Traversal.Qleb_total.
    + intros x y z H1 H2. eapply Traversal.Qleb_trans; eassumption.
  - intros x y H. apply Qle_bool_iff. exact H.
Qed.

Lemma StronglySorted_map {A B} (R : B -> B -> Prop) (f : A -> B) (l : list A) :
  StronglySorted (fun x y => R (f x) (f y)) l -> StronglySorted R (map f l).
Proof.
  induction 1 as [|a l Hs IH Hall]; simpl; constructor; [exact IH|].
  rewrite Forall_forall in *. intros y Hy. apply in_map_iff in Hy as [x [<- Hx]].
  apply Hall. exact Hx.
Qed.

Lemma ForallOrdPairs_firstn {A} (R : A -> A -> Prop) (n : nat) (l : list A) :
  ForallOrdPairs R l -> ForallOrdPairs R (firstn n l).
Proof.
  intros H. revert n. induction H as [|a l Ha H IH]; intros [|n]; simpl;
    try constructor; [|apply IH].
  rewrite Forall_forall in *. intros y Hy. apply Ha. eapply GraphOps.firstn_In. exact Hy.
Qed.

(** A list without two related entries stays so when it is put in another
    order, for a relation that does not look at the order of its sides. *)
Lemma ForallOrdPairs_perm {A} (R : A -> A -> Prop) (l l' : list A) :
  (forall x y, R x y -> R y x) ->
  Permutation l l' -> ForallOrdPairs R l -> ForallOrdPairs R l'.
Proof.
  intros Hsym. induction 1 as [|x l l' Hp IH|x y l|l l' l'' _ IH1 _ IH2]; intros H.
  - exact H.
  - inversion H as [|? ? Hx Hl]; subst. constructor; [|apply IH; exact Hl].
    rewrite Forall_forall in *. intros z Hz. apply Hx.
    apply (Permutation_in _ (Permutation_sym Hp)). exact Hz.
  - inversion H as [|? ? Hy Hl]; subst. inversion Hl as [|? ? Hx Hl']; subst.
    inversion Hy as [|? ? Hyx Hy']; subst.
    constructor; [constructor; [apply Hsym; exact Hyx|exact Hx]|].
    constructor; assumption.
  - apply IH2. apply IH1. exact H.
Qed.

Lemma Forall2_In_l {A B} (R : A -> B -> Prop) (xs : list A) (ys : list B) y :
  Forall2 R xs ys -> In y ys -> exists x, In x xs /\ R x y.
Proof.
  induction 1 as [|x0 y0 xs ys Hxy H IH]; simpl; [tauto|].
  intros [<-|Hin]; [eauto|]. destruct (IH Hin) as [x [Hx Hr]]. eauto.
Qed.

(** Keys that are equal one by one to distinct keys are distinct. *)
Lemma distinct_keys_congr ks ks' :
  Forall2 (fun k k' => key_eqb k k' = true) ks ks' -> distinct_keys ks -> distinct_keys ks'.
Proof.
  unfold distinct_keys. induction 1 as [|k k' ks ks' Hk H IH]; intros Hd; [constructor|].
  inversion Hd as [|? ? Hhead Htail]; subst. constructor; [|apply IH; exact Htail].
  rewrite Forall_forall in *. intros y' Hy'.
  destruct (Forall2_In_l _ _ _ y' H Hy') as [y [Hy Hyy]].
  rewrite <- (key_eqb_congr k k' y' Hk), <- (key_eqb_congr_r y y' k Hyy).
  apply Hhead. exact Hy.
Qed.

(** An entry of the ranked list is an entry of the merged table without its
    [_count]. *)
Lemma ranked_entry predictions max_results m :
  In m (_rank_and_deduplicate predictions max_results) ->
  exists k e, In (k, e) (merge_all predictions) /\ m = set_count e None.
Proof.
  unfold _rank_and_deduplicate. intros Hm.
  destruct (GraphOps.slice_to_firstn
              (map (fun pred => set_count pred None)
                 (stable_sort by_confidence_desc (map snd (merge_all predictions))))
              max_results) as [n [Hn _]].
  rewrite Hn in Hm. apply GraphOps.firstn_In in Hm.
  apply in_map_iff in Hm as [e [<- He]].
  apply (proj1 (stable_sort_In by_confidence_desc
                  (map snd (merge_all predictions)) e)) in He.
  apply in_map_iff in He as [[k e'] [E Hin]]. simpl in E. subst e'. eauto.
Qed.

Lemma ranked_sorted predictions max_results :
  StronglySorted (fun x y => (confidence y <= confidence x)%Q)
    (_rank_and_deduplicate predictions max_results).
Proof.
  unfold _rank_and_deduplicate.
  match goal with
  | |- StronglySorted _ (slice_to ?l _) =>
      destruct (GraphOps.slice_to_firstn l max_results) as [n [-> _]]
  end.
  apply GraphOps.StronglySorted_firstn.
  apply StronglySorted_map. apply by_confidence_desc_sorted.
Qed.

Lemma merged_keys_of_entries predictions :
  Forall2 (fun k k' => key_eqb k k' = true)
    (map fst (merge_all predictions)) (map dedup_key (map snd (merge_all predictions))).
Proof.
  assert (forall M : merged_t,
            (forall k e, In (k, e) M -> key_eqb (dedup_key e) k = true) ->
            Forall2 (fun k k' => key_eqb k k' = true)
              (map fst M) (map dedup_key (map snd M))) as H.
  { induction M as [|[k e] M IH]; simpl; intros HM; constructor.
    - apply key_eqb_sym. apply HM. left. reflexivity.
    - apply IH. intros k0 e0 Hin. apply HM. right. exact Hin. }
  apply H. intros k e Hin. apply (merged_entry_fields predictions k e Hin).
Qed.

Lemma ranked_distinct predictions max_results :
  distinct_keys (map dedup_key (_rank_and_deduplicate predictions max_results)).
Proof.
  unfold _rank_and_deduplicate.
  match goal with
  | |- distinct_keys (map _ (slice_to ?l _)) =>
      destruct (GraphOps.slice_to_firstn l max_results) as [n [-> _]]
  end.
  unfold distinct_keys. rewrite <- firstn_map. apply ForallOrdPairs_firstn.
  rewrite map_map.
  change (map (fun x => dedup_key (set_count x None))
            (stable_sort by_confidence_desc (map snd (merge_all predictions))))
    with (map dedup_key
            (stable_sort by_confidence_desc (map snd (merge_all predictions)))).
  apply (ForallOrdPairs_perm _ (map dedup_key (map snd (merge_all predictions)))).
  - intros x y. apply key_eqb_sym_false.
  - apply Permutation_map. symmetry. apply stable_sort_perm.
  - apply (distinct_keys_congr (map fst (merge_all predictions))).
    + apply merged_keys_of_entries.
    + apply merge_fold_distinct. apply Fusion.distinct_keys_nil.
Qed.

Lemma ranked_fields predictions max_results m :
  In m (_rank_and_deduplicate predictions max_results) ->
  _count m = None
  /\ exists first rest,
       group (dedup_key m) predictions = first :: rest
       /\ In first predictions
       /\ data m = data first /\ type m = type first /\ extra m = extra first
       /\ confidence m = confidence (fold_left merge_into rest (set_count first (Some 1)))
       /\ reason m = reason (fold_left merge_into rest (set_count first (Some 1))).
Proof.
  intros Hm. destruct (ranked_entry predictions max_results m Hm) as [k [e [Hin ->]]].
  split; [reflexivity|].
  destruct (merged_entry_fields predictions k e Hin)
    as [Hk [first [rest [Hg [He [Hd [Ht Hx]]]]]]].
  exists first, rest.
  assert (group (dedup_key (set_count e None)) predictions = group k predictions) as Hgk.
  { unfold group. apply filter_ext. intros p.
    apply key_eqb_congr_r. exact Hk. }
  split; [rewrite Hgk; exact Hg|].
  split; [apply (group_In k); rewrite Hg; left; reflexivity|].
  cbn [data type extra confidence reason set_count]. rewrite <- He. auto 6.
Qed.

(** X12.  The list [_rank_and_deduplicate] returns is ordered by falling
    confidence and holds no two entries with equal payload keys.  Every
    entry stands for the candidates whose key equals its own: it has the
    payload, type and other fields of the first of them, no [_count], and
    the confidence and reason that merging the later ones into the first
    gives; an entry that stands for one candidate has that candidate's
    confidence and reason.  The list is no longer than the candidate list
    and than a non-negative [max_results], and when [max_results] covers
    the candidates every candidate's payload key is in it. *)
Theorem rank_and_deduplicate_output (predictions : list prediction) (max_results : Z) :
  let res := _rank_and_deduplicate predictions max_results in
  StronglySorted (fun x y => (confidence y <= confidence x)%Q) res
  /\ distinct_keys (map dedup_key res)
  /\ (forall m, In m res ->
        _count m = None
        /\ exists first rest,
             group (dedup_key m) predictions = first :: rest
             /\ In first predictions
             /\ data m = data first /\ type m = type first /\ extra m = extra first
             /\ confidence m
                = confidence (fold_left merge_into rest (set_count first (Some 1)))
             /\ reason m = reason (fold_left merge_into rest (set_count first (Some 1)))
             /\ (rest = [] -> confidence m = confidence first /\ reason m = reason first))
  /\ (List.length res <= List.length predictions)%nat
  /\ (0 <= max_results -> Z.of_nat (List.length res) <= max_results)
  /\ (Z.of_nat (List.length predictions) <= max_results ->
      forall p, In p predictions ->
        exists m, In m res /\ key_eqb (dedup_key m) (dedup_key p) = true).
Proof.
  intros res.
  split; [apply ranked_sorted|]. split; [apply ranked_distinct|].
  split.
  { intros m Hm. destruct (ranked_fields predictions max_results m Hm)
      as [Hc [first [rest [Hg [Hin [Hd [Ht [Hx [Hconf Hreason]]]]]]]]].
    split; [exact Hc|]. exists first, rest.
    repeat (split; [assumption|]).
    intros ->. simpl in Hconf, Hreason. auto. }
  set (merged := merge_all predictions).
  set (ranked := map (fun pred => set_count pred None)
                   (stable_sort by_confidence_desc (map snd merged))).
  assert (res = slice_to ranked max_results) as Hres by reflexivity.
  destruct (GraphOps.slice_to_firstn ranked max_results) as [n [Hn Hn0]].
  rewrite Hn in Hres.
  assert (List.length ranked <= List.length predictions)%nat as Hlen.
  { unfold ranked. rewrite length_map, stable_sort_length, length_map.
    pose proof (merge_fold_length predictions []) as H. simpl in H. exact H. }
  split.
  { rewrite Hres, length_firstn. lia. }
  split.
  { intros H0. rewrite Hres, length_firstn, (Hn0 H0). lia. }
  intros Hcov p Hp.
  destruct (Fusion.merged_covers predictions p Hp) as [k [e [He Hk]]].
  exists (set_count e None). split.
  - rewrite Hres, Hn0 by lia. rewrite firstn_all2 by lia.
    unfold ranked. apply (in_map (fun pred => set_count pred None)).
    apply (proj2 (stable_sort_In by_confidence_desc (map snd merged) e)).
    apply in_map_iff. exists (k, e). auto.
  - apply (key_eqb_trans _ k); [|exact Hk].
    apply (merged_entry_fields predictions k e He).
Qed.

(** ** Counters *)

Lemma counter_total_acc {K} (c : list (K * Z)) (a : Z) :
  fold_left (fun acc kn => acc + snd kn) c a = a + counter_total c.
Proof.
  unfold counter_total. revert a.
  induction c as [|[k n] c IH]; simpl; intros a; [lia|].
  rewrite IH, (IH n). lia.
Qed.

Lemma counter_total_cons {K} (k : K) (n : Z) (c : list (K * Z)) :
  counter_total ((k, n) :: c) = n + counter_total c.
Proof. unfold counter_total at 1. simpl. apply counter_total_acc. Qed.

Lemma count_le_total {K} (c : list (K * Z)) (k : K) (n : Z) :
  Forall (fun kn => 1 <= snd kn) c -> In (k, n) c ->
  1 <= n /\ n <= counter_total c.
Proof.
  induction 1 as [|[k' m] c Hm Hc IH]; simpl; [tauto|].
  rewrite counter_total_cons. simpl in Hm.
  assert (0 <= counter_total c) as H0.
  { clear IH. induction Hc as [|[k1 n1] c H1 Hc IH1]; [reflexivity|].
    rewrite counter_total_cons. simpl in H1. lia. }
  intros [[= -> ->]|H]; [lia|]. specialize (IH H). lia.
Qed.

Lemma most_common_In {K} (c : list (K * Z)) (n : Z) x : In x (most_common c n) -> In x c.
Proof.
  unfold most_common. intros H. apply GraphOps.firstn_In in H.
  apply (proj1 (stable_sort_In (fun x y : K * Z => snd y <=? snd x) c x)). exact H.
Qed.

Lemma most_common_length {K} (c : list (K * Z)) (n : Z) :
  0 <= n -> Z.of_nat (List.length (most_common c n)) <= n.
Proof. intros H. unfold most_common. rewrite length_firstn. lia. Qed.

Section CounterFacts.
Context {K : Type} (eqb : K -> K -> bool).

Lemma counter_total_incr (c : list (K * Z)) (k : K) :
  counter_total (counter_incr eqb c k) = counter_total c + 1.
Proof.
  induction c as [|[k' n] c IH]; simpl; [reflexivity|].
  destruct (eqb k' k); rewrite !counter_total_cons; [|rewrite IH]; lia.
Qed.

Lemma counter_incr_positive (c : list (K * Z)) (k : K) :
  Forall (fun kn => 1 <= snd kn) c ->
  Forall (fun kn => 1 <= snd kn) (counter_incr eqb c k).
Proof.
  induction 1 as [|[k' n] c Hn Hc IH]; simpl.
  - constructor; [simpl; lia|constructor].
  - destruct (eqb k' k); constructor; simpl in *; auto; lia.
Qed.

Lemma counter_incr_keys (c : list (K * Z)) (k x : K) (n : Z) :
  In (x, n) (counter_incr eqb c k) -> x = k \/ In x (map fst c).
Proof.
  induction c as [|[k' m] c IH]; simpl.
  - intros [[= <- _]|[]]. left. reflexivity.
  - destruct (eqb k' k); simpl.
    + intros [[= <- _]|H]; [right; left; reflexivity|].
      right. right. apply (in_map fst) in H. exact H.
    + intros [[= <- _]|H]; [right; left; reflexivity|].
      destruct (IH H) as [->|H']; [left; reflexivity|right; right; exact H'].
Qed.

End CounterFacts.

(** ** Recent context *)

(** The counter of the truthy values of a field, as the loop builds it. *)
Lemma count_by_invariant (k : string) (all recent : list (dict pyval)) c0 :
  (forall a, In a recent -> In a all) ->
  Forall (fun kn => 1 <= snd kn) c0 ->
  (forall v, In v (map fst c0) -> truthy v = true
             /\ exists a, In a all /\ get_or_none a k = v) ->
  let c := fold_left
             (fun c activity =>
                if truthy (get_or_none activity k)
                then counter_incr pyval_eqb c (get_or_none activity k) else c)
             recent c0 in
  Forall (fun kn => 1 <= snd kn) c
  /\ counter_total c <= counter_total c0 + Z.of_nat (List.length recent)
  /\ (forall v, In v (map fst c) -> truthy v = true
                /\ exists a, In a all /\ get_or_none a k = v).
Proof.
  revert c0. induction recent as [|a recent IH]; intros c0 Hsub Hpos Hkeys;
    cbn [fold_left].
  - split; [exact Hpos|]. split; [simpl; lia|exact Hkeys].
  - assert (forall x, In x recent -> In x all) as Hsub'
        by (intros x Hx; apply Hsub; right; exact Hx).
    destruct (truthy (get_or_none a k)) eqn:Et.
    + destruct (IH (counter_incr pyval_eqb c0 (get_or_none a k)) Hsub')
        as [H1 [H2 H3]].
      * apply counter_incr_positive. exact Hpos.
      * intros v Hv. apply in_map_iff in Hv as [[v' n] [E Hin]]. simpl in E. subst v'.
        apply counter_incr_keys in Hin as [->|Hin].
        -- split; [exact Et|]. exists a. split; [apply Hsub; left|]; reflexivity.
        -- apply Hkeys. exact Hin.
      * split; [exact H1|]. split; [|exact H3].
        rewrite counter_total_incr in H2. cbn [List.length]. lia.
    + destruct (IH c0 Hsub' Hpos Hkeys) as [H1 [H2 H3]].
      split; [exact H1|]. split; [|exact H3]. cbn [List.length]. lia.
Qed.

Lemma cap09_bounds (a : Q) : (0 < a)%Q -> (0 < cap09 a)%Q /\ (cap09 a <= 9 # 10)%Q.
Proof.
  intros H. unfold cap09. split; [|apply Q.le_min_l].
  apply Q.min_glb_lt; [reflexivity|exact H].
Qed.

Lemma ratio_positive (count len : Z) :
  1 <= count -> count <= len ->
  (0 < inject_Z count / inject_Z len)%Q /\ (inject_Z count / inject_Z len <= 1)%Q.
Proof.
  intros H1 H2.
  assert (0 < inject_Z len)%Q as Hl by (unfold Qlt; simpl; lia).
  split.
  - apply Qlt_shift_div_l; [exact Hl|]. rewrite Qmult_0_l. unfold Qlt. simpl. lia.
  - apply Qle_shift_div_r; [exact Hl|]. rewrite Qmult_1_l. unfold Qle. simpl. lia.
Qed.

(** X13.  When the history query answers, [_predict_from_recent_context]
    returns, and it returns nothing for an empty history.  Every candidate
    is a [context_continuation] for one [app_name] or one [file_path]: a
    value that is true and occurs in the history.  Its confidence is above 0
    and at most 0.9, and there are at most [n_results] candidates of each
    of the two kinds. *)
Theorem recent_context_candidates (E : env) (n_results : Z) (recent : list (dict pyval)) :
  get_recent_activities E 20 1 = Ok recent ->
  exists res,
    _predict_from_recent_context E n_results = Ok res
    /\ (recent = [] -> res = [])
    /\ (forall p, In p res ->
          type p = "context_continuation"
          /\ _count p = None
          /\ (0 < confidence p)%Q /\ (confidence p <= 9 # 10)%Q
          /\ exists k v,
               (k = "app_name" \/ k = "file_path")
               /\ data p = [(k, v)]
               /\ truthy v = true
               /\ exists a, In a recent /\ get_or_none a k = v)
    /\ (0 <= n_results -> Z.of_nat (List.length res) <= 2 * n_results).
Proof.
  intros Hrecent. unfold _predict_from_recent_context. rewrite Hrecent. cbn [bind].
  destruct recent as [|a0 recent0].
  { exists []. split; [reflexivity|]. split; [reflexivity|].
    split; [intros p []|]. intros H0. change (0 <= 2 * n_results). lia. }
  clear Hrecent. eexists. split; [reflexivity|]. split; [discriminate|].
  set (recent := a0 :: recent0).
  assert (forall k,
            let c := fold_left
                       (fun c activity =>
                          if truthy (get_or_none activity k)
                          then counter_incr pyval_eqb c (get_or_none activity k) else c)
                       recent [] in
            forall v count, In (v, count) (most_common c n_results) ->
              (0 < cap09 (inject_Z count / inject_Z (Z.of_nat (List.length recent))))%Q
              /\ (cap09 (inject_Z count / inject_Z (Z.of_nat (List.length recent)))
                  <= 9 # 10)%Q
              /\ truthy v = true
              /\ exists a, In a recent /\ get_or_none a k = v) as Hsrc.
  { intros k c v count Hin. apply most_common_In in Hin.
    destruct (count_by_invariant k recent recent [] (fun a H => H)
                (Forall_nil _) (fun v (H : In v []) => match H with end))
      as [Hpos [Htot Hkeys]].
    fold c in Hpos, Htot, Hkeys.
    destruct (count_le_total c v count Hpos Hin) as [H1 H2].
    change (counter_total (@nil (pyval * Z))) with 0 in Htot.
    destruct (ratio_positive count (Z.of_nat (List.length recent)) H1 ltac:(lia))
      as [Hr _].
    destruct (cap09_bounds _ Hr) as [Hc1 Hc2].
    split; [exact Hc1|]. split; [exact Hc2|].
    apply Hkeys. apply in_map_iff. exists (v, count). auto. }
  split.
  - intros p Hp. apply in_app_iff in Hp as [Hp|Hp];
      apply in_map_iff in Hp as [[v count] [<- Hin]];
      [destruct (Hsrc "app_name" v count Hin) as [H1 [H2 [H3 H4]]]
      |destruct (Hsrc "file_path" v count Hin) as [H1 [H2 [H3 H4]]]];
      cbn [type _count confidence data];
      (split; [reflexivity|]); (split; [reflexivity|]);
      (split; [exact H1|]); (split; [exact H2|]).
    + exists "app_name", v. auto.
    + exists "file_path", v. auto.
  - intros H0. rewrite length_app, !length_map.
    pose proof (most_common_length
                  (fold_left
                     (fun c activity =>
                        if truthy (get_or_none activity "app_name")
                        then counter_incr pyval_eqb c (get_or_none activity "app_name")
                        else c) recent []) n_results H0).
    pose proof (most_common_length
                  (fold_left
                     (fun c activity =>
                        if truthy (get_or_none activity "file_path")
                        then counter_incr pyval_eqb c (get_or_none activity "file_path")
                        else c) recent []) n_results H0).
    lia.
Qed.

Lemma recent_context_candidates_witness :
  let E := Examples.predictor Examples.no_hits Examples.editor_history in
  exists recent res,
    get_recent_activities E 20 1 = Ok recent
    /\ _predict_from_recent_context E 5 = Ok res
    /\ Z.of_nat (List.length res) <= 2 * 5.
Proof.
  intros E.
  assert (exists recent, get_recent_activities E 20 1 = Ok recent) as [recent Hr]
    by (eexists; reflexivity).
  destruct (recent_context_candidates E 5 recent Hr) as [res [Hres [_ [_ Hlen]]]].
  exists recent, res. split; [exact Hr|]. split; [exact Hres|]. apply Hlen. lia.
Defined.

(** ** Time patterns *)

Lemma counter_fold_positive {A K} (eqb : K -> K -> bool) (key : A -> K)
    (l : list A) (c0 : list (K * Z)) :
  Forall (fun kn => 1 <= snd kn) c0 ->
  Forall (fun kn => 1 <= snd kn)
    (fold_left (fun c a => counter_incr eqb c (key a)) l c0).
Proof.
  revert c0. induction l as [|a l IH]; simpl; intros c0 H; [exact H|].
  apply IH. apply counter_incr_positive. exact H.
Qed.

(** X14.  When the history query answers and every timestamp parses,
    [_predict_from_time_patterns] returns, and what it returns does not
    depend on the current activity.  Every candidate is a
    [temporal_pattern] for one app name and window title; its confidence is
    the quotient of its count by the number of counted activities, above 0
    and at most 1 (the fallback 0 is never used).  There are at most
    [n_results] candidates. *)
Theorem time_pattern_candidates
    (E : env) (current_activity : dict pyval) (n_results : Z) (week : list (dict pyval)) :
  get_recent_activities E 1000 (24 * 7) = Ok week ->
  (forall a, In a week -> exists hw, fromisoformat E (dict_get a "timestamp") = Ok hw) ->
  exists res,
    _predict_from_time_patterns E current_activity n_results = Ok res
    /\ (forall other, _predict_from_time_patterns E other n_results = Ok res)
    /\ (forall p, In p res ->
          type p = "temporal_pattern"
          /\ _count p = None
          /\ (0 < confidence p)%Q /\ (confidence p <= 1)%Q
          /\ exists app_name window_title,
               data p = [("app_name", app_name); ("window_title", window_title)])
    /\ (0 <= n_results -> Z.of_nat (List.length res) <= n_results).
Proof.
  intros Hweek Hparse. unfold _predict_from_time_patterns. rewrite Hweek. cbn [bind].
  destruct (Prediction.mapM_Ok
              (fun activity =>
                 hw <- fromisoformat E (dict_get activity "timestamp") ;;
                 Ok ((Z.abs (fst hw - now_hour E) <=? 1) && (snd hw =? now_weekday E)))
              week) as [flags Hflags].
  { intros a Ha. destruct (Hparse a Ha) as [hw Hhw]. rewrite Hhw. simpl. eauto. }
  rewrite Hflags. cbn [bind].
  set (window := map fst (filter snd (combine week flags))).
  set (counter := fold_left
                    (fun c activity =>
                       counter_incr pair_eqb c
                         (get_or_none activity "app_name",
                          get_or_none activity "window_title"))
                    (slice_to window (n_results * 3)) []).
  set (total := counter_total counter).
  assert (Forall (fun kn => 1 <= snd kn) counter) as Hpos.
  { unfold counter.
    apply (counter_fold_positive pair_eqb
             (fun activity => (get_or_none activity "app_name",
                               get_or_none activity "window_title"))).
    constructor. }
  eexists. split; [reflexivity|]. split; [intros other; reflexivity|].
  destruct (Z.gtb_spec total 0) as [Htot|Htot].
  - split.
    + intros p Hp. apply in_map_iff in Hp as [[[app title] count] [<- Hin]].
      apply most_common_In in Hin.
      destruct (count_le_total counter (app, title) count Hpos Hin) as [H1 H2].
      fold total in H2.
      destruct (ratio_positive count total H1 H2) as [Hr1 Hr2].
      cbn [type _count confidence data].
      split; [reflexivity|]. split; [reflexivity|].
      split; [exact Hr1|]. split; [exact Hr2|]. eauto.
    + intros H0. rewrite length_map. apply most_common_length. exact H0.
  - assert (counter = []) as Hempty.
    { destruct counter as [|[k n] c] eqn:Ec; [reflexivity|]. exfalso.
      destruct (count_le_total ((k, n) :: c) k n Hpos (or_introl eq_refl)) as [H1 H2].
      fold total in H2. lia. }
    rewrite Hempty. unfold most_common. simpl stable_sort. rewrite firstn_nil.
    split; [intros p []|].
    intros H0. change (0 <= n_results). exact H0.
Qed.

Lemma time_pattern_candidates_witness :
  let E := Examples.predictor Examples.no_hits Examples.editor_history in
  exists week res,
    get_recent_activities E 1000 (24 * 7) = Ok week
    /\ _predict_from_time_patterns E [] 5 = Ok res
    /\ Z.of_nat (List.length res) <= 5.
Proof.
  intros E.
  assert (exists week, get_recent_activities E 1000 (24 * 7) = Ok week) as [week Hw]
    by (eexists; reflexivity).
  destruct (time_pattern_candidates E [] 5 week Hw) as [res [Hres [_ [_ Hlen]]]].
  - intros a _. eexists. reflexivity.
  - exists week, res. split; [exact Hw|]. split; [exact Hres|]. apply Hlen. lia.
Defined.

(** ** The request as a whole *)

Lemma StronglySorted_filter {A} (R : A -> A -> Prop) (f : A -> bool) (l : list A) :
  StronglySorted R l -> StronglySorted R (filter f l).
Proof.
  induction 1 as [|a l Hs IH Hall]; simpl; [constructor|].
  destruct (f a); [|exact IH]. constructor; [exact IH|].
  rewrite Forall_forall in *. intros y Hy. apply filter_In in Hy as [Hy _].
  apply Hall. exact Hy.
Qed.

Lemma time_patterns_type E current_activity n_results res :
  _predict_from_time_patterns E current_activity n_results = Ok res ->
  forall p, In p res -> type p = "temporal_pattern".
Proof.
  unfold _predict_from_time_patterns. intros H.
  apply Prediction.bind_Ok in H as [week [_ H]].
  apply Prediction.bind_Ok in H as [flags [_ H]].
  injection H as <-. intros p Hp.
  apply in_map_iff in Hp as [[[app title] count] [<- _]]. reflexivity.
Qed.

Lemma recent_context_type E n_results res :
  _predict_from_recent_context E n_results = Ok res ->
  forall p, In p res -> type p = "context_continuation".
Proof.
  unfold _predict_from_recent_context. intros H.
  apply Prediction.bind_Ok in H as [recent [_ H]].
  destruct recent as [|a0 recent0]; injection H as <-; intros p Hp; [destruct Hp|].
  apply in_app_iff in Hp as [Hp|Hp];
    apply in_map_iff in Hp as [[v count] [<- _]]; reflexivity.
Qed.

Lemma semantics_type E description n_results res :
  _predict_from_semantics E description n_results = Ok res ->
  forall p, In p res -> type p = "semantic".
Proof.
  unfold _predict_from_semantics. intros H.
  apply Prediction.bind_Ok in H as [hits [_ H]]. injection H as <-.
  intros p Hp. apply in_map_iff in Hp as [r [<- _]]. reflexivity.
Qed.

Lemma graph_type E activity_id top_k p :
  In p (_predict_from_graph E activity_id top_k) -> type p = "graph".
Proof.
  unfold _predict_from_graph. intros Hp.
  apply in_map_iff in Hp as [r [<- _]]. reflexivity.
Qed.

Lemma ForallOrdPairs_filter {A} (R : A -> A -> Prop) (f : A -> bool) (l : list A) :
  ForallOrdPairs R l -> ForallOrdPairs R (filter f l).
Proof.
  induction 1 as [|a l Ha Hl IH]; simpl; [constructor|].
  destruct (f a); [|exact IH]. constructor; [|exact IH].
  rewrite Forall_forall in *. intros y Hy. apply filter_In in Hy as [Hy _].
  apply Ha. exact Hy.
Qed.

Lemma map_filter_keys (f : prediction -> bool) (l : list prediction) :
  ForallOrdPairs (fun k k' => key_eqb k k' = false) (map dedup_key l) ->
  ForallOrdPairs (fun k k' => key_eqb k k' = false) (map dedup_key (filter f l)).
Proof.
  induction l as [|a l IH]; simpl; intros H; [constructor|].
  inversion H as [|? ? Ha Hl]; subst.
  destruct (f a); simpl; [|apply IH; exact Hl]. constructor; [|apply IH; exact Hl].
  rewrite Forall_forall in *. intros k Hk. apply Ha.
  apply in_map_iff in Hk as [x [<- Hx]]. apply filter_In in Hx as [Hx _].
  apply in_map. exact Hx.
Qed.

(** X15.  The list a request returns is ordered by falling confidence and
    holds no two entries with equal payload keys.  None of its entries
    carries the internal [_count], and each has the type of one of the four
    sources. *)
Theorem predict_context_output
    (E : env) (current_activity : dict pyval) (max_results : Z) (res : list prediction) :
  predict_context E current_activity max_results = Ok res ->
  StronglySorted (fun x y => (confidence y <= confidence x)%Q) res
  /\ distinct_keys (map dedup_key res)
  /\ (forall p, In p res ->
        _count p = None
        /\ In (type p)
             ["semantic"; "graph"; "temporal_pattern"; "context_continuation"]).
Proof.
  intros H. unfold predict_context in H.
  apply Prediction.bind_Ok in H as [semantic [Hs H]].
  apply Prediction.bind_Ok in H as [temporal [Ht H]].
  apply Prediction.bind_Ok in H as [continuation [Hc H]].
  injection H as <-.
  match goal with
  | |- context [_rank_and_deduplicate ?ps max_results] => set (predictions := ps)
  end.
  pose proof (ranked_sorted predictions max_results) as Hsorted.
  pose proof (ranked_distinct predictions max_results) as Hnd.
  pose proof (ranked_fields predictions max_results) as Hfields.
  unfold filter_by_confidence.
  split; [apply StronglySorted_filter; exact Hsorted|].
  split; [apply map_filter_keys; exact Hnd|].
  intros p Hp. apply filter_In in Hp as [Hp _].
  destruct (Hfields p Hp) as [Hcount [first [rest [_ [Hin [_ [Htype _]]]]]]].
  split; [exact Hcount|]. rewrite Htype.
  unfold predictions in Hin. apply in_app_iff in Hin as [Hin|Hin].
  { rewrite (semantics_type _ _ _ _ Hs first Hin). simpl. auto. }
  apply in_app_iff in Hin as [Hin|Hin].
  { destruct (dict_get current_activity "activity_id") as [activity_id|];
      [|destruct Hin].
    rewrite (graph_type _ _ _ _ Hin). simpl. auto. }
  apply in_app_iff in Hin as [Hin|Hin].
  { rewrite (time_patterns_type _ _ _ _ Ht first Hin). simpl. auto. }
  rewrite (recent_context_type _ _ _ Hc first Hin). simpl. auto.
Qed.

Lemma predict_context_output_witness :
  let E := Examples.predictor Examples.three_hits Examples.editor_history in
  exists res,
    predict_context E [("app_name", PStr "editor")] 5 = Ok res
    /\ distinct_keys (map dedup_key res).
Proof.
  intros E.
  assert (exists res, predict_context E [("app_name", PStr "editor")] 5 = Ok res)
    as [res Hres] by (eexists; reflexivity).
  destruct (predict_context_output E [("app_name", PStr "editor")] 5 res Hres)
    as [_ [Hnd _]].
  exists res. split; [exact Hres|exact Hnd].
Defined.

(** ** The query text *)

Lemma contains_join sep parts p :
  In p parts -> contains (join sep parts) p = true.
Proof.
  induction parts as [|q parts IH]; [intros []|].
  destruct parts as [|q' parts].
  - intros [->|[]]. apply contains_refl.
  - intros [->|H]; cbn [join].
    + apply contains_app_l. apply contains_refl.
    + apply contains_app_r. apply contains_app_r. apply IH. exact H.
Qed.

Lemma join_first sep c s parts :
  exists s', join sep (String c s :: parts) = String c s'.
Proof. destruct parts; cbn [join append]; eauto. Qed.

Lemma blank_first c s :
  EmbeddingStore.is_space c = false -> EmbeddingStore.blank (String c s) = false.
Proof.
  intros H. unfold EmbeddingStore.blank. cbn [EmbeddingStore.all_space String.eqb].
  rewrite H. reflexivity.
Qed.

Lemma description_not_blank (E : env) (activity : dict pyval) :
  EmbeddingStore.blank (_build_context_description E activity) = false.
Proof.
  unfold _build_context_description.
  destruct (truthy (get_or_none activity "app_name"));
    destruct (truthy (get_or_none activity "window_title"));
    destruct (truthy (get_or_none activity "file_path"));
    destruct (truthy (get_or_none activity "url"));
    cbn [app append];
    try (match goal with
         | |- EmbeddingStore.blank (join ?sep (String ?c ?s :: ?parts)) = false =>
             destruct (join_first sep c s parts) as [s' ->]
         end);
    apply blank_first; reflexivity.
Qed.

(** X16.  The text [_build_context_description] builds is never blank: it
    is not empty and not white space only.  For each of [app_name],
    [window_title], [file_path] and [url] whose value is true, the text
    contains the field's label followed by the value. *)
Theorem build_context_description_text (E : env) (activity : dict pyval) :
  let description := _build_context_description E activity in
  EmbeddingStore.blank description = false
  /\ forall field label,
       In (field, label)
          [("app_name", "Application: "); ("window_title", "Window: ");
           ("file_path", "File: "); ("url", "URL: ")] ->
       truthy (get_or_none activity field) = true ->
       contains description (label ++ format_value E (get_or_none activity field)) = true.
Proof.
  intros description.
  split; [apply description_not_blank|].
  unfold description, _build_context_description.
  set (v1 := format_value E (get_or_none activity "app_name")).
  set (v2 := format_value E (get_or_none activity "window_title")).
  set (v3 := format_value E (get_or_none activity "file_path")).
  set (v4 := format_value E (get_or_none activity "url")).
  intros field label Hin Ht.
  assert (forall parts p,
            In p parts ->
            contains (match parts with [] => "Current activity" | _ => join " | " parts end)
              p = true) as Hparts.
  { intros parts p Hp. destruct parts; [destruct Hp|]. apply contains_join. exact Hp. }
  apply Hparts.
  destruct Hin as [E1|[E1|[E1|[E1|[]]]]]; injection E1 as <- <-; rewrite Ht;
    fold v1 v2 v3 v4; rewrite ?in_app_iff; simpl; auto.
Qed.

(** ** The store *)

Lemma mapM_Forall2 {A B} (f : A -> result B) (l : list A) (ys : list B) :
  mapM f l = Ok ys -> Forall2 (fun x y => f x = Ok y) l ys.
Proof.
  revert ys. induction l as [|x l IH]; simpl; intros ys H.
  - injection H as <-. constructor.
  - apply Prediction.bind_Ok in H as [y [Hy H]].
    apply Prediction.bind_Ok in H as [ys' [Hys H]]. injection H as <-.
    constructor; [exact Hy|apply IH; exact Hys].
Qed.

Lemma In_combine_seq {A} (l : list A) (start i : nat) (x : A) :
  In (i, x) (combine (seq start (List.length l)) l) ->
  (start <= i)%nat /\ nth_error l (i - start) = Some x.
Proof.
  revert start. induction l as [|y l IH]; simpl; intros start; [intros []|].
  intros [[= <- <-]|H].
  - split; [lia|]. rewrite Nat.sub_diag. reflexivity.
  - destruct (IH (S start) H) as [Hle Hn]. split; [lia|].
    replace (i - start)%nat with (S (i - S start)) by lia. exact Hn.
Qed.

Lemma format_result_cases results threshold i id out :
  EmbeddingStore.format_result results threshold (i, id) = Ok out ->
  out = []
  \/ exists dist text metadata,
       EmbeddingStore.field_at (EmbeddingStore.distances results) i 0%Q = Ok dist
       /\ EmbeddingStore.field_at (EmbeddingStore.documents results) i PNone = Ok text
       /\ EmbeddingStore.field_at (EmbeddingStore.metadatas results) i [] = Ok metadata
       /\ (threshold <= 1 - dist)%Q
       /\ out = [EmbeddingStore.mkDocument id text metadata (1 - dist)%Q].
Proof.
  unfold EmbeddingStore.format_result. intros H.
  apply Prediction.bind_Ok in H as [dist [Hd H]].
  destruct (Qltb (1 - dist) threshold) eqn:Ew.
  - injection H as <-. left. reflexivity.
  - apply Prediction.bind_Ok in H as [text [Ht H]].
    apply Prediction.bind_Ok in H as [metadata [Hm H]]. injection H as <-.
    right. exists dist, text, metadata.
    split; [exact Hd|]. split; [exact Ht|]. split; [exact Hm|]. split; [|reflexivity].
    apply Qnot_lt_le. intros Hlt. apply Decay.Qltb_lt in Hlt. congruence.
Qed.

Lemma formatted_length {A B} (f : A -> result (list B)) (l : list A) (ys : list (list B)) :
  Forall2 (fun x y => f x = Ok y) l ys ->
  (forall x y, f x = Ok y -> (List.length y <= 1)%nat) ->
  (List.length (List.concat ys) <= List.length l)%nat.
Proof.
  intros H Hone. induction H as [|x y l ys Hxy H IH]; simpl; [lia|].
  rewrite length_app. specialize (Hone x y Hxy). lia.
Qed.

Lemma Forall2_In_r {A B} (R : A -> B -> Prop) (l : list A) (ys : list B) y :
  Forall2 R l ys -> In y ys -> exists x, In x l /\ R x y.
Proof.
  induction 1 as [|x y' l ys Hxy H IH]; simpl; [intros []|].
  intros [<-|Hy]; [eauto|]. destruct (IH Hy) as [x' [Hx' Hr]]. eauto.
Qed.

(** The entries built from the ids of an answer: each comes from one id, with
    what the other fields hold at the id's position. *)
Lemma formatted_documents results threshold (first : list string)
    (formatted : list (list EmbeddingStore.document)) d :
  Forall2 (fun x y => EmbeddingStore.format_result results threshold x = Ok y)
    (combine (seq 0 (List.length first)) first) formatted ->
  In d (List.concat formatted) ->
  exists i dist,
    nth_error first i = Some (EmbeddingStore.doc_id d)
    /\ EmbeddingStore.field_at (EmbeddingStore.distances results) i 0%Q = Ok dist
    /\ EmbeddingStore.doc_similarity d = (1 - dist)%Q
    /\ EmbeddingStore.field_at (EmbeddingStore.documents results) i PNone
       = Ok (EmbeddingStore.doc_text d)
    /\ EmbeddingStore.field_at (EmbeddingStore.metadatas results) i []
       = Ok (EmbeddingStore.doc_metadata d)
    /\ (threshold <= 1 - dist)%Q.
Proof.
  intros Hf Hd. apply in_concat in Hd as [out [Hout Hd]].
  destruct (Forall2_In_r _ _ _ out Hf Hout) as [[i id] [Hin Hfmt]].
  apply In_combine_seq in Hin as [_ Hnth]. rewrite Nat.sub_0_r in Hnth.
  apply format_result_cases in Hfmt as [->|[dist [text [metadata [H1 [H2 [H3 [H4 ->]]]]]]]];
    [destruct Hd|].
  destruct Hd as [<-|[]]. exists i, dist. cbn. auto 10.
Qed.

Lemma search_similar_queries self query_text n_results where_ threshold res :
  EmbeddingStore.search_similar self query_text n_results where_ threshold = Ok res ->
  EmbeddingStore.blank query_text = false ->
  exists results, EmbeddingStore.query self query_text n_results where_ = Ok results.
Proof.
  unfold EmbeddingStore.search_similar. intros H Hb. rewrite Hb in H.
  apply Prediction.bind_Ok in H as [results [Hq _]]. eauto.
Qed.

Lemma search_similar_threshold self query_text n_results where_ threshold res :
  EmbeddingStore.search_similar self query_text n_results where_ threshold = Ok res ->
  forall d, In d res -> (threshold <= EmbeddingStore.doc_similarity d)%Q.
Proof.
  unfold EmbeddingStore.search_similar.
  destruct (EmbeddingStore.blank query_text); [intros [= <-] d []|].
  intros H. apply Prediction.bind_Ok in H as [results [_ H]].
  destruct (EmbeddingStore.ids results) as [[|first others]|];
    try (injection H as <-; intros d []).
  apply Prediction.bind_Ok in H as [formatted [Hf H]]. injection H as <-.
  apply mapM_Forall2 in Hf. intros d Hd.
  destruct (formatted_documents results threshold first formatted d Hf Hd)
    as [i [dist [_ [_ [H3 [_ [_ H6]]]]]]].
  rewrite H3. exact H6.
Qed.

(** X17.  A search that returns leaves out every document whose similarity
    [1 - distance] is below the threshold.  For a blank query text, empty
    or white space only, it returns nothing, whatever the collection holds.
    Otherwise the collection was queried, and each entry is one of the ids
    of the answer, with the similarity, text and metadata found at the
    same position; there are no more entries than ids. *)
Theorem search_similar_results
    (self : EmbeddingStore.t) (query_text : string) (n_results : Z)
    (where_ : option (dict pyval)) (threshold : Q) (res : list EmbeddingStore.document) :
  EmbeddingStore.search_similar self query_text n_results where_ threshold = Ok res ->
  (EmbeddingStore.blank query_text = true -> res = [])
  /\ (EmbeddingStore.blank query_text = false ->
      exists results,
        EmbeddingStore.query self query_text n_results where_ = Ok results
        /\ (res = []
            \/ exists first others,
                 EmbeddingStore.ids results = Some (first :: others)
                 /\ (List.length res <= List.length first)%nat
                 /\ forall d, In d res ->
                      exists i dist,
                        nth_error first i = Some (EmbeddingStore.doc_id d)
                        /\ EmbeddingStore.field_at (EmbeddingStore.distances results)
                             i 0%Q = Ok dist
                        /\ EmbeddingStore.doc_similarity d = (1 - dist)%Q
                        /\ EmbeddingStore.field_at (EmbeddingStore.documents results)
                             i PNone = Ok (EmbeddingStore.doc_text d)
                        /\ EmbeddingStore.field_at (EmbeddingStore.metadatas results)
                             i [] = Ok (EmbeddingStore.doc_metadata d)))
  /\ (forall d, In d res -> (threshold <= EmbeddingStore.doc_similarity d)%Q).
Proof.
  intros Hres.
  split; [|split; [|exact (search_similar_threshold _ _ _ _ _ _ Hres)]].
  { intros Hb. unfold EmbeddingStore.search_similar in Hres. rewrite Hb in Hres.
    injection Hres as <-. reflexivity. }
  intros Hb. unfold EmbeddingStore.search_similar in Hres. rewrite Hb in Hres.
  apply Prediction.bind_Ok in Hres as [results [Hq H]].
  exists results. split; [exact Hq|].
  destruct (EmbeddingStore.ids results) as [[|first others]|] eqn:Eids;
    try (injection H as <-; left; reflexivity).
  apply Prediction.bind_Ok in H as [formatted [Hf H]]. injection H as <-.
  apply mapM_Forall2 in Hf.
  right. exists first, others. split; [reflexivity|]. split.
  - pose proof (formatted_length _ _ _ Hf) as Hlen.
    rewrite length_combine, length_seq, Nat.min_id in Hlen. apply Hlen.
    intros [i id] y Hy.
    apply format_result_cases in Hy as [->|[? [? [? [_ [_ [_ [_ ->]]]]]]]]; simpl; lia.
  - intros d Hd.
    destruct (formatted_documents results threshold first formatted d Hf Hd)
      as [i [dist [H1 [H2 [H3 [H4 [H5 _]]]]]]].
    exists i, dist. auto.
Qed.

Lemma search_similar_results_witness :
  exists res,
    EmbeddingStore.search_similar Examples.store "Application: editor" 10 None (1 # 2)
    = Ok res
    /\ List.length res = 2%nat
    /\ forall d, In d res -> (1 # 2 <= EmbeddingStore.doc_similarity d)%Q.
Proof.
  assert (exists res,
            EmbeddingStore.search_similar Examples.store "Application: editor" 10 None
              (1 # 2) = Ok res /\ List.length res = 2%nat) as [res [Hres Hlen]]
    by (eexists; split; reflexivity).
  destruct (search_similar_results Examples.store "Application: editor" 10 None (1 # 2)
              res Hres) as [_ [_ Hall]].
  exists res. split; [exact Hres|]. split; [exact Hlen|exact Hall].
Defined.

(** X18.  With the store as the predictor's [embeddings], the semantic
    search of a request always reaches the collection, since the query text
    is never blank; and every semantic candidate it yields has a confidence
    of at least 0.5, the similarity of a document of the answer. *)
Theorem semantic_candidates_from_store
    (self : EmbeddingStore.t) (E : env) (current_activity : dict pyval) (n_results : Z)
    (res : list prediction) :
  let E' := EmbeddingStore.with_store self E in
  let description := _build_context_description E' current_activity in
  _predict_from_semantics E' description n_results = Ok res ->
  (exists results,
     EmbeddingStore.query self description n_results None = Ok results)
  /\ forall p, In p res ->
       type p = "semantic"
       /\ _count p = None
       /\ (1 # 2 <= confidence p)%Q
       /\ exists docs d,
            EmbeddingStore.find_related_contexts self description n_results = Ok docs
            /\ In d docs
            /\ confidence p = EmbeddingStore.doc_similarity d
            /\ data p = EmbeddingStore.doc_metadata d.
Proof.
  intros E' description H. unfold _predict_from_semantics in H.
  apply Prediction.bind_Ok in H as [hits [Hhits H]]. injection H as <-.
  cbn [search_similar E' EmbeddingStore.with_store] in Hhits.
  apply Prediction.bind_Ok in Hhits as [docs [Hdocs Hhits]]. injection Hhits as <-.
  pose proof (search_similar_threshold self description n_results None (1 # 2) docs
                Hdocs) as Hall.
  pose proof (description_not_blank E' current_activity) as Hblank.
  fold description in Hblank.
  split.
  - exact (search_similar_queries self description n_results None (1 # 2) docs
             Hdocs Hblank).
  - intros p Hp. apply in_map_iff in Hp as [hit [<- Hhit]].
    apply in_map_iff in Hhit as [d [<- Hd]]. cbn.
    split; [reflexivity|]. split; [reflexivity|]. split; [apply Hall; exact Hd|].
    exists docs, d. auto.
Qed.

Lemma semantic_candidates_from_store_witness :
  let E := EmbeddingStore.with_store Examples.store
             (Examples.predictor Examples.no_hits Examples.no_history) in
  exists res,
    _predict_from_semantics E
      (_build_context_description E [("app_name", PStr "editor")]) 10 = Ok res
    /\ forall p, In p res -> (1 # 2 <= confidence p)%Q.
Proof.
  intros E.
  assert (exists res,
            _predict_from_semantics E
              (_build_context_description E [("app_name", PStr "editor")]) 10 = Ok res)
    as [res Hres] by (eexists; reflexivity).
  destruct (semantic_candidates_from_store Examples.store
              (Examples.predictor Examples.no_hits Examples.no_history)
              [("app_name", PStr "editor")] 10 res Hres) as [_ Hall].
  exists res. split; [exact Hres|]. intros p Hp. apply (Hall p Hp).
Defined.

(** ** Suggestions *)

Lemma unique_items_In seen items x :
  In x (unique_items seen items) -> In x items.
Proof.
  revert seen. induction items as [|i items IH]; simpl; intros seen; [tauto|].
  destruct (existsb (suggestion_eqb i) seen).
  - intros H. right. exact (IH seen H).
  - intros [<-|H]; [left; reflexivity|right; exact (IH _ H)].
Qed.

Lemma unique_items_fresh seen items x :
  In x (unique_items seen items) -> existsb (suggestion_eqb x) seen = false.
Proof.
  revert seen. induction items as [|i items IH]; simpl; intros seen; [tauto|].
  destruct (existsb (suggestion_eqb i) seen) eqn:E.
  - apply IH.
  - intros [<-|H]; [exact E|]. specialize (IH _ H). simpl in IH.
    apply orb_false_iff in IH as [_ IH]. exact IH.
Qed.

(** No item that is kept equals an item kept before it. *)
Lemma unique_items_distinct seen items :
  ForallOrdPairs (fun x y => suggestion_eqb y x = false) (unique_items seen items).
Proof.
  revert seen. induction items as [|i items IH]; simpl; intros seen; [constructor|].
  destruct (existsb (suggestion_eqb i) seen); [apply IH|].
  constructor; [|apply IH].
  apply Forall_forall. intros y Hy. apply unique_items_fresh in Hy. simpl in Hy.
  apply orb_false_iff in Hy as [Hy _]. exact Hy.
Qed.

Lemma slice_to_5 {A} (l : list A) : slice_to l 5 = firstn 5 l.
Proof. reflexivity. Qed.

Lemma predict_context_threshold E current_activity max_results res :
  predict_context E current_activity max_results = Ok res ->
  forall p, In p res -> (min_confidence E <= confidence p)%Q.
Proof.
  intros H. unfold predict_context in H.
  apply Prediction.bind_Ok in H as [semantic [_ H]].
  apply Prediction.bind_Ok in H as [temporal [_ H]].
  apply Prediction.bind_Ok in H as [continuation [_ H]].
  injection H as <-. intros p Hp. unfold filter_by_confidence in Hp.
  apply filter_In in Hp as [_ Hp]. apply Qle_bool_iff. exact Hp.
Qed.

Lemma field_suggestions_In (field : string) (predictions : list prediction) x :
  In x (flat_map (fun pred =>
                    if truthy (get_or_none (data pred) field)
                    then [mkSuggestion (get_or_none (data pred) field)
                            (confidence pred) (reason pred)]
                    else [])
                 predictions) ->
  exists pred, In pred predictions
    /\ truthy (get_or_none (data pred) field) = true
    /\ x = mkSuggestion (get_or_none (data pred) field) (confidence pred) (reason pred).
Proof.
  intros H. apply in_flat_map in H as [pred [Hin H]].
  destruct (truthy (get_or_none (data pred) field)) eqn:E; [|destruct H].
  destruct H as [<-|[]]. exists pred. auto.
Qed.

Lemma no_actions_no_graph (predictions : list prediction) :
  flat_map (fun pred =>
              if (type pred =? "graph")%string
              then [mkAction (get_or_none (extra pred) "activity_type") (data pred)
                      (confidence pred) (reason pred)]
              else [])
           predictions = [] <->
  forall p, In p predictions -> type p <> "graph".
Proof.
  induction predictions as [|q predictions IH]; simpl.
  - split; [intros _ p []|reflexivity].
  - destruct (String.eqb_spec (type q) "graph") as [E|E]; simpl.
    + split; [discriminate|]. intros H. exfalso. apply (H q); auto.
    + rewrite IH. split.
      * intros H p [<-|Hp]; [exact E|apply H; exact Hp].
      * intros H p Hp. apply H. right. exact Hp.
Qed.

(** X19.  Suggestions that are returned never hold a next action or a
    related context: both lists are empty, and the request behind them
    yielded no candidate of type [graph].  The file and app lists hold at
    most five entries each; every entry carries a true value and a
    confidence at or above [min_confidence], and no entry repeats an
    earlier one. *)
Theorem suggestions_returned
    (E : env) (current_activity : dict pyval) (s : suggestions) :
  get_context_suggestions E current_activity = Ok s ->
  next_actions s = []
  /\ related_contexts s = []
  /\ (exists predictions,
        predict_context E current_activity 20 = Ok predictions
        /\ forall p, In p predictions -> type p <> "graph")
  /\ (List.length (related_files s) <= 5)%nat
  /\ (List.length (related_apps s) <= 5)%nat
  /\ (forall x, In x (related_files s) \/ In x (related_apps s) ->
        truthy (sug_value x) = true /\ (min_confidence E <= sug_confidence x)%Q)
  /\ ForallOrdPairs (fun x y => suggestion_eqb y x = false) (related_files s)
  /\ ForallOrdPairs (fun x y => suggestion_eqb y x = false) (related_apps s).
Proof.
  unfold get_context_suggestions. intros H.
  apply Prediction.bind_Ok in H as [predictions [Hpred H]].
  match type of H with
  | match ?actions with [] => _ | _ :: _ => _ end = _ =>
      destruct actions eqn:Eactions; [|discriminate]
  end.
  injection H as <-. cbn [next_actions related_contexts related_files related_apps].
  rewrite !slice_to_5.
  assert (forall field x,
            In x (firstn 5 (unique_items []
                    (flat_map (fun pred =>
                                 if truthy (get_or_none (data pred) field)
                                 then [mkSuggestion (get_or_none (data pred) field)
                                         (confidence pred) (reason pred)]
                                 else [])
                              predictions))) ->
            truthy (sug_value x) = true /\ (min_confidence E <= sug_confidence x)%Q)
    as Hentry.
  { intros field x Hx. apply GraphOps.firstn_In in Hx. apply unique_items_In in Hx.
    apply field_suggestions_In in Hx as [pred [Hin [Ht ->]]].
    cbn [sug_value sug_confidence]. split; [exact Ht|].
    apply (predict_context_threshold E current_activity 20 predictions Hpred pred Hin). }
  split; [reflexivity|]. split; [reflexivity|].
  split.
  { exists predictions. split; [exact Hpred|]. apply no_actions_no_graph. exact Eactions. }
  split; [apply Prediction.firstn_length_le|].
  split; [apply Prediction.firstn_length_le|].
  split.
  { intros x [Hx|Hx]; [apply (Hentry "file_path")|apply (Hentry "app_name")]; exact Hx. }
  split; apply ForallOrdPairs_firstn; apply unique_items_distinct.
Qed.

Lemma suggestions_returned_witness :
  let E := Examples.predictor Examples.three_hits Examples.editor_history in
  exists s,
    get_context_suggestions E [("app_name", PStr "editor")] = Ok s
    /\ next_actions s = []
    /\ (List.length (related_apps s) <= 5)%nat.
Proof.
  intros E.
  assert (exists s, get_context_suggestions E [("app_name", PStr "editor")] = Ok s)
    as [s Hs] by (eexists; reflexivity).
  destruct (suggestions_returned E [("app_name", PStr "editor")] s Hs)
    as [Hnext [_ [_ [_ [Hlen _]]]]].
  exists s. split; [exact Hs|]. split; [exact Hnext|exact Hlen].
Defined.

(** X20.  A request that yields a candidate of type [graph] cannot be turned
    into suggestions: [get_context_suggestions] raises [TypeError], since
    the next action built from the candidate holds the dictionary [data]
    and cannot be put into the set of seen entries. *)
Theorem graph_candidate_breaks_suggestions
    (E : env) (current_activity : dict pyval) (predictions : list prediction)
    (p : prediction) :
  predict_context E current_activity 20 = Ok predictions ->
  In p predictions ->
  type p = "graph" ->
  get_context_suggestions E current_activity = Raise "TypeError".
Proof.
  intros Hpred Hin Htype. unfold get_context_suggestions. rewrite Hpred. cbn [bind].
  match goal with
  | |- match ?actions with [] => _ | _ :: _ => _ end = _ =>
      destruct actions eqn:Eactions; [|reflexivity]
  end.
  exfalso. apply (proj1 (no_actions_no_graph predictions) Eactions p Hin Htype).
Qed.

Lemma graph_candidate_breaks_suggestions_witness :
  let E := Examples.predictor Examples.no_hits Examples.no_history in
  exists predictions p,
    predict_context E [("activity_id", PStr "a1")] 20 = Ok predictions
    /\ In p predictions
    /\ type p = "graph"
    /\ get_context_suggestions E [("activity_id", PStr "a1")] = Raise "TypeError".
Proof.
  intros E.
  assert (exists predictions p,
            predict_context E [("activity_id", PStr "a1")] 20 = Ok predictions
            /\ In p predictions /\ type p = "graph")
    as [predictions [p [Hpred [Hin Htype]]]].
  { eexists. eexists. split; [reflexivity|]. split; [left; reflexivity|reflexivity]. }
  exists predictions, p. split; [exact Hpred|]. split; [exact Hin|]. split; [exact Htype|].
  exact (graph_candidate_breaks_suggestions E [("activity_id", PStr "a1")] predictions p
           Hpred Hin Htype).
Defined.

(** ** Requests without a graph node *)

Lemma no_graph_candidates E current_activity max_results :
  match dict_get current_activity "activity_id" with
  | Some (PStr id) => Nx.has_node (TemporalGraph.graph (graph E)) id = false
  | _ => True
  end ->
  match dict_get current_activity "activity_id" with
  | Some activity_id => _predict_from_graph E activity_id max_results
  | None => []
  end = [].
Proof.
  destruct (dict_get current_activity "activity_id") as [[| | | |id|]|]; try reflexivity.
  intros H. unfold _predict_from_graph, TemporalGraph.predict_next_activities.
  rewrite H. reflexivity.
Qed.

(** X21.  The graph takes part in a request only through the key
    [activity_id]: when the activity has no such key, or its value is not a
    node of the graph, no candidate of type [graph] is returned, and the
    suggestions for the activity are returned whenever the request with
    [max_results] = 20 is. *)
Theorem request_without_graph_node
    (E : env) (current_activity : dict pyval) (max_results : Z) (res : list prediction) :
  match dict_get current_activity "activity_id" with
  | Some (PStr id) => Nx.has_node (TemporalGraph.graph (graph E)) id = false
  | _ => True
  end ->
  predict_context E current_activity max_results = Ok res ->
  (forall p, In p res -> type p <> "graph")
  /\ (max_results = 20 ->
      exists s, get_context_suggestions E current_activity = Ok s
                /\ next_actions s = []).
Proof.
  intros Hid Hres.
  assert (forall p, In p res -> type p <> "graph") as Hno.
  { pose proof Hres as H. unfold predict_context in H.
    apply Prediction.bind_Ok in H as [semantic [Hs H]].
    apply Prediction.bind_Ok in H as [temporal [Ht H]].
    apply Prediction.bind_Ok in H as [continuation [Hc H]].
    injection H as <-.
    rewrite (no_graph_candidates E current_activity max_results Hid).
    match goal with
    | |- context [_rank_and_deduplicate ?ps max_results] => set (predictions := ps)
    end.
    pose proof (ranked_fields predictions max_results) as Hfields.
    intros p Hp. unfold filter_by_confidence in Hp. apply filter_In in Hp as [Hp _].
    destruct (Hfields p Hp) as [_ [first [rest [_ [Hin [_ [Htype _]]]]]]]. rewrite Htype.
    unfold predictions in Hin. cbn [app] in Hin.
    apply in_app_iff in Hin as [Hin|Hin];
      [rewrite (semantics_type _ _ _ _ Hs first Hin); discriminate|].
    apply in_app_iff in Hin as [Hin|Hin];
      [rewrite (time_patterns_type _ _ _ _ Ht first Hin); discriminate|].
    rewrite (recent_context_type _ _ _ Hc first Hin). discriminate. }
  split; [exact Hno|].
  intros ->. unfold get_context_suggestions. rewrite Hres. cbn [bind].
  rewrite (proj2 (no_actions_no_graph res) Hno).
  eexists. split; reflexivity.
Qed.

Lemma request_without_graph_node_witness :
  let E := Examples.predictor Examples.three_hits Examples.editor_history in
  exists res s,
    predict_context E [("app_name", PStr "editor")] 20 = Ok res
    /\ get_context_suggestions E [("app_name", PStr "editor")] = Ok s
    /\ next_actions s = [].
Proof.
  intros E.
  assert (exists res, predict_context E [("app_name", PStr "editor")] 20 = Ok res)
    as [res Hres] by (eexists; reflexivity).
  destruct (request_without_graph_node E [("app_name", PStr "editor")] 20 res I Hres)
    as [_ Hs].
  destruct (Hs eq_refl) as [s [Hs1 Hs2]].
  exists res, s. auto.
Defined.

End PredictorOps.
